(** * Edward2 baselines: training-recipe arithmetic and loop control

    A shallow embedding of the two baseline scripts

    - [baselines/imagenet/batchensemble.py]      (modules [Imagenet],
      [ImagenetTraining] and [ImagenetEvaluation])
    - [baselines/cifar/variational_inference.py] (module [Cifar])

    Conventions of the embedding.

    - Python integers are [Z]; Python's [//] and [%] are floor division and
      floor modulo, which is what [Z.div] and [Z.modulo] compute; a zero
      divisor raises [ZeroDivisionError], which is written out.
    - [tf.float32] scalars are idealised as rationals [Q]: every statement
      about a loss or a learning rate is a statement of exact arithmetic and
      is compared with [==].
    - A tensor that the code only ever flattens, sums or counts is the list
      of its elements.
    - Framework primitives (the network's forward pass, cross-entropy,
      softmax, automatic differentiation, the optimizer update, the KL
      divergence of distributions) are variables of the sections that use
      them.
    - Python exceptions are values of [exception]; a computation that may
      raise returns a [result]. *)

From Stdlib Require Import ZArith QArith Qminmax Lqa Lia String List.
From stdpp Require Import base option gmap strings list pretty.

Open Scope Z_scope.

(** ** Python values shared by both scripts *)

Inductive exception : Type :=
  | ZeroDivisionError
  | ValueError (msg : string).

Inductive result (A : Type) : Type :=
  | Returns (a : A)
  | Raises (e : exception).

Arguments Returns {A} a.
Arguments Raises {A} e.

#[export] Instance result_ret : MRet result := fun A a => Returns a.

#[export] Instance result_bind : MBind result := fun A B k r =>
  match r with
  | Returns a => k a
  | Raises e => Raises e
  end.

(** [a // b] *)
Definition floordiv (a b : Z) : result Z :=
  if decide (b = 0) then Raises ZeroDivisionError else Returns (a / b).

(** [a % b] *)
Definition pymod (a b : Z) : result Z :=
  if decide (b = 0) then Raises ZeroDivisionError else Returns (a mod b).

(** [needle in haystack] on Python strings. *)
Fixpoint str_contains (needle haystack : string) : bool :=
  String.prefix needle haystack ||
  match haystack with
  | EmptyString => false
  | String _ rest => str_contains needle rest
  end.

(** [tf.reduce_sum] of a flattened tensor. *)
Definition reduce_sum (t : list Q) : Q := fold_right Qplus 0%Q t.

(** [tf.size], cast to the tensor's dtype. *)
Definition size (t : list Q) : Q := inject_Z (Z.of_nat (length t)).

(** [tf.reduce_mean] of a flattened tensor. *)
Definition reduce_mean (t : list Q) : Q := (reduce_sum t / size t)%Q.

(** [tf.where] on scalars. *)
Definition tf_where (cond : bool) (x y : Q) : Q := if cond then x else y.

(** [tf.math.divide_no_nan] *)
Definition divide_no_nan (x y : Q) : Q :=
  if Qeq_bool y 0 then 0%Q else (x / y)%Q.

(** ** baselines/imagenet/batchensemble.py *)

Module Imagenet.

Record FLAGS : Type := {
  num_models : Z;
  per_core_batch_size : Z;
  base_learning_rate : Q;
  version2 : bool;
  num_cores : Z;
  num_epochs : Z;
  steps_per_epoch : option Z   (* [None] is the unset flag *)
}.

Definition APPROX_IMAGENET_TRAINING_IMAGES : Z := 1281167.
Definition IMAGENET_VALIDATION_IMAGES : Z := 50000.
Definition NUM_CLASSES : Z := 1000.
Definition _EPOCHS : Z := 90.

(** (multiplier, epoch to start) tuples *)
Definition _LR_SCHEDULE : list (Q * Z) :=
  [ (1%Q, 5); ((1 # 10)%Q, 30); ((1 # 100)%Q, 60); ((1 # 1000)%Q, 80) ].

Record ResnetLearningRateSchedule : Type := {
  lrs_steps_per_epoch : Z;
  lrs_initial_learning_rate : Q;
  lrs_num_epochs : Z
}.

(** [ResnetLearningRateSchedule.__call__] *)
Definition call (self : ResnetLearningRateSchedule) (step : Z) : Q :=
  let lr_epoch := (inject_Z step / inject_Z (lrs_steps_per_epoch self))%Q in
  let '(warmup_lr_multiplier, warmup_end_epoch) :=
    hd (0%Q, 0) _LR_SCHEDULE in
  let warmup_end_epoch := (warmup_end_epoch * lrs_num_epochs self) / 90 in
  let learning_rate :=
    (lrs_initial_learning_rate self * warmup_lr_multiplier * lr_epoch
     / inject_Z warmup_end_epoch)%Q in
  fold_left
    (fun learning_rate '(mult, start_epoch) =>
       let start_epoch := (start_epoch * lrs_num_epochs self) / 90 in
       tf_where (Qle_bool (inject_Z start_epoch) lr_epoch)
                (lrs_initial_learning_rate self * mult)%Q
                learning_rate)
    _LR_SCHEDULE learning_rate.

(** [safe_mean] *)
Definition safe_mean (losses : list Q) : Q :=
  let total := reduce_sum losses in
  let num_elements := size losses in
  divide_no_nan total num_elements.

(** The values [main] derives from the flags before it touches the
    framework. *)
Record setup : Type := {
  batch_size : Z;
  su_steps_per_epoch : Z;
  steps_per_eval : Z;
  base_lr : Q;
  learning_rate : ResnetLearningRateSchedule
}.

Definition main_setup (F : FLAGS) : result setup :=
  batch_size ←
    (if version2 F
     then q ← floordiv (per_core_batch_size F) (num_models F);
          mret (q * num_cores F)
     else mret (per_core_batch_size F * num_cores F));
  steps_per_epoch ←
    (match steps_per_epoch F with
     | Some s => if decide (s = 0)
                 then floordiv APPROX_IMAGENET_TRAINING_IMAGES batch_size
                 else mret s
     | None => floordiv APPROX_IMAGENET_TRAINING_IMAGES batch_size
     end);
  steps_per_eval ← floordiv IMAGENET_VALIDATION_IMAGES batch_size;
  let base_lr := (base_learning_rate F * inject_Z batch_size / 256)%Q in
  mret {| batch_size := batch_size;
          su_steps_per_epoch := steps_per_epoch;
          steps_per_eval := steps_per_eval;
          base_lr := base_lr;
          learning_rate :=
            {| lrs_steps_per_epoch := steps_per_epoch;
               lrs_initial_learning_rate := base_lr;
               lrs_num_epochs := num_epochs F |} |}.

(** The schedule read as a table (these three definitions are not part of
    the script): an entry's start epoch scaled to [num_epochs], whether an
    entry has started at [lr_epoch], and the last entry that has. *)
Definition scaled_start (num_epochs start_epoch : Z) : Z :=
  (start_epoch * num_epochs) / 90.

Definition started (num_epochs : Z) (lr_epoch : Q) (entry : Q * Z) : bool :=
  Qle_bool (inject_Z (scaled_start num_epochs (snd entry))) lr_epoch.

Definition last_started (num_epochs : Z) (lr_epoch : Q) : option (Q * Z) :=
  last (filter (fun entry => started num_epochs lr_epoch entry = true)
               _LR_SCHEDULE).

End Imagenet.


(** ** baselines/cifar/variational_inference.py *)

Module Cifar.

Record FLAGS : Type := {
  per_core_batch_size : Z;
  base_learning_rate : Q;
  lr_warmup_epochs : Z;
  lr_decay_ratio : Q;
  lr_decay_epochs : list Z;
  kl_annealing_epochs : Z;
  l2 : Q;
  prior_stddev : Q;
  stddev_init : Q;
  corruptions_interval : Z;
  checkpoint_interval : Z;
  num_bins : Z;
  num_eval_samples : Z;
  train_epochs : Z;
  use_bfloat16 : bool;
  num_cores : Z
}.

(** *** Tensors, variables, distributions *)

Record tensor : Type := { shape : list Z; values : list Q }.

Definition scalar (q : Q) : tensor := {| shape := []; values := [q] |}.

(** A [tf.Variable] as the training step sees it: its name and value. *)
Record variable : Type := { name : string; value : tensor }.

(** [tf.reshape(var, (-1,))] *)
Definition reshape_flat (var : variable) : list Q := values (value var).

(** [tf.concat(ts, axis=0)] on rank-1 tensors.  (The framework rejects
    an empty list of tensors; the Wide ResNet always has batch-norm
    variables, so the training step never passes one.) *)
Definition tf_concat (ts : list (list Q)) : list Q := concat ts.

(** [tf.nn.l2_loss(t)]: [sum(t ** 2) / 2]. *)
Definition tf_nn_l2_loss (t : list Q) : Q :=
  (reduce_sum (map (fun x => x * x) t) / 2)%Q.

Inductive distribution : Type :=
  | Normal (loc scale : tensor)
  | Independent (d : distribution) (reinterpreted_batch_ndims : nat).

Fixpoint mean (d : distribution) : tensor :=
  match d with
  | Normal loc _ => loc
  | Independent d _ => mean d
  end.

Fixpoint batch_shape (d : distribution) : list Z :=
  match d with
  | Normal loc scale =>
      match shape loc with [] => shape scale | s => s end
  | Independent d n =>
      take (length (batch_shape d) - n) (batch_shape d)
  end.

Fixpoint event_shape (d : distribution) : list Z :=
  match d with
  | Normal _ _ => []
  | Independent d n =>
      drop (length (batch_shape d) - n) (batch_shape d) ++ event_shape d
  end.

(** What a regularizer may be handed: an [ed.RandomVariable] (which wraps
    a distribution) or something else, such as a plain [tf.Tensor]. *)
Inductive pyobject : Type :=
  | RandomVariable (distribution : distribution)
  | Tensor (t : tensor).

(** *** Metrics *)

Inductive metric_kind : Type :=
  | Mean
  | SparseCategoricalAccuracy
  | ExpectedCalibrationError (num_classes num_bins : Z).

(** One [update_state] call: a scalar (for [Mean]) or labels with
    predictions. *)
Inductive update : Type :=
  | Scalar (v : Q)
  | Labelled (labels : list Z) (predictions : tensor).

(** A Keras metric is determined by its kind and the updates it has
    received since it was created or last reset. *)
Record metric : Type := { kind : metric_kind; updates : list update }.

Definition new_metric (k : metric_kind) : metric :=
  {| kind := k; updates := [] |}.

(** [metric.update_state(...)] *)
Definition metric_update_state (u : update) (m : metric) : metric :=
  {| kind := kind m; updates := updates m ++ [u] |}.

(** [metric.reset_states()] *)
Definition reset_states (m : metric) : metric :=
  {| kind := kind m; updates := [] |}.

(** [metrics[key].update_state(...)]; every key the script uses is put
    in the dictionary when it is built. *)
Definition update_state (key : string) (u : update)
    (metrics : gmap string metric) : gmap string metric :=
  alter (metric_update_state u) key metrics.

(** *** The optimizer *)

Record optimizer_state : Type := {
  iterations : Z;
  slots : list tensor
}.

(** *** What the framework provides *)

Record framework : Type := {
  (** [model(images, training=...)]; the last argument numbers the
      forward passes, each of which draws fresh weight perturbations. *)
  model : list variable -> tensor -> bool -> nat -> tensor;
  (** [model.losses], the layers' regularization terms. *)
  model_losses : list variable -> list Q;
  (** [tf.keras.losses.sparse_categorical_crossentropy(labels, preds,
      from_logits=...)], one value per example. *)
  sparse_categorical_crossentropy : list Z -> tensor -> bool -> list Q;
  softmax : tensor -> tensor;
  stack : list tensor -> tensor;
  reduce_mean_axis0 : tensor -> tensor;
  cast_float32 : tensor -> tensor;
  (** [tape.gradient(target, variables)] for the target computed, under
      the tape, as the given function of the variables. *)
  gradient : (list variable -> Q) -> list variable -> list tensor;
  (** [optimizer.apply_gradients(zip(grads, variables))] *)
  apply_gradients :
    optimizer_state -> list (tensor * variable) ->
    optimizer_state * list variable;
  (** [strategy.num_replicas_in_sync] *)
  num_replicas_in_sync : Z;
  (** [distribution.kl_divergence(other)] *)
  kl_divergence : distribution -> distribution -> Q;
  (** [metric.result()] *)
  metric_result : metric -> Q;
  (** [utils.aggregate_corrupt_metrics(corrupt_metrics, corruption_types,
      max_intensity)]: the dictionary handed over, as the helper leaves
      it, and the results it returns. *)
  aggregate_corrupt_metrics :
    gmap string metric -> list string -> Z ->
    gmap string metric * gmap string Q
}.

(** *** [NormalKLDivergenceWithTiedMean] *)

Record NormalKLDivergenceWithTiedMean : Type := {
  stddev : Q;
  scale_factor : Q
}.

Definition regularizer_call (fw : framework)
    (self : NormalKLDivergenceWithTiedMean) (x : pyobject) : result Q :=
  match x with
  | RandomVariable x_distribution =>
      let prior :=
        Independent (Normal (mean x_distribution) (scalar (stddev self)))
                    (length (event_shape x_distribution)) in
      let regularization := kl_divergence fw x_distribution prior in
      Returns (scale_factor self * regularization)%Q
  | _ => Raises (ValueError "Input must be an ed.RandomVariable.")
  end.

(** *** The network *)

(** [ed.initializers.TrainableHeNormal(stddev_initializer=
    TruncatedNormal(mean=np.log(np.expm1(stddev_init)), stddev=0.1))],
    kept as the [stddev_init] it is built from. *)
Record TrainableHeNormal : Type := { he_stddev_init : Q }.

(** A symbolic Keras tensor: the layers that produce it. *)
Inductive keras_tensor : Type :=
  | Input (input_shape : list Z)
  | BatchNormalization (x : keras_tensor)
  | Activation (fn : string) (x : keras_tensor)
  | Conv2DFlipout (filters kernel_size strides : Z)
      (kernel_initializer : TrainableHeNormal)
      (kernel_regularizer : NormalKLDivergenceWithTiedMean)
      (x : keras_tensor)
  | Add (x y : keras_tensor)
  | AveragePooling2D (pool_size : Z) (x : keras_tensor)
  | Flatten (x : keras_tensor)
  | DenseFlipout (units : Z)
      (kernel_initializer : TrainableHeNormal)
      (kernel_regularizer : NormalKLDivergenceWithTiedMean)
      (x : keras_tensor).

(** Static shapes without the batch dimension: height, width, channels
    until [Flatten]. *)
Fixpoint static_shape (t : keras_tensor) : list Z :=
  match t with
  | Input s => s
  | BatchNormalization x => static_shape x
  | Activation _ x => static_shape x
  | Conv2DFlipout filters _ strides _ _ x =>
      match static_shape x with
      | [h; w; _] =>
          [(h + strides - 1) / strides; (w + strides - 1) / strides; filters]
      | s => s
      end
  | Add x _ => static_shape x
  | AveragePooling2D pool x =>
      match static_shape x with
      | [h; w; c] => [(h - pool) / pool + 1; (w - pool) / pool + 1; c]
      | s => s
      end
  | Flatten x => [foldr Z.mul 1 (static_shape x)]
  | DenseFlipout units _ _ _ => [units]
  end.

(** [x.shape.is_compatible_with(y.shape)] for fully defined shapes. *)
Definition is_compatible_with (s1 s2 : list Z) : bool :=
  bool_decide (s1 = s2).

(** [1. / dataset_size] *)
Definition truediv_one (dataset_size : Z) : result Q :=
  if decide (dataset_size = 0) then Raises ZeroDivisionError
  else Returns (1 / inject_Z dataset_size)%Q.

Definition basic_block (inputs : keras_tensor) (filters strides : Z)
    (prior_stddev : Q) (dataset_size : Z) (stddev_init : Q)
    : result keras_tensor :=
  let x := inputs in
  let y := inputs in
  let y := BatchNormalization y in
  let y := Activation "relu" y in
  sf ← truediv_one dataset_size;
  let y := Conv2DFlipout filters 3 strides
             {| he_stddev_init := stddev_init |}
             {| stddev := prior_stddev; scale_factor := sf |} y in
  let y := BatchNormalization y in
  let y := Activation "relu" y in
  sf ← truediv_one dataset_size;
  let y := Conv2DFlipout filters 3 1
             {| he_stddev_init := stddev_init |}
             {| stddev := prior_stddev; scale_factor := sf |} y in
  x ← (if negb (is_compatible_with (static_shape x) (static_shape y))
       then sf ← truediv_one dataset_size;
            mret (Conv2DFlipout filters 1 strides
                    {| he_stddev_init := stddev_init |}
                    {| stddev := prior_stddev; scale_factor := sf |} x)
       else mret x);
  mret (Add x y).

(** [for _ in range(n): x = body(x)] for a body that may raise. *)
Fixpoint repeat_result {A : Type} (n : nat) (body : A -> result A) (x : A)
    : result A :=
  match n with
  | O => mret x
  | S n' => x' ← body x; repeat_result n' body x'
  end.

Definition group (inputs : keras_tensor) (filters strides num_blocks : Z)
    (prior_stddev : Q) (dataset_size : Z) (stddev_init : Q)
    : result keras_tensor :=
  x ← basic_block inputs filters strides
        prior_stddev dataset_size stddev_init;
  repeat_result (Z.to_nat (num_blocks - 1))
    (fun x => basic_block x filters 1 prior_stddev dataset_size stddev_init)
    x.

Definition wide_resnet (input_shape : list Z)
    (depth width_multiplier num_classes : Z)
    (prior_stddev : Q) (dataset_size : Z) (stddev_init : Q)
    : result keras_tensor :=
  if negb ((depth - 4) mod 6 =? 0)
  then Raises (ValueError "depth should be 6n+4 (e.g., 16, 22, 28, 40).")
  else
    let num_blocks := (depth - 4) / 6 in
    let inputs := Input input_shape in
    sf ← truediv_one dataset_size;
    let x := Conv2DFlipout 16 3 1
               {| he_stddev_init := stddev_init |}
               {| stddev := prior_stddev; scale_factor := sf |} inputs in
    x ← foldl
          (fun (rx : result keras_tensor) '(strides, filters) =>
             x ← rx;
             group x (filters * width_multiplier) strides num_blocks
                   prior_stddev dataset_size stddev_init)
          (mret x)
          (zip [1; 2; 2] [16; 32; 64]);
    let x := BatchNormalization x in
    let x := Activation "relu" x in
    let x := AveragePooling2D 8 x in
    let x := Flatten x in
    sf ← truediv_one dataset_size;
    mret (DenseFlipout num_classes
            {| he_stddev_init := stddev_init |}
            {| stddev := prior_stddev; scale_factor := sf |} x).

(** *** The part of [main] that derives values from the flags *)

(** [tfds.builder(FLAGS.dataset).info], as far as [main] reads it. *)
Record dataset_info : Type := {
  train_num_examples : Z;
  test_num_examples : Z;
  label_num_classes : Z;
  image_shape : list Z
}.

(** The arguments [main] passes to [utils.LearningRateSchedule]. *)
Record LearningRateSchedule : Type := {
  lrs_steps_per_epoch : Z;
  lrs_base_lr : Q;
  lrs_decay_ratio : Q;
  lrs_decay_epochs : list Z;
  lrs_warmup_epochs : Z
}.

Record setup : Type := {
  batch_size : Z;
  train_dataset_size : Z;
  steps_per_epoch : Z;
  steps_per_eval : Z;
  num_classes : Z;
  network : keras_tensor;
  lr_schedule : LearningRateSchedule
}.

Definition main_setup (F : FLAGS) (ds_info : dataset_info) : result setup :=
  let batch_size := per_core_batch_size F * num_cores F in
  let train_dataset_size := train_num_examples ds_info in
  steps_per_epoch ← floordiv train_dataset_size batch_size;
  steps_per_eval ← floordiv (test_num_examples ds_info) batch_size;
  let num_classes := label_num_classes ds_info in
  network ← wide_resnet (image_shape ds_info) 28 10 num_classes
              (prior_stddev F) train_dataset_size (stddev_init F);
  (* Linearly scale learning rate and the decay epochs by vanilla
     settings. *)
  let base_lr := (base_learning_rate F * inject_Z batch_size / 128)%Q in
  let lr_decay_epochs :=
    map (fun start_epoch => (start_epoch * train_epochs F) / 200)
        (lr_decay_epochs F) in
  let lr_schedule :=
    {| lrs_steps_per_epoch := steps_per_epoch;
       lrs_base_lr := base_lr;
       lrs_decay_ratio := lr_decay_ratio F;
       lrs_decay_epochs := lr_decay_epochs;
       lrs_warmup_epochs := lr_warmup_epochs F |} in
  mret {| batch_size := batch_size;
          train_dataset_size := train_dataset_size;
          steps_per_epoch := steps_per_epoch;
          steps_per_eval := steps_per_eval;
          num_classes := num_classes;
          network := network;
          lr_schedule := lr_schedule |}.

(** *** The training state *)

(** What [checkpoint.save] writes: model, optimizer and global step. *)
Record checkpoint : Type := {
  ck_epoch : Z;
  ck_variables : list variable;
  ck_optimizer : optimizer_state;
  ck_global_step : Z
}.

(** Everything the loop of [main] reads and writes. *)
Record state : Type := {
  trainable_variables : list variable;
  optimizer : optimizer_state;
  global_step : Z;                       (* a [tf.int64] variable *)
  forward_passes : nat;                  (* forward passes drawn so far *)
  train_position : nat;                  (* of [train_iterator] *)
  metrics : gmap string metric;
  corrupt_metrics : gmap string metric;
  summaries : list (string * Q * Z);     (* [tf.summary.scalar] calls *)
  checkpoints : list checkpoint          (* [checkpoint.save] calls *)
}.

(** Arithmetic on [tf.int64] wraps around. *)
Definition int64 (z : Z) : Z := (z + 2 ^ 63) mod 2 ^ 64 - 2 ^ 63.

(** Python's [sum] of a list of numbers. *)
Definition py_sum (l : list Q) : Q := fold_left Qplus l 0%Q.

(** [for x in xs: body], threading the state. *)
Definition for_each {A S : Type} (xs : list A) (body : S -> A -> S) (s : S)
    : S :=
  foldl body s xs.

(** [range(n)] *)
Definition range (n : Z) : list Z := seqZ 0 n.

(** What [main] reads from outside: the data, and the corruptions listed
    by [utils.load_corrupted_test_info]. *)
Record environment : Type := {
  train_dataset : nat -> tensor * list Z;
  clean_test_dataset : nat -> tensor * list Z;
  corruption_types : list string;
  max_intensity : Z;
  load_c_input_fn : string -> Z -> nat -> tensor * list Z
}.

(** ['{0}_{1}'.format(corruption, intensity)] *)
Definition corrupted_name (corruption : string) (intensity : Z) : string :=
  corruption +:+ "_" +:+ pretty intensity.

(** [test_datasets], in insertion order (corruption types are distinct
    names, so no key is inserted twice). *)
Definition test_datasets (F : FLAGS) (env : environment)
    : list (string * (nat -> tensor * list Z)) :=
  ("clean", clean_test_dataset env) ::
  (if bool_decide (0 < corruptions_interval F)
   then
     corruption ← corruption_types env;
     intensity ← seqZ 1 (max_intensity env);
     [(corrupted_name corruption intensity,
       load_c_input_fn env corruption intensity)]
   else []).

Definition initial_metrics (F : FLAGS) (num_classes : Z)
    : gmap string metric :=
  <["test/ece" :=
      new_metric (ExpectedCalibrationError num_classes (num_bins F))]>
  (<["test/accuracy" := new_metric SparseCategoricalAccuracy]>
  (<["test/negative_log_likelihood" := new_metric Mean]>
  (<["train/kl_scale" := new_metric Mean]>
  (<["train/kl" := new_metric Mean]>
  (<["train/ece" :=
       new_metric (ExpectedCalibrationError num_classes (num_bins F))]>
  (<["train/loss" := new_metric Mean]>
  (<["train/accuracy" := new_metric SparseCategoricalAccuracy]>
  (<["train/negative_log_likelihood" := new_metric Mean]> ∅)))))))).

Definition initial_corrupt_metrics (F : FLAGS) (env : environment)
    (num_classes : Z) : gmap string metric :=
  if bool_decide (0 < corruptions_interval F)
  then
    for_each (seqZ 1 (max_intensity env))
      (fun corrupt_metrics intensity =>
         for_each (corruption_types env)
           (fun corrupt_metrics corruption =>
              let dataset_name := corrupted_name corruption intensity in
              <["test/ece_" +:+ dataset_name :=
                  new_metric
                    (ExpectedCalibrationError num_classes (num_bins F))]>
              (<["test/accuracy_" +:+ dataset_name :=
                   new_metric SparseCategoricalAccuracy]>
              (<["test/nll_" +:+ dataset_name := new_metric Mean]>
               corrupt_metrics)))
           corrupt_metrics)
      ∅
  else ∅.

Section Training.

Variable fw : framework.
Variable F : FLAGS.
Variable env : environment.
(** [steps_per_epoch] and [steps_per_eval] as [main] computed them. *)
Variable steps_per_epoch : Z.
Variable steps_per_eval : Z.

(** **** [train_step] *)

Definition train_logits (variables : list variable) (images : tensor)
    (pass : nat) : tensor :=
  let logits := model fw variables images true pass in
  if use_bfloat16 F then cast_float32 fw logits else logits.

Definition negative_log_likelihood (variables : list variable)
    (images : tensor) (labels : list Z) (pass : nat) : Q :=
  reduce_mean
    (sparse_categorical_crossentropy fw labels
       (train_logits variables images pass) true).

(** Apply l2 on the BN parameters and bias terms. *)
Definition l2_selected (var : variable) : bool :=
  str_contains "batch_norm" (name var) || str_contains "bias" (name var).

Definition filtered_variables (variables : list variable)
    : list (list Q) :=
  map reshape_flat (List.filter l2_selected variables).

Definition l2_loss (variables : list variable) : Q :=
  (l2 F * 2 * tf_nn_l2_loss (tf_concat (filtered_variables variables)))%Q.

Definition kl (variables : list variable) : Q :=
  py_sum (model_losses fw variables).

Definition kl_scale (global_step : Z) : Q :=
  let kl_scale := inject_Z (int64 (global_step + 1)) in
  let kl_scale :=
    (kl_scale / inject_Z (steps_per_epoch * kl_annealing_epochs F))%Q in
  Qmin 1 kl_scale.

Definition kl_loss (variables : list variable) (global_step : Z) : Q :=
  (kl_scale global_step * kl variables)%Q.

Definition loss (variables : list variable) (images : tensor)
    (labels : list Z) (pass : nat) (global_step : Z) : Q :=
  (negative_log_likelihood variables images labels pass
   + l2_loss variables + kl_loss variables global_step)%Q.

(** Scale the loss given the TPUStrategy will reduce sum all
    gradients. *)
Definition scaled_loss (variables : list variable) (images : tensor)
    (labels : list Z) (pass : nat) (global_step : Z) : Q :=
  (loss variables images labels pass global_step
   / inject_Z (num_replicas_in_sync fw))%Q.

(** The per-replica [step_fn] of [train_step]. *)
Definition train_step_fn (st : state) (inputs : tensor * list Z)
    : state :=
  let '(images, labels) := inputs in
  let variables := trainable_variables st in
  let pass := forward_passes st in
  let step := global_step st in
  let logits := train_logits variables images pass in
  let grads :=
    gradient fw
      (fun variables => scaled_loss variables images labels pass step)
      variables in
  let '(optimizer', variables') :=
    apply_gradients fw (optimizer st) (zip grads variables) in
  let probs := softmax fw logits in
  let metrics := update_state "train/ece" (Labelled labels probs)
                   (metrics st) in
  let metrics := update_state "train/loss"
                   (Scalar (loss variables images labels pass step))
                   metrics in
  let metrics := update_state "train/negative_log_likelihood"
                   (Scalar (negative_log_likelihood
                              variables images labels pass))
                   metrics in
  let metrics := update_state "train/kl" (Scalar (kl variables))
                   metrics in
  let metrics := update_state "train/kl_scale" (Scalar (kl_scale step))
                   metrics in
  let metrics := update_state "train/accuracy" (Labelled labels logits)
                   metrics in
  {| trainable_variables := variables';
     optimizer := optimizer';
     global_step := int64 (step + 1);
     forward_passes := S pass;
     train_position := train_position st;
     metrics := metrics;
     corrupt_metrics := corrupt_metrics st;
     summaries := summaries st;
     checkpoints := checkpoints st |}.

(** [next(iterator)] on the training iterator. *)
Definition next_train (st : state) : (tensor * list Z) * state :=
  (train_dataset env (train_position st),
   {| trainable_variables := trainable_variables st;
      optimizer := optimizer st;
      global_step := global_step st;
      forward_passes := forward_passes st;
      train_position := S (train_position st);
      metrics := metrics st;
      corrupt_metrics := corrupt_metrics st;
      summaries := summaries st;
      checkpoints := checkpoints st |}).

Definition train_step (st : state) : state :=
  let '(inputs, st) := next_train st in
  train_step_fn st inputs.

(** **** [test_step] *)

(** The per-replica [step_fn] of [test_step]. *)
Definition test_step_fn (dataset_name : string) (st : state)
    (inputs : tensor * list Z) : state :=
  let '(images, labels) := inputs in
  let variables := trainable_variables st in
  let pass := forward_passes st in
  let several :=
    bool_decide (1 < num_eval_samples F)
    && negb (String.eqb dataset_name "clean") in
  let samples := if several then Z.to_nat (num_eval_samples F) else 1%nat in
  let logits :=
    if several
    then stack fw
           (map (fun i => model fw variables images false (pass + i)%nat)
                (seq 0 samples))
    else model fw variables images false pass in
  let logits := if use_bfloat16 F then cast_float32 fw logits else logits in
  let probs := softmax fw logits in
  let probs := if several then reduce_mean_axis0 fw probs else probs in
  let negative_log_likelihood :=
    reduce_mean (sparse_categorical_crossentropy fw labels probs false) in
  let clean := String.eqb dataset_name "clean" in
  let metrics :=
    if clean
    then update_state "test/ece" (Labelled labels probs)
           (update_state "test/accuracy" (Labelled labels probs)
              (update_state "test/negative_log_likelihood"
                 (Scalar negative_log_likelihood) (metrics st)))
    else metrics st in
  let corrupt_metrics :=
    if clean
    then corrupt_metrics st
    else update_state ("test/ece_" +:+ dataset_name)
           (Labelled labels probs)
           (update_state ("test/accuracy_" +:+ dataset_name)
              (Labelled labels probs)
              (update_state ("test/nll_" +:+ dataset_name)
                 (Scalar negative_log_likelihood) (corrupt_metrics st)))
  in
  {| trainable_variables := variables;
     optimizer := optimizer st;
     global_step := global_step st;
     forward_passes := (pass + samples)%nat;
     train_position := train_position st;
     metrics := metrics;
     corrupt_metrics := corrupt_metrics;
     summaries := summaries st;
     checkpoints := checkpoints st |}.

(** [test_step(test_iterator, dataset_name)] at the iterator's
    position [step]. *)
Definition test_step (dataset_name : string)
    (test_dataset : nat -> tensor * list Z) (st : state) (step : Z)
    : state :=
  test_step_fn dataset_name st (test_dataset (Z.to_nat step)).

(** **** One epoch of the loop of [main] *)

Definition corruptions_due (epoch : Z) : bool :=
  bool_decide (0 < corruptions_interval F)
  && ((epoch + 1) mod corruptions_interval F =? 0).

Definition checkpoint_due (epoch : Z) : bool :=
  bool_decide (0 < checkpoint_interval F)
  && ((epoch + 1) mod checkpoint_interval F =? 0).

(** The training steps of an epoch. *)
Definition train_epoch (st : state) : state :=
  for_each (range steps_per_epoch) (fun st _ => train_step st) st.

Definition datasets_to_evaluate (epoch : Z)
    : list (string * (nat -> tensor * list Z)) :=
  if corruptions_due epoch
  then test_datasets F env
  else [("clean", clean_test_dataset env)].

(** The evaluation of an epoch. *)
Definition evaluate (epoch : Z) (st : state) : state :=
  for_each (datasets_to_evaluate epoch)
    (fun st '(dataset_name, test_dataset) =>
       for_each (range steps_per_eval)
         (test_step dataset_name test_dataset) st)
    st.

(** Reporting, resetting and checkpointing at the end of an epoch. *)
Definition end_of_epoch (epoch : Z) (st : state) : state :=
  let '(corrupt_metrics, corrupt_results) :=
    if corruptions_due epoch
    then aggregate_corrupt_metrics fw (corrupt_metrics st)
           (corruption_types env) (max_intensity env)
    else (corrupt_metrics st, ∅) in
  let total_results := metric_result fw <$> metrics st in
  (* [total_results.update(corrupt_results)] *)
  let total_results := corrupt_results ∪ total_results in
  let summaries :=
    summaries st ++
    map (fun '(name, result) => (name, result, epoch + 1))
        (map_to_list total_results) in
  let metrics := reset_states <$> metrics st in
  let checkpoints :=
    if checkpoint_due epoch
    then checkpoints st ++
         [ {| ck_epoch := epoch;
              ck_variables := trainable_variables st;
              ck_optimizer := optimizer st;
              ck_global_step := global_step st |} ]
    else checkpoints st in
  {| trainable_variables := trainable_variables st;
     optimizer := optimizer st;
     global_step := global_step st;
     forward_passes := forward_passes st;
     train_position := train_position st;
     metrics := metrics;
     corrupt_metrics := corrupt_metrics;
     summaries := summaries;
     checkpoints := checkpoints |}.

Definition run_epoch (st : state) (epoch : Z) : state :=
  end_of_epoch epoch (evaluate epoch (train_epoch st)).

(** [for epoch in range(initial_epoch, FLAGS.train_epochs)] *)
Definition main_loop (initial_epoch : Z) (st : state) : state :=
  for_each (seqZ initial_epoch (train_epochs F - initial_epoch))
           run_epoch st.

End Training.

(** The state [main] enters its loop with when no checkpoint is
    restored. *)
Definition initial_state (F : FLAGS) (env : environment)
    (num_classes : Z) (variables : list variable)
    (optimizer : optimizer_state) : state :=
  {| trainable_variables := variables;
     optimizer := optimizer;
     global_step := 0;
     forward_passes := 0;
     train_position := 0;
     metrics := initial_metrics F num_classes;
     corrupt_metrics := initial_corrupt_metrics F env num_classes;
     summaries := [];
     checkpoints := [] |}.

(** *** Restoring a checkpoint and the whole of [main] *)

(** [tf.train.latest_checkpoint(FLAGS.output_dir)]: of the checkpoints
    written to the directory so far, the one written last. *)
Definition latest_checkpoint (saved : list checkpoint) : option checkpoint :=
  last saved.

(** [checkpoint.restore] puts back the model, the optimizer and the global
    step; the metrics, the iterator and the writers are new objects. *)
Definition checkpoint_restore (ck : checkpoint) (st : state) : state :=
  {| trainable_variables := ck_variables ck;
     optimizer := ck_optimizer ck;
     global_step := ck_global_step ck;
     forward_passes := forward_passes st;
     train_position := train_position st;
     metrics := metrics st;
     corrupt_metrics := corrupt_metrics st;
     summaries := summaries st;
     checkpoints := checkpoints st |}.

(** The end of the [strategy.scope()] block of [main]: the state to train
    from and [initial_epoch].  ([optimizer.iterations.numpy()] is a NumPy
    integer, whose [//] by zero yields 0 with a warning.) *)
Definition restore_latest (steps_per_epoch : Z)
    (latest_checkpoint : option checkpoint) (st : state) : state * Z :=
  let initial_epoch := 0 in
  match latest_checkpoint with
  | Some ck =>
      let st := checkpoint_restore ck st in
      (st, iterations (optimizer st) / steps_per_epoch)
  | None => (st, initial_epoch)
  end.

(** [main], given what the framework and the file system hand it: the
    dataset description, the freshly initialised variables and optimizer,
    and the checkpoints already in the output directory.  The checkpoints
    of the state it returns are the ones this run has written. *)
Definition main (fw : framework) (F : FLAGS) (env : environment)
    (ds_info : dataset_info) (variables : list variable)
    (optimizer : optimizer_state) (saved : list checkpoint) : result state :=
  s ← main_setup F ds_info;
  let st := initial_state F env (num_classes s) variables optimizer in
  let '(st, initial_epoch) :=
    restore_latest (steps_per_epoch s) (latest_checkpoint saved) st in
  mret (main_loop fw F env (steps_per_epoch s) (steps_per_eval s)
          initial_epoch st).

(** [NormalKLDivergenceWithTiedMean.get_config]: a dictionary with the
    keys ['stddev'] and ['scale_factor']. *)
Definition regularizer_get_config (self : NormalKLDivergenceWithTiedMean)
    : gmap string Q :=
  <["scale_factor" := scale_factor self]> (<["stddev" := stddev self]> ∅).

End Cifar.


(** ** baselines/imagenet/batchensemble.py: serialisation and the training
    step's variable selection

    Tensors and variables are the ones of [Cifar]. *)

Module ImagenetTraining.

(** A value of a Keras config dictionary. *)
Inductive config_value : Type :=
  | ConfigInt (z : Z)
  | ConfigFloat (q : Q).

(** [ResnetLearningRateSchedule.get_config] *)
Definition get_config (self : Imagenet.ResnetLearningRateSchedule)
    : gmap string config_value :=
  <["initial_learning_rate" :=
      ConfigFloat (Imagenet.lrs_initial_learning_rate self)]>
  (<["steps_per_epoch" := ConfigInt (Imagenet.lrs_steps_per_epoch self)]> ∅).

(** The flags of the script that only its training step reads. *)
Record FLAGS : Type := {
  weight_decay : Q;
  fast_weight_lr_multiplier : Q
}.

(** ['bn' not in var.name or 'batch_norm' not in var.name] *)
Definition not_bn_and_batch_norm (var : Cifar.variable) : bool :=
  negb (str_contains "bn" (Cifar.name var))
  || negb (str_contains "batch_norm" (Cifar.name var)).

(** The test that fills [filtered_variables] in [train_step]. *)
Definition l2_selected (var : Cifar.variable) : bool :=
  not_bn_and_batch_norm var
  && negb (str_contains "alpha" (Cifar.name var))
  && negb (str_contains "gamma" (Cifar.name var)).

Definition filtered_variables (variables : list Cifar.variable)
    : list (list Q) :=
  map Cifar.reshape_flat (List.filter l2_selected variables).

Definition l2_loss (F : FLAGS) (variables : list Cifar.variable) : Q :=
  (weight_decay F * 2
   * Cifar.tf_nn_l2_loss (Cifar.tf_concat (filtered_variables variables)))%Q.

(** [loss = loss1 + l2_loss] and [scaled_loss], for the prediction loss
    [loss1] the framework computed. *)
Definition loss (F : FLAGS) (loss1 : Q) (variables : list Cifar.variable)
    : Q :=
  (loss1 + l2_loss F variables)%Q.

Definition scaled_loss (F : FLAGS) (loss1 : Q)
    (variables : list Cifar.variable) (num_replicas_in_sync : Z) : Q :=
  (loss F loss1 variables / inject_Z num_replicas_in_sync)%Q.

(** [vec * FLAGS.fast_weight_lr_multiplier] *)
Definition scale (vec : Cifar.tensor) (multiplier : Q) : Cifar.tensor :=
  {| Cifar.shape := Cifar.shape vec;
     Cifar.values := map (fun x => x * multiplier)%Q (Cifar.values vec) |}.

(** [('alpha' in var.name) or ('gamma' in var.name) or ('bias' in
    var.name)] *)
Definition fast_weight (var : Cifar.variable) : bool :=
  str_contains "alpha" (Cifar.name var)
  || str_contains "gamma" (Cifar.name var)
  || str_contains "bias" (Cifar.name var).

(** "Separate learning rate implementation": the list handed to
    [optimizer.apply_gradients]. *)
Definition grads_to_apply (F : FLAGS) (grads : list Cifar.tensor)
    (variables : list Cifar.variable)
    : list (Cifar.tensor * Cifar.variable) :=
  if negb (Qeq_bool (fast_weight_lr_multiplier F) 1)
  then
    let grads_and_vars := zip grads variables in
    Cifar.for_each grads_and_vars
      (fun grad_list '(vec, var) =>
         if not_bn_and_batch_norm var
         then if fast_weight var
              then grad_list ++ [(scale vec (fast_weight_lr_multiplier F), var)]
              else grad_list ++ [(vec, var)]
         else grad_list ++ [(vec, var)])
      []
  else zip grads variables.

End ImagenetTraining.

(** ** baselines/imagenet/batchensemble.py: the ensemble's prediction in
    the test step *)

Module ImagenetEvaluation.

(** A rank-2 tensor, such as the predictions of a batch, is the list of
    its rows along axis 0: a [list (list Q)]. *)

(** [n] consecutive pieces of [size] rows. *)
Fixpoint chunks {A : Type} (size n : nat) (t : list A) : list (list A) :=
  match n with
  | O => []
  | S n => take size t :: chunks size n (drop size t)
  end.

(** [tf.split(value, num_or_size_splits=num, axis=0)] for an integer
    [num]: [num] pieces of equal size along axis 0.  The framework rejects
    the call ([None]) when the size of the axis is not a multiple of
    [num]. *)
Definition tf_split (value : list (list Q)) (num_or_size_splits : Z)
    : option (list (list (list Q))) :=
  if bool_decide (0 < num_or_size_splits)
     && (Z.of_nat (length value) mod num_or_size_splits =? 0)
  then Some (chunks
               (Z.to_nat (Z.of_nat (length value) / num_or_size_splits))
               (Z.to_nat num_or_size_splits) value)
  else None.

(** Element-wise [a + b] of two tensors of one shape. *)
Definition tensor2_add (a b : list (list Q)) : list (list Q) :=
  zip_with (zip_with Qplus) a b.

(** [tf.add_n(inputs)]; the framework rejects an empty list. *)
Definition tf_add_n (inputs : list (list (list Q))) : option (list (list Q)) :=
  match inputs with
  | [] => None
  | t :: ts => Some (foldl tensor2_add t ts)
  end.

(** [per_predictions] and [ensemble_prediction] of [test_step], in the
    branch [FLAGS.num_models > 1]. *)
Definition ensemble_prediction (predictions : list (list Q)) (num_models : Z)
    : option (list (list Q)) :=
  per_predictions ← tf_split predictions num_models;
  total ← tf_add_n per_predictions;
  Some (map (map (fun x => x / inject_Z num_models)%Q) total).

(** The element in row [j] and column [k] (not part of the script). *)
Definition entry (t : list (list Q)) (j k : nat) : Q :=
  default 0%Q (t !! j ≫= fun row => row !! k).

End ImagenetEvaluation.
(** * Properties *)

(** ** Python values *)

Lemma floordiv_returns (a b : Z) : b <> 0 -> floordiv a b = Returns (a / b).
Proof. intros Hb. unfold floordiv. destruct (decide (b = 0)); congruence. Qed.

Lemma floordiv_raises (a : Z) : floordiv a 0 = Raises ZeroDivisionError.
Proof. reflexivity. Qed.

Lemma size_cons_pos (x : Q) (t : list Q) : (0 < size (x :: t))%Q.
Proof.
  unfold size. replace 0%Q with (inject_Z 0) by reflexivity.
  rewrite <- Zlt_Qlt. simpl length. lia.
Qed.

Lemma divide_no_nan_zero (x : Q) : divide_no_nan x 0 = 0%Q.
Proof. reflexivity. Qed.

Lemma divide_no_nan_nonzero (x y : Q) :
  ~ (y == 0)%Q -> divide_no_nan x y = (x / y)%Q.
Proof.
  intros Hy. unfold divide_no_nan.
  destruct (Qeq_bool y 0) eqn:E; [|reflexivity].
  apply Qeq_bool_eq in E. contradiction.
Qed.

(** ** ImageNet: the learning-rate schedule *)

Section Schedule.
Import Imagenet.

(** A loop that overwrites its accumulator whenever an entry's test
    succeeds ends with the value of the last entry that passed. *)
Lemma fold_where_last {A : Type} (p : A -> bool) (f : A -> Q)
      (l : list A) (acc : Q) :
  fold_left (fun lr e => tf_where (p e) (f e) lr) l acc =
  match last (filter (fun e => p e = true) l) with
  | Some e => f e
  | None => acc
  end.
Proof.
  revert acc. induction l as [|a l IH]; intros acc; [reflexivity|].
  simpl fold_left. rewrite IH. rewrite filter_cons.
  destruct (decide (p a = true)) as [Ha|Ha].
  - rewrite Ha. simpl tf_where. rewrite last_cons.
    destruct (last (filter _ l)); reflexivity.
  - apply not_true_is_false in Ha. rewrite Ha. reflexivity.
Qed.

Lemma fold_left_pointwise {A B : Type} (f g : B -> A -> B)
      (l : list A) (acc : B) :
  (forall b a, f b a = g b a) -> fold_left f l acc = fold_left g l acc.
Proof.
  intros Hfg. revert acc.
  induction l as [|a l IH]; intros acc; simpl; [reflexivity|].
  rewrite Hfg. apply IH.
Qed.

Lemma call_unfold (self : ResnetLearningRateSchedule) (step : Z) :
  let lr_epoch := (inject_Z step / inject_Z (lrs_steps_per_epoch self))%Q in
  call self step =
  match last_started (lrs_num_epochs self) lr_epoch with
  | Some entry => (lrs_initial_learning_rate self * fst entry)%Q
  | None =>
      (lrs_initial_learning_rate self * 1 * lr_epoch
       / inject_Z (scaled_start (lrs_num_epochs self) 5))%Q
  end.
Proof.
  intros lr_epoch. unfold call, last_started. fold lr_epoch.
  simpl hd. cbv iota beta.
  rewrite <- (fold_where_last
                (started (lrs_num_epochs self) lr_epoch)
                (fun entry => (lrs_initial_learning_rate self * fst entry)%Q)).
  apply fold_left_pointwise. intros lr [mult start_epoch]. reflexivity.
Qed.

Lemma scaled_start_mono (n e1 e2 : Z) :
  0 <= n -> e1 <= e2 -> scaled_start n e1 <= scaled_start n e2.
Proof.
  intros Hn He. unfold scaled_start. apply Z.div_le_mono; nia.
Qed.

Lemma lr_epoch_nonneg (step spe : Z) :
  0 < spe -> 0 <= step -> (0 <= inject_Z step / inject_Z spe)%Q.
Proof.
  intros Hspe Hstep. apply Qle_shift_div_l.
  - replace 0%Q with (inject_Z 0) by reflexivity. now rewrite <- Zlt_Qlt.
  - rewrite Qmult_0_l. replace 0%Q with (inject_Z 0) by reflexivity.
    now rewrite <- Zle_Qle.
Qed.

(** Before the first scaled start epoch no entry has started. *)
Lemma before_first_none_started (n : Z) (lr_epoch : Q) :
  (0 <= lr_epoch)%Q ->
  (lr_epoch < inject_Z (scaled_start n 5))%Q ->
  last_started n lr_epoch = None.
Proof.
  intros H0 Hlt.
  assert (Hpos : 0 < scaled_start n 5).
  { rewrite Zlt_Qlt. eapply Qle_lt_trans; eassumption. }
  assert (Hn : 0 <= n).
  { unfold scaled_start in Hpos.
    destruct (Z_lt_le_dec n 0) as [Hneg|]; [|assumption].
    assert (5 * n / 90 <= 0) by (apply Z.div_le_upper_bound; lia). lia. }
  assert (Hnot : forall m e, 5 <= e ->
             started n lr_epoch (m, e) = false).
  { intros m e He. unfold started. simpl snd.
    destruct (Qle_bool _ lr_epoch) eqn:E; [|reflexivity].
    apply Qle_bool_imp_le in E.
    pose proof (scaled_start_mono n 5 e Hn He) as Hm.
    rewrite Zle_Qle in Hm. exfalso.
    apply (Qlt_irrefl lr_epoch).
    eapply Qlt_le_trans; [exact Hlt|]. eapply Qle_trans; eassumption. }
  unfold last_started, _LR_SCHEDULE.
  rewrite !filter_cons, filter_nil.
  rewrite !Hnot by lia.
  repeat (destruct (decide _) as [?|?]; [discriminate|]). reflexivity.
Qed.

(** When no entry has started, the first one has not. *)
Lemma none_started_before_first (n : Z) (lr_epoch : Q) :
  last_started n lr_epoch = None ->
  (lr_epoch < inject_Z (scaled_start n 5))%Q.
Proof.
  unfold last_started, _LR_SCHEDULE. rewrite filter_cons.
  destruct (decide (started n lr_epoch (1%Q, 5) = true)) as [_|Hnot].
  - rewrite last_cons. destruct (last _); discriminate.
  - intros _. apply Qnot_le_lt. intros Hle. apply Hnot.
    unfold started. simpl snd. now apply Qle_bool_iff.
Qed.

End Schedule.

(** C3. For every step of a run (a non-negative step, a positive number of
    steps per epoch), [ResnetLearningRateSchedule.__call__] returns
    [initial_learning_rate * mult] for the last entry [(mult, start_epoch)]
    of [_LR_SCHEDULE] whose scaled start epoch [(start_epoch * num_epochs)
    // 90] is at most [step / steps_per_epoch]; before the scaled start
    epoch of the first entry it returns the linear warmup
    [initial_learning_rate * (step / steps_per_epoch) / warmup_end_epoch];
    and the steps before that epoch are exactly those at which no entry has
    started, so the two cases cover every step. *)
Theorem resnet_schedule_call
    (self : Imagenet.ResnetLearningRateSchedule) (step : Z) :
  0 < Imagenet.lrs_steps_per_epoch self ->
  0 <= step ->
  let lr_epoch :=
    (inject_Z step / inject_Z (Imagenet.lrs_steps_per_epoch self))%Q in
  let init := Imagenet.lrs_initial_learning_rate self in
  let n := Imagenet.lrs_num_epochs self in
  (forall mult start_epoch,
      Imagenet.last_started n lr_epoch = Some (mult, start_epoch) ->
      (Imagenet.call self step == init * mult)%Q) /\
  (forall mult0 start_epoch0,
      head Imagenet._LR_SCHEDULE = Some (mult0, start_epoch0) ->
      let warmup_end_epoch := (start_epoch0 * n) / 90 in
      (lr_epoch < inject_Z warmup_end_epoch)%Q ->
      (Imagenet.call self step
       == init * lr_epoch / inject_Z warmup_end_epoch)%Q) /\
  (forall mult0 start_epoch0,
      head Imagenet._LR_SCHEDULE = Some (mult0, start_epoch0) ->
      Imagenet.last_started n lr_epoch = None <->
      (lr_epoch < inject_Z ((start_epoch0 * n) / 90))%Q).
Proof.
  intros Hspe Hstep lr_epoch init n. split; [|split].
  3: { intros mult0 start_epoch0 Hhd. simpl in Hhd. injection Hhd as <- <-.
       split.
       - apply none_started_before_first.
       - apply before_first_none_started.
         apply lr_epoch_nonneg; assumption. }
  - intros mult start_epoch Hlast.
    pose proof (call_unfold self step) as Hc. cbv zeta in Hc.
    fold lr_epoch n in Hc. rewrite Hc, Hlast. reflexivity.
  - intros mult0 start_epoch0 Hhd warmup_end_epoch Hlt.
    simpl in Hhd. injection Hhd as <- <-.
    pose proof (call_unfold self step) as Hc. cbv zeta in Hc.
    fold lr_epoch n in Hc. rewrite Hc.
    rewrite (before_first_none_started n lr_epoch).
    + fold init. unfold Imagenet.scaled_start. fold warmup_end_epoch.
      rewrite Qmult_1_r. reflexivity.
    + apply lr_epoch_nonneg; assumption.
    + exact Hlt.
Qed.

Definition imagenet_default_schedule : Imagenet.ResnetLearningRateSchedule :=
  {| Imagenet.lrs_steps_per_epoch := 1251;
     Imagenet.lrs_initial_learning_rate := (4 # 10)%Q;
     Imagenet.lrs_num_epochs := 90 |}.

Example call_warmup :
  (Imagenet.call imagenet_default_schedule 2502 == (4 # 10) * 2 / 5)%Q.
Proof. vm_compute. reflexivity. Qed.

Example call_epoch_5 :
  (Imagenet.call imagenet_default_schedule 6255 == 4 # 10)%Q.
Proof. vm_compute. reflexivity. Qed.

Example call_epoch_45 :
  (Imagenet.call imagenet_default_schedule (45 * 1251) == 4 # 100)%Q.
Proof. vm_compute. reflexivity. Qed.

Example call_epoch_80 :
  (Imagenet.call imagenet_default_schedule (80 * 1251) == 4 # 10000)%Q.
Proof. vm_compute. reflexivity. Qed.

Lemma resnet_schedule_call_witness :
  (Imagenet.call imagenet_default_schedule (45 * 1251) == (4 # 10) * (1 # 10))%Q
  /\ (Imagenet.call imagenet_default_schedule 2502
      == (4 # 10) * (inject_Z 2502 / inject_Z 1251) / inject_Z 5)%Q.
Proof.
  assert (Hspe : 0 < Imagenet.lrs_steps_per_epoch imagenet_default_schedule)
    by (simpl; lia).
  split.
  - apply (proj1 (resnet_schedule_call imagenet_default_schedule (45 * 1251)
                    Hspe ltac:(lia)) (1 # 10)%Q 30).
    vm_compute. reflexivity.
  - apply (proj1 (proj2 (resnet_schedule_call imagenet_default_schedule 2502
                           Hspe ltac:(lia))) 1%Q 5).
    + reflexivity.
    + vm_compute. reflexivity.
Defined.

(** ** ImageNet: batch size and steps derived from the flags *)

(** The batch size [main] computes when no division fails. *)
Definition imagenet_batch_size (F : Imagenet.FLAGS) : Z :=
  if Imagenet.version2 F
  then (Imagenet.per_core_batch_size F / Imagenet.num_models F)
       * Imagenet.num_cores F
  else Imagenet.per_core_batch_size F * Imagenet.num_cores F.

(** C8. Whenever the integer divisions of [main] are defined (a non-zero
    ensemble size under version2, a non-zero batch size), the batch size is
    [(per_core_batch_size // num_models) * num_cores] with version2 and
    [per_core_batch_size * num_cores] without; with the [steps_per_epoch]
    flag unset, [steps_per_epoch = 1281167 // batch_size]; and
    [steps_per_eval = 50000 // batch_size]. *)
Theorem imagenet_batch_size_and_steps (F : Imagenet.FLAGS) :
  (Imagenet.version2 F = true -> Imagenet.num_models F <> 0) ->
  imagenet_batch_size F <> 0 ->
  exists s : Imagenet.setup,
    Imagenet.main_setup F = Returns s /\
    (Imagenet.version2 F = true ->
       Imagenet.batch_size s =
       (Imagenet.per_core_batch_size F / Imagenet.num_models F)
       * Imagenet.num_cores F) /\
    (Imagenet.version2 F = false ->
       Imagenet.batch_size s =
       Imagenet.per_core_batch_size F * Imagenet.num_cores F) /\
    (Imagenet.steps_per_epoch F = None ->
       Imagenet.su_steps_per_epoch s = 1281167 / Imagenet.batch_size s) /\
    Imagenet.steps_per_eval s = 50000 / Imagenet.batch_size s.
Proof.
  intros Hnm Hbs. unfold Imagenet.main_setup, imagenet_batch_size in *.
  destruct (Imagenet.version2 F) eqn:Ev.
  - rewrite (floordiv_returns _ _ (Hnm eq_refl)). simpl.
    rewrite !(floordiv_returns _ _ Hbs).
    destruct (Imagenet.steps_per_epoch F) as [s|] eqn:Es;
      [destruct (decide (s = 0))|]; simpl;
      rewrite ?(floordiv_returns _ _ Hbs); simpl;
      eexists; (split; [reflexivity|]); simpl;
      repeat split; try reflexivity; intros; discriminate.
  - simpl. rewrite !(floordiv_returns _ _ Hbs).
    destruct (Imagenet.steps_per_epoch F) as [s|] eqn:Es;
      [destruct (decide (s = 0))|]; simpl;
      rewrite ?(floordiv_returns _ _ Hbs); simpl;
      eexists; (split; [reflexivity|]); simpl;
      repeat split; try reflexivity; intros; discriminate.
Qed.

Definition imagenet_default_flags : Imagenet.FLAGS :=
  {| Imagenet.num_models := 4;
     Imagenet.per_core_batch_size := 128;
     Imagenet.base_learning_rate := (1 # 10)%Q;
     Imagenet.version2 := true;
     Imagenet.num_cores := 8;
     Imagenet.num_epochs := 90;
     Imagenet.steps_per_epoch := None |}.

Example main_setup_version2 :
  exists s, Imagenet.main_setup imagenet_default_flags = Returns s /\
            Imagenet.batch_size s = 256 /\
            Imagenet.su_steps_per_epoch s = 5004 /\
            Imagenet.steps_per_eval s = 195.
Proof. eexists. vm_compute. repeat split. Qed.

Lemma imagenet_batch_size_and_steps_witness :
  exists s : Imagenet.setup,
    Imagenet.main_setup imagenet_default_flags = Returns s /\
    (true = true -> Imagenet.batch_size s = (128 / 4) * 8) /\
    (true = false -> Imagenet.batch_size s = 128 * 8) /\
    (@None Z = None ->
       Imagenet.su_steps_per_epoch s = 1281167 / Imagenet.batch_size s) /\
    Imagenet.steps_per_eval s = 50000 / Imagenet.batch_size s.
Proof.
  apply (imagenet_batch_size_and_steps imagenet_default_flags).
  - intros _. simpl. lia.
  - vm_compute. discriminate.
Defined.

(** A zero ensemble size under version2, or a zero batch size, is a
    [ZeroDivisionError] of the interpreter. *)
Lemma main_setup_zero_division (F : Imagenet.FLAGS) :
  (Imagenet.version2 F = true /\ Imagenet.num_models F = 0) \/
  imagenet_batch_size F = 0 ->
  Imagenet.main_setup F = Raises ZeroDivisionError.
Proof.
  unfold Imagenet.main_setup, imagenet_batch_size.
  intros [[Hv Hnm]|Hbs].
  - rewrite Hv, Hnm. reflexivity.
  - destruct (Imagenet.version2 F).
    + destruct (decide (Imagenet.num_models F = 0)) as [Hnm|Hnm];
        [rewrite Hnm; reflexivity|].
      rewrite (floordiv_returns _ _ Hnm). simpl. rewrite Hbs.
      destruct (Imagenet.steps_per_epoch F) as [s|];
        [destruct (decide (s = 0))|]; reflexivity.
    + simpl. rewrite Hbs.
      destruct (Imagenet.steps_per_epoch F) as [s|];
        [destruct (decide (s = 0))|]; reflexivity.
Qed.

(** ** ImageNet: [safe_mean] *)

(** C9. [safe_mean] returns the sum of the elements divided by their
    number, and returns 0 on a tensor with no elements. *)
Theorem safe_mean_spec :
  (Imagenet.safe_mean [] == 0)%Q /\
  (forall (x : Q) (t : list Q),
      (Imagenet.safe_mean (x :: t)
       == reduce_sum (x :: t) / inject_Z (Z.of_nat (length (x :: t))))%Q).
Proof.
  split; [reflexivity|].
  intros x t. unfold Imagenet.safe_mean.
  rewrite divide_no_nan_nonzero; [reflexivity|].
  intros H0. pose proof (size_cons_pos x t) as Hpos.
  rewrite H0 in Hpos. exact (Qlt_irrefl 0 Hpos).
Qed.

Example safe_mean_three :
  (Imagenet.safe_mean [(1 # 2); (3 # 2); 4]%Q == 2)%Q.
Proof. vm_compute. reflexivity. Qed.

(** ** Strings and sums *)

Lemma prefix_append (a s : string) :
  String.prefix a s = true <-> exists rest, s = a +:+ rest.
Proof.
  revert s. induction a as [|c a IH]; intros s.
  - split; [intros _; exists s; reflexivity|].
    intros _. destruct s; reflexivity.
  - destruct s as [|c' s]; simpl.
    + split; [discriminate|]. intros [rest H]. discriminate.
    + destruct (Ascii.ascii_dec c c') as [->|Hne].
      * rewrite IH. split; intros [rest H]; exists rest.
        -- now rewrite H.
        -- now injection H.
      * split; [discriminate|]. intros [rest H]. injection H as H1 _.
        congruence.
Qed.

Lemma str_contains_empty (needle : string) :
  str_contains needle "" = String.prefix needle "" || false.
Proof. reflexivity. Qed.

Lemma str_contains_String (needle : string) (c : Ascii.ascii) (rest : string) :
  str_contains needle (String c rest) =
  String.prefix needle (String c rest) || str_contains needle rest.
Proof. reflexivity. Qed.

(** [str_contains] decides Python's substring test. *)
Lemma str_contains_spec (needle haystack : string) :
  str_contains needle haystack = true <->
  exists before after, haystack = before +:+ needle +:+ after.
Proof.
  induction haystack as [|c rest IH].
  - rewrite str_contains_empty, orb_false_r, prefix_append. split.
    + intros [after H]. exists "", after. exact H.
    + intros [before [after H]]. destruct before; [|discriminate].
      exists after. exact H.
  - rewrite str_contains_String, orb_true_iff, prefix_append, IH. split.
    + intros [[after H]|[before [after H]]].
      * exists "", after. exact H.
      * exists (String c before), after. simpl. now rewrite H.
    + intros [before [after H]]. destruct before as [|c' before].
      * left. exists after. exact H.
      * right. simpl in H. injection H as _ H. exists before, after. exact H.
Qed.

Lemma reduce_sum_app (a b : list Q) :
  (reduce_sum (a ++ b) == reduce_sum a + reduce_sum b)%Q.
Proof.
  induction a as [|x a IH]; simpl.
  - now rewrite Qplus_0_l.
  - fold (reduce_sum (a ++ b)). fold (reduce_sum a). rewrite IH. ring.
Qed.

(** Sum of the squares of a tensor's elements. *)
Definition sum_of_squares (t : list Q) : Q :=
  reduce_sum (map (fun x => x * x)%Q t).

Lemma sum_of_squares_app (a b : list Q) :
  (sum_of_squares (a ++ b) == sum_of_squares a + sum_of_squares b)%Q.
Proof. unfold sum_of_squares. rewrite map_app. apply reduce_sum_app. Qed.

(** ** CIFAR: the training step *)

Section TrainStepFacts.
Import Cifar.

Variable fw : framework.
Variable F : FLAGS.

(** *** KL annealing *)

Lemma int64_small (z : Z) : - 2 ^ 63 <= z < 2 ^ 63 -> int64 z = z.
Proof. intros Hz. unfold int64. rewrite Z.mod_small; lia. Qed.

Lemma inject_Z_pos (z : Z) : 0 < z -> (0 < inject_Z z)%Q.
Proof.
  intros Hz. replace 0%Q with (inject_Z 0) by reflexivity.
  now rewrite <- Zlt_Qlt.
Qed.

Lemma kl_scale_exact (steps_per_epoch g : Z) :
  - 2 ^ 63 <= g < 2 ^ 63 - 1 ->
  kl_scale F steps_per_epoch g =
  Qmin 1 (inject_Z (g + 1)
          / inject_Z (steps_per_epoch * kl_annealing_epochs F)).
Proof. intros Hg. unfold kl_scale. rewrite int64_small by lia. reflexivity. Qed.

Lemma ratio_mono (a b n : Z) :
  0 < n -> a <= b -> (inject_Z a / inject_Z n <= inject_Z b / inject_Z n)%Q.
Proof.
  intros Hn Hab. unfold Qdiv. apply Qmult_le_compat_r.
  - now rewrite <- Zle_Qle.
  - apply Qlt_le_weak, Qinv_lt_0_compat, inject_Z_pos, Hn.
Qed.

Lemma ratio_ge_one (a n : Z) :
  0 < n -> n <= a -> (1 <= inject_Z a / inject_Z n)%Q.
Proof.
  intros Hn Hna. apply Qle_shift_div_l; [now apply inject_Z_pos|].
  rewrite Qmult_1_l. now rewrite <- Zle_Qle.
Qed.

(** *** The L2 penalty *)

(** What the L2 penalty adds for one variable. *)
Definition l2_contribution (var : variable) : Q :=
  if l2_selected var then sum_of_squares (values (value var)) else 0%Q.

Lemma sum_of_squares_filtered (variables : list variable) :
  (sum_of_squares (tf_concat (filtered_variables variables))
   == reduce_sum (map l2_contribution variables))%Q.
Proof.
  unfold filtered_variables, tf_concat.
  induction variables as [|var variables IH]; [reflexivity|].
  simpl List.filter. simpl map. unfold l2_contribution at 1.
  destruct (l2_selected var).
  - simpl. rewrite sum_of_squares_app, IH. reflexivity.
  - rewrite IH. simpl. fold (reduce_sum (map l2_contribution variables)).
    ring.
Qed.

End TrainStepFacts.

(** C2. With a positive annealing horizon [steps_per_epoch *
    kl_annealing_epochs], and for global steps whose increment stays within
    [tf.int64], [kl_scale] is [min(1, (global_step + 1) / (steps_per_epoch *
    kl_annealing_epochs))]; it is non-decreasing in [global_step], never
    exceeds 1, and is exactly 1 from [global_step = steps_per_epoch *
    kl_annealing_epochs - 1] on. *)
Theorem kl_scale_annealing (F : Cifar.FLAGS) (steps_per_epoch : Z) :
  0 < steps_per_epoch * Cifar.kl_annealing_epochs F ->
  let horizon := steps_per_epoch * Cifar.kl_annealing_epochs F in
  (forall g, - 2 ^ 63 <= g < 2 ^ 63 - 1 ->
     (Cifar.kl_scale F steps_per_epoch g
      == Qmin 1 (inject_Z (g + 1) / inject_Z horizon))%Q) /\
  (forall g1 g2, - 2 ^ 63 <= g1 -> g1 <= g2 -> g2 < 2 ^ 63 - 1 ->
     (Cifar.kl_scale F steps_per_epoch g1
      <= Cifar.kl_scale F steps_per_epoch g2)%Q) /\
  (forall g, (Cifar.kl_scale F steps_per_epoch g <= 1)%Q) /\
  (forall g, - 2 ^ 63 <= g < 2 ^ 63 - 1 -> horizon - 1 <= g ->
     (Cifar.kl_scale F steps_per_epoch g == 1)%Q).
Proof.
  intros Hpos horizon. repeat split.
  - intros g Hg. rewrite kl_scale_exact by exact Hg. reflexivity.
  - intros g1 g2 Hlo H12 Hhi.
    rewrite !kl_scale_exact by lia.
    apply Q.min_le_compat_l. apply ratio_mono; [exact Hpos|lia].
  - intros g. unfold Cifar.kl_scale. apply Q.le_min_l.
  - intros g Hg Hge. rewrite kl_scale_exact by exact Hg.
    apply Q.min_l. apply ratio_ge_one; [exact Hpos|]. unfold horizon in Hge. lia.
Qed.

Definition cifar_default_flags : Cifar.FLAGS :=
  {| Cifar.per_core_batch_size := 64;
     Cifar.base_learning_rate := (1 # 10)%Q;
     Cifar.lr_warmup_epochs := 1;
     Cifar.lr_decay_ratio := (2 # 10)%Q;
     Cifar.lr_decay_epochs := [60; 120; 160];
     Cifar.kl_annealing_epochs := 200;
     Cifar.l2 := (4 # 10000)%Q;
     Cifar.prior_stddev := (1 # 10)%Q;
     Cifar.stddev_init := (1 # 1000)%Q;
     Cifar.corruptions_interval := 250;
     Cifar.checkpoint_interval := 25;
     Cifar.num_bins := 15;
     Cifar.num_eval_samples := 5;
     Cifar.train_epochs := 250;
     Cifar.use_bfloat16 := false;
     Cifar.num_cores := 8 |}.

Example kl_scale_first_step :
  (Cifar.kl_scale cifar_default_flags 97 0 == 1 # 19400)%Q.
Proof. vm_compute. reflexivity. Qed.

Example kl_scale_halfway :
  (Cifar.kl_scale cifar_default_flags 97 9699 == 1 # 2)%Q.
Proof. vm_compute. reflexivity. Qed.

Example kl_scale_saturated :
  (Cifar.kl_scale cifar_default_flags 97 19399 == 1)%Q
  /\ (Cifar.kl_scale cifar_default_flags 97 24000 == 1)%Q.
Proof. split; vm_compute; reflexivity. Qed.

Lemma kl_scale_annealing_witness :
  (Cifar.kl_scale cifar_default_flags 97 100
   <= Cifar.kl_scale cifar_default_flags 97 5000)%Q
  /\ (Cifar.kl_scale cifar_default_flags 97 19399 == 1)%Q.
Proof.
  assert (Hpos : 0 < 97 * Cifar.kl_annealing_epochs cifar_default_flags)
    by (simpl; lia).
  pose proof (kl_scale_annealing cifar_default_flags 97 Hpos) as H.
  cbv zeta in H. destruct H as (_ & Hmono & _ & Hone). split.
  - apply Hmono; lia.
  - apply Hone; simpl; lia.
Defined.

(** *** KL annealing in rounded arithmetic

    The order properties of [kl_scale] do not depend on the arithmetic being
    exact.  [kl_scale_rounded] is the same computation with the cast to
    [tf.float32], the conversion of the divisor and the division each
    followed by a rounding [rnd]; all that is asked of [rnd] is that it is
    monotone and leaves 1 alone, as rounding to nearest does. *)

Section RoundedAnnealing.

Variable rnd : Q -> Q.
Hypothesis rnd_monotone : forall x y, (x <= y)%Q -> (rnd x <= rnd y)%Q.
Hypothesis rnd_one : (rnd 1 == 1)%Q.

Variable F : Cifar.FLAGS.
Variable steps_per_epoch : Z.
Hypothesis horizon_positive :
  0 < steps_per_epoch * Cifar.kl_annealing_epochs F.

Definition kl_scale_rounded (global_step : Z) : Q :=
  let kl_scale := rnd (inject_Z (Cifar.int64 (global_step + 1))) in
  let kl_scale :=
    rnd (kl_scale
         / rnd (inject_Z (steps_per_epoch * Cifar.kl_annealing_epochs F)))%Q
  in
  Qmin 1 kl_scale.

Lemma rounded_horizon_ge_one :
  (1 <= rnd (inject_Z (steps_per_epoch * Cifar.kl_annealing_epochs F)))%Q.
Proof.
  rewrite <- rnd_one. apply rnd_monotone.
  replace 1%Q with (inject_Z 1) by reflexivity. rewrite <- Zle_Qle. lia.
Qed.

Lemma kl_scale_rounded_monotone (g1 g2 : Z) :
  - 2 ^ 63 <= g1 -> g1 <= g2 -> g2 < 2 ^ 63 - 1 ->
  (kl_scale_rounded g1 <= kl_scale_rounded g2)%Q.
Proof.
  intros Hlo H12 Hhi. unfold kl_scale_rounded.
  rewrite !int64_small by lia.
  apply Q.min_le_compat_l, rnd_monotone. unfold Qdiv.
  apply Qmult_le_compat_r.
  - apply rnd_monotone. rewrite <- Zle_Qle. lia.
  - apply Qlt_le_weak, Qinv_lt_0_compat.
    eapply Qlt_le_trans; [|apply rounded_horizon_ge_one]. reflexivity.
Qed.

Lemma kl_scale_rounded_le_one (g : Z) : (kl_scale_rounded g <= 1)%Q.
Proof. apply Q.le_min_l. Qed.

Lemma kl_scale_rounded_saturates (g : Z) :
  - 2 ^ 63 <= g < 2 ^ 63 - 1 ->
  steps_per_epoch * Cifar.kl_annealing_epochs F - 1 <= g ->
  (kl_scale_rounded g == 1)%Q.
Proof.
  intros Hg Hge. unfold kl_scale_rounded. rewrite int64_small by lia.
  apply Q.min_l. rewrite <- rnd_one at 1. apply rnd_monotone.
  apply Qle_shift_div_l.
  - eapply Qlt_le_trans; [|apply rounded_horizon_ge_one]. reflexivity.
  - rewrite Qmult_1_l. apply rnd_monotone. rewrite <- Zle_Qle. lia.
Qed.

End RoundedAnnealing.

(** With no rounding at all this is [kl_scale]. *)
Lemma kl_scale_rounded_exact (F : Cifar.FLAGS) (steps_per_epoch g : Z) :
  kl_scale_rounded (fun x => x) F steps_per_epoch g
  = Cifar.kl_scale F steps_per_epoch g.
Proof. reflexivity. Qed.

(** C5. The L2 penalty of the training step is [FLAGS.l2 * 2 * l2_loss]
    of exactly the trainable variables whose name contains ['batch_norm']
    or contains ['bias']: a variable is selected if and only if its name
    has one of the two substrings, the penalty is [FLAGS.l2 * 2] times half
    the sum of the squares of the selected variables' elements, and the
    other variables contribute nothing. *)
Theorem l2_penalty_selected_variables
    (F : Cifar.FLAGS) (variables : list Cifar.variable) :
  (forall var : Cifar.variable,
      Cifar.l2_selected var = true <->
      (exists before after,
          Cifar.name var = before +:+ "batch_norm" +:+ after) \/
      (exists before after,
          Cifar.name var = before +:+ "bias" +:+ after)) /\
  Cifar.l2_loss F variables =
    (Cifar.l2 F * 2
     * Cifar.tf_nn_l2_loss
         (concat (map (fun var => Cifar.values (Cifar.value var))
                      (List.filter Cifar.l2_selected variables))))%Q /\
  (Cifar.l2_loss F variables
   == Cifar.l2 F * 2 * (reduce_sum (map l2_contribution variables) / 2))%Q.
Proof.
  split; [|split].
  - intros var. unfold Cifar.l2_selected.
    rewrite orb_true_iff, !str_contains_spec. reflexivity.
  - reflexivity.
  - unfold Cifar.l2_loss, Cifar.tf_nn_l2_loss.
    pose proof (sum_of_squares_filtered variables) as H.
    unfold sum_of_squares in H at 1. rewrite H. reflexivity.
Qed.

Definition example_variables : list Cifar.variable :=
  [ {| Cifar.name := "conv2d_flipout/kernel_posterior_loc:0";
       Cifar.value := {| Cifar.shape := [2]; Cifar.values := [5; 7]%Q |} |};
    {| Cifar.name := "batch_normalization/gamma:0";
       Cifar.value := {| Cifar.shape := [2]; Cifar.values := [1; 2]%Q |} |};
    {| Cifar.name := "dense_flipout/bias_posterior_loc:0";
       Cifar.value := {| Cifar.shape := [1]; Cifar.values := [3]%Q |} |} ].

Example l2_loss_example :
  (Cifar.l2_loss cifar_default_flags example_variables
   == (4 # 10000) * 2 * ((1 + 4 + 9) / 2))%Q.
Proof. vm_compute. reflexivity. Qed.

(** A small concrete framework on which the definitions can be run: a
    "network" whose logits are its first variable, a cross-entropy that
    returns the logits' values, and plain gradient descent on the
    variables' values. *)
Definition reference_framework : Cifar.framework :=
  {| Cifar.model := fun variables images training pass =>
       match variables with
       | var :: _ => Cifar.value var
       | [] => images
       end;
     Cifar.model_losses := fun variables =>
       map (fun var => reduce_sum (Cifar.values (Cifar.value var))) variables;
     Cifar.sparse_categorical_crossentropy := fun labels predictions _ =>
       Cifar.values predictions;
     Cifar.softmax := fun t => t;
     Cifar.stack := fun ts =>
       {| Cifar.shape := [Z.of_nat (length ts)];
          Cifar.values := concat (map Cifar.values ts) |};
     Cifar.reduce_mean_axis0 := fun t => t;
     Cifar.cast_float32 := fun t => t;
     Cifar.gradient := fun target variables =>
       map (fun var => Cifar.scalar (target [var])) variables;
     Cifar.apply_gradients := fun opt grads_and_vars =>
       ({| Cifar.iterations := Cifar.iterations opt + 1;
           Cifar.slots := Cifar.slots opt |},
        map snd grads_and_vars);
     Cifar.num_replicas_in_sync := 8;
     Cifar.kl_divergence := fun d prior =>
       reduce_sum (Cifar.values (Cifar.mean d));
     Cifar.metric_result := fun m =>
       inject_Z (Z.of_nat (length (Cifar.updates m)));
     Cifar.aggregate_corrupt_metrics := fun corrupt_metrics _ _ =>
       (corrupt_metrics, ∅) |}.

Definition reference_dataset (i : nat) : Cifar.tensor * list Z :=
  ({| Cifar.shape := [1]; Cifar.values := [inject_Z (Z.of_nat i)] |}, [0]).

Definition reference_environment : Cifar.environment :=
  {| Cifar.train_dataset := reference_dataset;
     Cifar.clean_test_dataset := reference_dataset;
     Cifar.corruption_types := ["gaussian_noise"; "fog"];
     Cifar.max_intensity := 2;
     Cifar.load_c_input_fn := fun _ _ => reference_dataset |}.

Definition reference_state : Cifar.state :=
  Cifar.initial_state cifar_default_flags reference_environment 10
    example_variables {| Cifar.iterations := 0; Cifar.slots := [] |}.

Section TrainStepLoss.
Import Cifar.

Variable fw : framework.
Variable F : FLAGS.
Variable steps_per_epoch : Z.

Lemma fold_left_Qplus_acc (l : list Q) (acc : Q) :
  (fold_left Qplus l acc == acc + reduce_sum l)%Q.
Proof.
  revert acc. induction l as [|x l IH]; intros acc; simpl.
  - ring.
  - rewrite IH. fold (reduce_sum l). ring.
Qed.

(** Python's left-to-right [sum] is the sum of the elements. *)
Lemma py_sum_reduce_sum (l : list Q) : (py_sum l == reduce_sum l)%Q.
Proof. unfold py_sum. rewrite fold_left_Qplus_acc. ring. Qed.

Lemma update_state_lookup (key key' : string) (u : update)
    (ms : gmap string metric) :
  update_state key u ms !! key' =
  if decide (key = key')
  then metric_update_state u <$> ms !! key'
  else ms !! key'.
Proof.
  unfold update_state. rewrite lookup_alter.
  destruct (decide (key = key')) as [->|]; reflexivity.
Qed.

Lemma train_step_fn_loss_metric (st : state) (images : tensor)
    (labels : list Z) :
  metrics (train_step_fn fw F steps_per_epoch st (images, labels))
    !! "train/loss" =
  metric_update_state
    (Scalar (loss fw F steps_per_epoch (trainable_variables st) images labels
               (forward_passes st) (global_step st)))
    <$> metrics st !! "train/loss".
Proof.
  unfold train_step_fn.
  destruct (apply_gradients fw _ _) as [optimizer' variables'].
  cbn [metrics]. rewrite !update_state_lookup.
  repeat (destruct (decide _) as [Heq|_]; [discriminate Heq|]).
  destruct (decide _) as [_|Hne]; [reflexivity|contradiction].
Qed.

Lemma train_step_fn_applies_gradient (st : state) (images : tensor)
    (labels : list Z) :
  let st' := train_step_fn fw F steps_per_epoch st (images, labels) in
  (optimizer st', trainable_variables st') =
  apply_gradients fw (optimizer st)
    (zip (gradient fw
            (fun variables =>
               scaled_loss fw F steps_per_epoch variables images labels
                 (forward_passes st) (global_step st))
            (trainable_variables st))
         (trainable_variables st)).
Proof.
  cbv zeta. unfold train_step_fn.
  destruct (apply_gradients fw _ _) as [optimizer' variables'].
  reflexivity.
Qed.

End TrainStepLoss.

(** C1. In the per-replica training step, the training loss is the mean
    sparse-categorical cross-entropy of the batch, plus the L2 penalty,
    plus [kl_scale] times the sum of the model's regularization losses;
    this is the value the ['train/loss'] metric receives; and the optimizer
    applies the gradient, with respect to the trainable variables, of this
    loss divided by [strategy.num_replicas_in_sync]. *)
Theorem train_step_loss_composition
    (fw : Cifar.framework) (F : Cifar.FLAGS) (steps_per_epoch : Z)
    (st : Cifar.state) (images : Cifar.tensor) (labels : list Z) :
  let variables := Cifar.trainable_variables st in
  let pass := Cifar.forward_passes st in
  let step := Cifar.global_step st in
  let training_loss variables :=
    Cifar.loss fw F steps_per_epoch variables images labels pass step in
  let st' := Cifar.train_step_fn fw F steps_per_epoch st (images, labels) in
  (forall variables,
     (training_loss variables
      == reduce_mean
           (Cifar.sparse_categorical_crossentropy fw labels
              (Cifar.train_logits fw F variables images pass) true)
         + Cifar.l2_loss F variables
         + Cifar.kl_scale F steps_per_epoch step
           * reduce_sum (Cifar.model_losses fw variables))%Q) /\
  Cifar.metrics st' !! "train/loss" =
    (Cifar.metric_update_state (Cifar.Scalar (training_loss variables))
       <$> Cifar.metrics st !! "train/loss") /\
  (Cifar.optimizer st', Cifar.trainable_variables st') =
    Cifar.apply_gradients fw (Cifar.optimizer st)
      (zip (Cifar.gradient fw
              (fun variables =>
                 (training_loss variables
                  / inject_Z (Cifar.num_replicas_in_sync fw))%Q)
              variables)
           variables).
Proof.
  intros variables pass step training_loss st'. split; [|split].
  - intros vars. unfold training_loss, Cifar.loss, Cifar.kl_loss, Cifar.kl,
      Cifar.negative_log_likelihood.
    rewrite py_sum_reduce_sum. reflexivity.
  - apply train_step_fn_loss_metric.
  - apply train_step_fn_applies_gradient.
Qed.

Example train_step_loss_example :
  Cifar.metrics
    (Cifar.train_step_fn reference_framework cifar_default_flags 97
       reference_state (reference_dataset 0))
    !! "train/loss" =
  Some {| Cifar.kind := Cifar.Mean;
          Cifar.updates :=
            [Cifar.Scalar
               (Cifar.loss reference_framework cifar_default_flags 97
                  example_variables (reference_dataset 0).1 [0] 0 0)] |}.
Proof. vm_compute. reflexivity. Qed.

(** ** CIFAR: the network and the values derived from the flags *)

Section Network.
Import Cifar.

Lemma truediv_one_returns (dataset_size : Z) :
  dataset_size <> 0 ->
  truediv_one dataset_size = Returns (1 / inject_Z dataset_size)%Q.
Proof.
  intros H. unfold truediv_one.
  destruct (decide (dataset_size = 0)); [contradiction|reflexivity].
Qed.

Lemma basic_block_returns (inputs : keras_tensor) (filters strides : Z)
    (prior_stddev : Q) (dataset_size : Z) (stddev_init : Q) :
  dataset_size <> 0 ->
  exists x, basic_block inputs filters strides prior_stddev dataset_size
              stddev_init = Returns x.
Proof.
  intros H. unfold basic_block. rewrite !(truediv_one_returns _ H).
  simpl. destruct (negb _); simpl; eexists; reflexivity.
Qed.

Lemma repeat_result_returns {A : Type} (n : nat) (body : A -> result A) :
  (forall x, exists y, body x = Returns y) ->
  forall x, exists y, repeat_result n body x = Returns y.
Proof.
  intros Hbody. induction n as [|n IH]; intros x; simpl.
  - eexists; reflexivity.
  - destruct (Hbody x) as [x' ->]. simpl. apply IH.
Qed.

Lemma group_returns (inputs : keras_tensor) (filters strides num_blocks : Z)
    (prior_stddev : Q) (dataset_size : Z) (stddev_init : Q) :
  dataset_size <> 0 ->
  exists x, group inputs filters strides num_blocks prior_stddev dataset_size
              stddev_init = Returns x.
Proof.
  intros H. unfold group.
  destruct (basic_block_returns inputs filters strides prior_stddev
              dataset_size stddev_init H) as [x ->].
  simpl. apply repeat_result_returns. intros y.
  apply basic_block_returns, H.
Qed.

(** What [wide_resnet] does, by cases on its two failure conditions. *)
Lemma wide_resnet_cases (input_shape : list Z)
    (depth width_multiplier num_classes : Z)
    (prior_stddev : Q) (dataset_size : Z) (stddev_init : Q) :
  let r := wide_resnet input_shape depth width_multiplier num_classes
             prior_stddev dataset_size stddev_init in
  if decide ((depth - 4) mod 6 = 0)
  then if decide (dataset_size = 0)
       then r = Raises ZeroDivisionError
       else exists net, r = Returns net
  else r = Raises (ValueError "depth should be 6n+4 (e.g., 16, 22, 28, 40).").
Proof.
  cbv zeta. unfold wide_resnet.
  destruct (decide ((depth - 4) mod 6 = 0)) as [Hd|Hd].
  - rewrite Hd. simpl negb. cbv iota.
    destruct (decide (dataset_size = 0)) as [Hs|Hs].
    + rewrite Hs. reflexivity.
    + rewrite !(truediv_one_returns _ Hs). simpl.
      repeat match goal with
      | |- context [group ?i ?f ?s ?n ?p dataset_size ?si] =>
          destruct (group_returns i f s n p dataset_size si Hs) as [? ->];
          simpl
      end.
      eexists; reflexivity.
  - apply Z.eqb_neq in Hd. rewrite Hd. reflexivity.
Qed.

Lemma wide_resnet_28_returns (input_shape : list Z)
    (width_multiplier num_classes : Z)
    (prior_stddev : Q) (dataset_size : Z) (stddev_init : Q) :
  dataset_size <> 0 ->
  exists net, wide_resnet input_shape 28 width_multiplier num_classes
                prior_stddev dataset_size stddev_init = Returns net.
Proof.
  intros Hs.
  pose proof (wide_resnet_cases input_shape 28 width_multiplier num_classes
                prior_stddev dataset_size stddev_init) as H.
  cbv zeta in H. change ((28 - 4) mod 6) with 0 in H.
  destruct (decide (0 = 0)); [|contradiction].
  destruct (decide (dataset_size = 0)); [contradiction|exact H].
Qed.

End Network.

Example wide_resnet_16_2_output :
  exists net,
    Cifar.wide_resnet [32; 32; 3] 16 2 10 (1 # 10) 50000 (1 # 1000)
    = Returns net /\ Cifar.static_shape net = [10].
Proof. eexists. split; vm_compute; reflexivity. Qed.

(** C6. Whenever [main] gets as far as building the schedule (a non-zero
    total batch size, a non-empty training set), the base learning rate it
    passes to the schedule is the [base_learning_rate] flag times the ratio
    of the total batch size [per_core_batch_size * num_cores] to 128. *)
Theorem cifar_base_learning_rate
    (F : Cifar.FLAGS) (ds_info : Cifar.dataset_info) :
  Cifar.per_core_batch_size F * Cifar.num_cores F <> 0 ->
  Cifar.train_num_examples ds_info <> 0 ->
  exists s : Cifar.setup,
    Cifar.main_setup F ds_info = Returns s /\
    Cifar.batch_size s = Cifar.per_core_batch_size F * Cifar.num_cores F /\
    (Cifar.lrs_base_lr (Cifar.lr_schedule s)
     == Cifar.base_learning_rate F
        * (inject_Z (Cifar.batch_size s) / 128))%Q.
Proof.
  intros Hbs Hds. unfold Cifar.main_setup.
  rewrite !(floordiv_returns _ _ Hbs). simpl.
  destruct (wide_resnet_28_returns (Cifar.image_shape ds_info) 10
              (Cifar.label_num_classes ds_info) (Cifar.prior_stddev F)
              (Cifar.train_num_examples ds_info) (Cifar.stddev_init F) Hds)
    as [net ->].
  simpl. eexists. split; [reflexivity|]. simpl. split; [reflexivity|].
  field.
Qed.

Definition cifar10_info : Cifar.dataset_info :=
  {| Cifar.train_num_examples := 50000;
     Cifar.test_num_examples := 10000;
     Cifar.label_num_classes := 10;
     Cifar.image_shape := [32; 32; 3] |}.

Example main_setup_defaults :
  exists s, Cifar.main_setup cifar_default_flags cifar10_info = Returns s /\
            Cifar.batch_size s = 512 /\
            Cifar.steps_per_epoch s = 97 /\
            Cifar.steps_per_eval s = 19 /\
            (Cifar.lrs_base_lr (Cifar.lr_schedule s) == 4 # 10)%Q /\
            Cifar.lrs_decay_epochs (Cifar.lr_schedule s) = [75; 150; 200].
Proof. eexists. vm_compute. repeat split. Qed.

Lemma cifar_base_learning_rate_witness :
  exists s : Cifar.setup,
    Cifar.main_setup cifar_default_flags cifar10_info = Returns s /\
    Cifar.batch_size s = 64 * 8 /\
    (Cifar.lrs_base_lr (Cifar.lr_schedule s)
     == (1 # 10) * (inject_Z (Cifar.batch_size s) / 128))%Q.
Proof.
  apply (cifar_base_learning_rate cifar_default_flags cifar10_info).
  - vm_compute. discriminate.
  - vm_compute. discriminate.
Defined.

(** ** CIFAR: the errors the script raises itself *)

(** [wide_resnet] called with a depth that is not of the form 6n+4, and the
    regularizer called on a plain tensor, each raise the script's own
    [ValueError]. *)
Lemma own_value_errors_raised :
  Cifar.wide_resnet [32; 32; 3] 30 10 10 (1 # 10) 50000 (1 # 1000)
  = Raises (ValueError "depth should be 6n+4 (e.g., 16, 22, 28, 40).")
  /\ Cifar.regularizer_call reference_framework
       {| Cifar.stddev := 1 # 10; Cifar.scale_factor := 1 # 50000 |}
       (Cifar.Tensor (Cifar.scalar 0))
     = Raises (ValueError "Input must be an ed.RandomVariable.").
Proof. split; reflexivity. Qed.

Section OwnErrors.
Import Cifar.

Lemma regularizer_call_value_error (fw : framework)
    (self : NormalKLDivergenceWithTiedMean) (x : pyobject) :
  (exists msg, regularizer_call fw self x = Raises (ValueError msg)) <->
  (forall d, x <> RandomVariable d).
Proof.
  destruct x as [d|t]; simpl; split.
  - intros [msg H]. discriminate.
  - intros H. exfalso. exact (H d eq_refl).
  - intros _ d. discriminate.
  - intros _. eexists. reflexivity.
Qed.

Lemma wide_resnet_value_error (input_shape : list Z)
    (depth width_multiplier num_classes : Z)
    (prior_stddev : Q) (dataset_size : Z) (stddev_init : Q) :
  (exists msg,
      wide_resnet input_shape depth width_multiplier num_classes
        prior_stddev dataset_size stddev_init = Raises (ValueError msg)) <->
  (depth - 4) mod 6 <> 0.
Proof.
  pose proof (wide_resnet_cases input_shape depth width_multiplier
                num_classes prior_stddev dataset_size stddev_init) as H.
  cbv zeta in H.
  destruct (decide ((depth - 4) mod 6 = 0)) as [Hd|Hd].
  - split; [|contradiction]. intros [msg Hr]. exfalso.
    destruct (decide (dataset_size = 0)).
    + rewrite H in Hr. discriminate.
    + destruct H as [net H]. rewrite H in Hr. discriminate.
  - split; [intros _; exact Hd|]. intros _. eexists. exact H.
Qed.

(** [main] builds the network with depth 28, so its own call of
    [wide_resnet] passes the guard: the only error the set-up in [main] can
    end in is the interpreter's [ZeroDivisionError]. *)
Lemma main_setup_no_value_error (F : FLAGS) (ds_info : dataset_info)
    (msg : string) :
  main_setup F ds_info <> Raises (ValueError msg).
Proof.
  assert (Hdiv : forall a b m, floordiv a b <> Raises (ValueError m)).
  { intros a b m. unfold floordiv. destruct (decide _); discriminate. }
  unfold main_setup.
  destruct (floordiv (train_num_examples ds_info) _) as [spe|e] eqn:E1;
    simpl; [|intros Heq; injection Heq as ->; exact (Hdiv _ _ _ E1)].
  destruct (floordiv (test_num_examples ds_info) _) as [spv|e] eqn:E2;
    simpl; [|intros Heq; injection Heq as ->; exact (Hdiv _ _ _ E2)].
  pose proof (wide_resnet_cases (image_shape ds_info) 28 10
                (label_num_classes ds_info) (prior_stddev F)
                (train_num_examples ds_info) (stddev_init F)) as H.
  cbv zeta in H. change ((28 - 4) mod 6) with 0 in H.
  destruct (decide (0 = 0)); [|contradiction].
  destruct (decide (train_num_examples ds_info = 0)).
  - rewrite H. simpl. discriminate.
  - destruct H as [net ->]. simpl. discriminate.
Qed.

End OwnErrors.

(** C4 (as amended). The script raises its own error in two places, both
    [ValueError] guards: [NormalKLDivergenceWithTiedMean.__call__] raises it
    exactly when its input is not an [ed.RandomVariable], and [wide_resnet]
    raises it exactly when [(depth - 4) % 6 != 0]; the call [main] itself
    makes (depth 28) never does.  There is no exception class of the
    script's own and no recovery: a raised error ends the computation. *)
Theorem own_errors_are_value_error_guards (fw : Cifar.framework) :
  (forall (self : Cifar.NormalKLDivergenceWithTiedMean) (x : Cifar.pyobject),
      (exists msg,
          Cifar.regularizer_call fw self x = Raises (ValueError msg)) <->
      (forall d, x <> Cifar.RandomVariable d)) /\
  (forall (input_shape : list Z) (depth width_multiplier num_classes : Z)
          (prior_stddev : Q) (dataset_size : Z) (stddev_init : Q),
      (exists msg,
          Cifar.wide_resnet input_shape depth width_multiplier num_classes
            prior_stddev dataset_size stddev_init
          = Raises (ValueError msg)) <->
      (depth - 4) mod 6 <> 0) /\
  (forall (F : Cifar.FLAGS) (ds_info : Cifar.dataset_info) (msg : string),
      Cifar.main_setup F ds_info <> Raises (ValueError msg)).
Proof.
  split; [|split].
  - apply regularizer_call_value_error.
  - apply wide_resnet_value_error.
  - apply main_setup_no_value_error.
Qed.

(** ** CIFAR: the epoch loop *)

Section EpochLoop.
Import Cifar.

Variable fw : framework.
Variable F : FLAGS.
Variable env : environment.
Variable steps_per_epoch : Z.
Variable steps_per_eval : Z.

(** A loop keeps whatever each of its iterations keeps. *)
Lemma for_each_preserves {A S B : Type} (proj : S -> B) (xs : list A)
    (body : S -> A -> S) (s : S) :
  (forall s a, proj (body s a) = proj s) ->
  proj (for_each xs body s) = proj s.
Proof.
  intros Hbody. unfold for_each. revert s.
  induction xs as [|x xs IH]; intros s; simpl; [reflexivity|].
  rewrite IH. apply Hbody.
Qed.

Lemma for_each_cons {A S : Type} (x : A) (xs : list A) (body : S -> A -> S)
    (s : S) :
  for_each (x :: xs) body s = for_each xs body (body s x).
Proof. reflexivity. Qed.

Lemma for_each_app {A S : Type} (xs ys : list A) (body : S -> A -> S)
    (s : S) :
  for_each (xs ++ ys) body s = for_each ys body (for_each xs body s).
Proof. unfold for_each. apply foldl_app. Qed.

Lemma train_step_checkpoints (st : state) :
  checkpoints (train_step fw F env steps_per_epoch st) = checkpoints st.
Proof.
  unfold train_step, next_train, train_step_fn.
  destruct (train_dataset env _) as [images labels]. cbn [optimizer].
  destruct (apply_gradients fw _ _). reflexivity.
Qed.

Lemma test_step_checkpoints (dataset_name : string)
    (test_dataset : nat -> tensor * list Z) (st : state) (step : Z) :
  checkpoints (test_step fw F dataset_name test_dataset st step)
  = checkpoints st.
Proof.
  unfold test_step, test_step_fn.
  destruct (test_dataset _) as [images labels]. reflexivity.
Qed.

Lemma train_epoch_checkpoints (st : state) :
  checkpoints (train_epoch fw F env steps_per_epoch st) = checkpoints st.
Proof.
  unfold train_epoch. apply for_each_preserves.
  intros s _. apply train_step_checkpoints.
Qed.

Lemma evaluate_checkpoints (epoch : Z) (st : state) :
  checkpoints (evaluate fw F env steps_per_eval epoch st) = checkpoints st.
Proof.
  unfold evaluate. apply for_each_preserves.
  intros s [dataset_name test_dataset]. apply for_each_preserves.
  intros s' step. apply test_step_checkpoints.
Qed.

Lemma checkpoint_due_iff (epoch : Z) :
  checkpoint_due F epoch = true <->
  0 < checkpoint_interval F /\ (epoch + 1) mod checkpoint_interval F = 0.
Proof.
  unfold checkpoint_due.
  rewrite andb_true_iff, bool_decide_eq_true, Z.eqb_eq. reflexivity.
Qed.

(** The checkpoints written in the course of one epoch. *)
Lemma run_epoch_checkpoints (st : state) (epoch : Z) :
  exists saved,
    checkpoints (run_epoch fw F env steps_per_epoch steps_per_eval st epoch)
    = checkpoints st ++ saved /\
    ck_epoch <$> saved = if checkpoint_due F epoch then [epoch] else [].
Proof.
  unfold run_epoch, end_of_epoch.
  destruct (if corruptions_due F epoch then _ else _)
    as [corrupt_metrics' corrupt_results].
  cbn [checkpoints].
  rewrite evaluate_checkpoints, train_epoch_checkpoints.
  destruct (checkpoint_due F epoch).
  - eexists. split; reflexivity.
  - exists []. split; [now rewrite app_nil_r|reflexivity].
Qed.

(** The checkpoints written by the whole loop. *)
Lemma main_loop_checkpoints (epochs : list Z) (st : state) :
  exists saved,
    checkpoints
      (for_each epochs (run_epoch fw F env steps_per_epoch steps_per_eval) st)
    = checkpoints st ++ saved /\
    ck_epoch <$> saved
    = List.filter (checkpoint_due F) epochs.
Proof.
  revert st. induction epochs as [|epoch epochs IH]; intros st.
  - exists []. split; [now rewrite app_nil_r|reflexivity].
  - rewrite for_each_cons.
    destruct (run_epoch_checkpoints st epoch) as (saved1 & H1 & E1).
    destruct (IH (run_epoch fw F env steps_per_epoch steps_per_eval st epoch))
      as (saved2 & H2 & E2).
    exists (saved1 ++ saved2). split.
    + rewrite H2, H1. now rewrite app_assoc.
    + rewrite fmap_app, E1, E2. simpl.
      destruct (checkpoint_due F epoch); reflexivity.
Qed.

End EpochLoop.

(** C7. At the end of an epoch of the training loop a checkpoint is saved
    if and only if [FLAGS.checkpoint_interval > 0] and [epoch + 1] is
    divisible by it: over the loop, the epochs whose end saves a checkpoint
    are exactly the epochs of [range(initial_epoch, train_epochs)] that
    satisfy the condition; with [checkpoint_interval = -1] none is saved. *)
Theorem checkpoint_saved_iff
    (fw : Cifar.framework) (F : Cifar.FLAGS) (env : Cifar.environment)
    (steps_per_epoch steps_per_eval : Z) :
  (forall (st : Cifar.state) (epoch : Z),
      exists saved,
        Cifar.checkpoints
          (Cifar.run_epoch fw F env steps_per_epoch steps_per_eval st epoch)
        = Cifar.checkpoints st ++ saved /\
        (saved <> [] <->
         0 < Cifar.checkpoint_interval F /\
         (epoch + 1) mod Cifar.checkpoint_interval F = 0)) /\
  (forall (initial_epoch : Z) (st : Cifar.state),
      exists saved,
        Cifar.checkpoints
          (Cifar.main_loop fw F env steps_per_epoch steps_per_eval
             initial_epoch st)
        = Cifar.checkpoints st ++ saved /\
        (forall epoch,
            epoch ∈ (Cifar.ck_epoch <$> saved) <->
            initial_epoch <= epoch < Cifar.train_epochs F /\
            0 < Cifar.checkpoint_interval F /\
            (epoch + 1) mod Cifar.checkpoint_interval F = 0) /\
        (Cifar.checkpoint_interval F = -1 -> saved = [])).
Proof.
  split.
  - intros st epoch.
    destruct (run_epoch_checkpoints fw F env steps_per_epoch steps_per_eval
                st epoch) as (saved & H & E).
    exists saved. split; [exact H|].
    rewrite <- checkpoint_due_iff.
    destruct (Cifar.checkpoint_due F epoch); destruct saved; try discriminate;
      split; congruence.
  - intros initial_epoch st. unfold Cifar.main_loop.
    destruct (main_loop_checkpoints fw F env steps_per_epoch steps_per_eval
                (seqZ initial_epoch (Cifar.train_epochs F - initial_epoch)) st)
      as (saved & H & E).
    exists saved. split; [exact H|]. split.
    + intros epoch. rewrite E, list_elem_of_In, filter_In.
      rewrite <- list_elem_of_In, elem_of_seqZ, checkpoint_due_iff. lia.
    + intros Hci.
      assert (Hnone : Cifar.ck_epoch <$> saved = []).
      { rewrite E. clear E H.
        induction (seqZ _ _) as [|e l IH]; [reflexivity|].
        simpl. unfold Cifar.checkpoint_due at 1. rewrite Hci. simpl.
        exact IH. }
      destruct saved; [reflexivity|discriminate].
Qed.

Example checkpoints_default_run :
  Cifar.ck_epoch <$>
    Cifar.checkpoints
      (Cifar.main_loop reference_framework cifar_default_flags
         reference_environment 1 1 200 reference_state)
  = [224; 249].
Proof. vm_compute. reflexivity. Qed.

(** ** CIFAR: metrics across epochs *)

Section MetricHistories.
Import Cifar.

Variable fw : framework.
Variable F : FLAGS.
Variable env : environment.
Variable steps_per_epoch : Z.
Variable steps_per_eval : Z.

(** A metric with earlier updates put in front of its own. *)
Definition prepend_updates (earlier : list update) (m : metric) : metric :=
  {| kind := kind m; updates := earlier ++ updates m |}.

(** A dictionary of metrics, each with the earlier updates [h key] put in
    front of its own. *)
Definition with_history (h : string -> list update)
    (ms : gmap string metric) : gmap string metric :=
  map_imap (fun key m => Some (prepend_updates (h key) m)) ms.

(** The updates each metric of a dictionary holds. *)
Definition history_of (ms : gmap string metric) (key : string)
    : list update :=
  match ms !! key with
  | Some m => updates m
  | None => []
  end.

Definition state_with_history (h hc : string -> list update) (st : state)
    : state :=
  {| trainable_variables := trainable_variables st;
     optimizer := optimizer st;
     global_step := global_step st;
     forward_passes := forward_passes st;
     train_position := train_position st;
     metrics := with_history h (metrics st);
     corrupt_metrics := with_history hc (corrupt_metrics st);
     summaries := summaries st;
     checkpoints := checkpoints st |}.

(** The same state with every metric of both dictionaries emptied. *)
Definition forget (st : state) : state :=
  {| trainable_variables := trainable_variables st;
     optimizer := optimizer st;
     global_step := global_step st;
     forward_passes := forward_passes st;
     train_position := train_position st;
     metrics := reset_states <$> metrics st;
     corrupt_metrics := reset_states <$> corrupt_metrics st;
     summaries := summaries st;
     checkpoints := checkpoints st |}.

(** The state in which an epoch writes its summaries: after its training
    steps and its evaluation. *)
Definition at_report (st : state) (epoch : Z) : state :=
  evaluate fw F env steps_per_eval epoch
    (train_epoch fw F env steps_per_epoch st).

(** The results [aggregate_corrupt_metrics] contributes to the summaries
    of an epoch. *)
Definition corrupt_results_of (st : state) (epoch : Z) : gmap string Q :=
  if corruptions_due F epoch
  then (aggregate_corrupt_metrics fw (corrupt_metrics st)
          (corruption_types env) (max_intensity env)).2
  else ∅.

Lemma with_history_lookup (h : string -> list update)
    (ms : gmap string metric) (key : string) :
  with_history h ms !! key = prepend_updates (h key) <$> ms !! key.
Proof.
  unfold with_history. rewrite map_lookup_imap.
  destruct (ms !! key); reflexivity.
Qed.

Lemma update_state_with_history (key : string) (u : update)
    (h : string -> list update) (ms : gmap string metric) :
  update_state key u (with_history h ms)
  = with_history h (update_state key u ms).
Proof.
  apply map_eq. intros i.
  rewrite update_state_lookup, !with_history_lookup, update_state_lookup.
  destruct (decide (key = i)) as [->|]; [|reflexivity].
  destruct (ms !! i) as [m|]; [|reflexivity]. simpl.
  unfold metric_update_state, prepend_updates. simpl.
  now rewrite app_assoc.
Qed.

Lemma with_history_forget (ms : gmap string metric) :
  with_history (history_of ms) (reset_states <$> ms) = ms.
Proof.
  apply map_eq. intros i.
  rewrite with_history_lookup, lookup_fmap. unfold history_of.
  destruct (ms !! i) as [[k us]|]; [|reflexivity]. simpl.
  unfold prepend_updates. simpl. now rewrite app_nil_r.
Qed.

Lemma state_with_history_forget (st : state) :
  state_with_history (history_of (metrics st))
    (history_of (corrupt_metrics st)) (forget st) = st.
Proof.
  destruct st. unfold state_with_history, forget. simpl.
  now rewrite !with_history_forget.
Qed.

(** Neither step reads a metric: each does to a state with a history what
    it does to the state without. *)
Lemma train_step_history (h hc : string -> list update) (st : state) :
  train_step fw F env steps_per_epoch (state_with_history h hc st)
  = state_with_history h hc (train_step fw F env steps_per_epoch st).
Proof.
  unfold train_step, next_train, train_step_fn, state_with_history.
  cbn [trainable_variables optimizer global_step forward_passes
       train_position metrics corrupt_metrics summaries checkpoints].
  destruct (train_dataset env _) as [images labels].
  cbn [trainable_variables optimizer global_step forward_passes
       train_position metrics corrupt_metrics summaries checkpoints].
  destruct (apply_gradients fw _ _) as [optimizer' variables'].
  cbn [trainable_variables optimizer global_step forward_passes
       train_position metrics corrupt_metrics summaries checkpoints].
  now rewrite !update_state_with_history.
Qed.

Lemma test_step_history (dataset_name : string)
    (test_dataset : nat -> tensor * list Z)
    (h hc : string -> list update) (st : state) (step : Z) :
  test_step fw F dataset_name test_dataset (state_with_history h hc st) step
  = state_with_history h hc
      (test_step fw F dataset_name test_dataset st step).
Proof.
  unfold test_step, test_step_fn, state_with_history.
  destruct (test_dataset _) as [images labels].
  cbn [trainable_variables optimizer global_step forward_passes
       train_position metrics corrupt_metrics summaries checkpoints].
  destruct (String.eqb dataset_name "clean");
    now rewrite !update_state_with_history.
Qed.

Lemma for_each_commutes {A S : Type} (T : S -> S) (xs : list A)
    (body : S -> A -> S) (s : S) :
  (forall s a, body (T s) a = T (body s a)) ->
  for_each xs body (T s) = T (for_each xs body s).
Proof.
  intros Hbody. revert s.
  induction xs as [|x xs IH]; intros s; [reflexivity|].
  rewrite !for_each_cons, Hbody. apply IH.
Qed.

Lemma at_report_history (h hc : string -> list update) (st : state)
    (epoch : Z) :
  at_report (state_with_history h hc st) epoch
  = state_with_history h hc (at_report st epoch).
Proof.
  unfold at_report, evaluate, train_epoch.
  rewrite (for_each_commutes (state_with_history h hc))
    by (intros s _; apply train_step_history).
  apply for_each_commutes. intros s [dataset_name test_dataset].
  apply for_each_commutes. intros s' step. apply test_step_history.
Qed.

(** The log with which an epoch reports is the log it started with
    followed by the updates the epoch makes from empty logs. *)
Lemma at_report_decomposition (st : state) (epoch : Z) :
  at_report st epoch
  = state_with_history (history_of (metrics st))
      (history_of (corrupt_metrics st)) (at_report (forget st) epoch).
Proof.
  rewrite <- at_report_history. now rewrite state_with_history_forget.
Qed.

(** Updating a metric changes neither the keys of a dictionary nor the
    kinds of its metrics. *)
Lemma reset_update_state (key : string) (u : update)
    (ms : gmap string metric) :
  reset_states <$> update_state key u ms = reset_states <$> ms.
Proof.
  apply map_eq. intros i. rewrite !lookup_fmap, update_state_lookup.
  destruct (decide (key = i)); [|reflexivity].
  destruct (ms !! i); reflexivity.
Qed.

Lemma train_step_keys (st : state) :
  let st' := train_step fw F env steps_per_epoch st in
  reset_states <$> metrics st' = reset_states <$> metrics st /\
  corrupt_metrics st' = corrupt_metrics st.
Proof.
  cbv zeta. unfold train_step, next_train, train_step_fn.
  destruct (train_dataset env _) as [images labels]. cbn [optimizer].
  destruct (apply_gradients fw _ _) as [optimizer' variables'].
  cbn [metrics corrupt_metrics]. now rewrite !reset_update_state.
Qed.

Lemma test_step_keys (dataset_name : string)
    (test_dataset : nat -> tensor * list Z) (st : state) (step : Z) :
  let st' := test_step fw F dataset_name test_dataset st step in
  reset_states <$> metrics st' = reset_states <$> metrics st /\
  reset_states <$> corrupt_metrics st'
  = reset_states <$> corrupt_metrics st.
Proof.
  cbv zeta. unfold test_step, test_step_fn.
  destruct (test_dataset _) as [images labels]. cbn [metrics corrupt_metrics].
  destruct (String.eqb dataset_name "clean");
    now rewrite !reset_update_state.
Qed.

Lemma at_report_keys (st : state) (epoch : Z) :
  reset_states <$> metrics (at_report st epoch)
  = reset_states <$> metrics st /\
  reset_states <$> corrupt_metrics (at_report st epoch)
  = reset_states <$> corrupt_metrics st.
Proof.
  unfold at_report, evaluate, train_epoch. split.
  - rewrite (for_each_preserves (fun s => reset_states <$> metrics s)).
    + apply (for_each_preserves (fun s => reset_states <$> metrics s)).
      intros s _. apply train_step_keys.
    + intros s [dataset_name test_dataset].
      apply (for_each_preserves (fun s => reset_states <$> metrics s)).
      intros s' step. apply test_step_keys.
  - rewrite (for_each_preserves
               (fun s => reset_states <$> corrupt_metrics s)).
    + apply (for_each_preserves
               (fun s => reset_states <$> corrupt_metrics s)).
      intros s _. now rewrite (proj2 (train_step_keys s)).
    + intros s [dataset_name test_dataset].
      apply (for_each_preserves
               (fun s => reset_states <$> corrupt_metrics s)).
      intros s' step. apply test_step_keys.
Qed.

Lemma reset_states_idemp (ms : gmap string metric) :
  reset_states <$> (reset_states <$> ms) = reset_states <$> ms.
Proof.
  rewrite <- map_fmap_compose. apply map_fmap_ext. intros i m _. reflexivity.
Qed.

(** *** The end of an epoch *)

Lemma run_epoch_metrics (st : state) (epoch : Z) :
  metrics (run_epoch fw F env steps_per_epoch steps_per_eval st epoch)
  = reset_states <$> metrics st.
Proof.
  unfold run_epoch. fold (at_report st epoch). unfold end_of_epoch.
  destruct (if corruptions_due F epoch then _ else _)
    as [corrupt_metrics' corrupt_results].
  cbn [metrics]. apply at_report_keys.
Qed.

Lemma run_epoch_summaries (st : state) (epoch : Z) (key : string)
    (m : metric) :
  metrics (at_report st epoch) !! key = Some m ->
  corrupt_results_of (at_report st epoch) epoch !! key = None ->
  (key, metric_result fw m, epoch + 1)
  ∈ summaries (run_epoch fw F env steps_per_epoch steps_per_eval st epoch).
Proof.
  intros Hm Hnone. unfold run_epoch. fold (at_report st epoch).
  unfold end_of_epoch. unfold corrupt_results_of in Hnone.
  destruct (corruptions_due F epoch).
  - destruct (aggregate_corrupt_metrics fw _ _ _)
      as [corrupt_metrics' corrupt_results].
    cbn [summaries]. simpl in Hnone.
    apply elem_of_app. right.
    apply (list_elem_of_fmap_2'
             (fun '(name, result) => (name, result, epoch + 1))
             _ (key, metric_result fw m)); [|reflexivity].
    apply elem_of_map_to_list.
    rewrite lookup_union_r by exact Hnone.
    now rewrite lookup_fmap, Hm.
  - cbn [summaries].
    apply elem_of_app. right.
    apply (list_elem_of_fmap_2'
             (fun '(name, result) => (name, result, epoch + 1))
             _ (key, metric_result fw m)); [|reflexivity].
    apply elem_of_map_to_list.
    rewrite lookup_union_r by apply lookup_empty.
    now rewrite lookup_fmap, Hm.
Qed.

(** *** The corrupted-test metrics *)

Hypothesis aggregate_reads_only :
  forall corrupt_metrics corruption_types max_intensity,
    (aggregate_corrupt_metrics fw corrupt_metrics corruption_types
       max_intensity).1 = corrupt_metrics.

Lemma run_epoch_corrupt_metrics (st : state) (epoch : Z) :
  corrupt_metrics
    (run_epoch fw F env steps_per_epoch steps_per_eval st epoch)
  = corrupt_metrics (at_report st epoch).
Proof.
  unfold run_epoch. fold (at_report st epoch). unfold end_of_epoch.
  destruct (corruptions_due F epoch); [|reflexivity].
  pose proof (aggregate_reads_only (corrupt_metrics (at_report st epoch))
                (corruption_types env) (max_intensity env)) as H.
  destruct (aggregate_corrupt_metrics fw _ _ _)
    as [corrupt_metrics' corrupt_results].
  exact H.
Qed.

Lemma run_epoch_corrupt_history (st : state) (epoch : Z) :
  corrupt_metrics
    (run_epoch fw F env steps_per_epoch steps_per_eval st epoch)
  = with_history (history_of (corrupt_metrics st))
      (corrupt_metrics (at_report (forget st) epoch)).
Proof.
  rewrite run_epoch_corrupt_metrics, at_report_decomposition. reflexivity.
Qed.

Lemma run_epoch_corrupt_grows (st : state) (epoch : Z) (key : string)
    (m : metric) :
  corrupt_metrics st !! key = Some m ->
  exists m',
    corrupt_metrics
      (run_epoch fw F env steps_per_epoch steps_per_eval st epoch) !! key
    = Some m' /\
    kind m' = kind m /\ updates m `prefix_of` updates m'.
Proof.
  intros Hm. rewrite run_epoch_corrupt_history, with_history_lookup.
  pose proof (proj2 (at_report_keys (forget st) epoch)) as Hkeys.
  apply (f_equal (fun ms => ms !! key)) in Hkeys.
  rewrite !lookup_fmap in Hkeys. cbn [forget corrupt_metrics] in Hkeys.
  rewrite lookup_fmap, Hm in Hkeys.
  destruct (corrupt_metrics (at_report (forget st) epoch) !! key)
    as [d|]; [|discriminate].
  simpl in Hkeys. injection Hkeys as Hk.
  eexists. split; [reflexivity|]. unfold history_of. rewrite Hm. simpl.
  split; [exact Hk|]. now exists (updates d).
Qed.

Lemma loop_corrupt_grows (epochs : list Z) (st : state) (key : string)
    (m : metric) :
  corrupt_metrics st !! key = Some m ->
  exists m',
    corrupt_metrics
      (for_each epochs (run_epoch fw F env steps_per_epoch steps_per_eval)
         st) !! key
    = Some m' /\
    kind m' = kind m /\ updates m `prefix_of` updates m'.
Proof.
  revert st m. induction epochs as [|epoch epochs IH]; intros st m Hm.
  - exists m. split; [exact Hm|]. split; reflexivity.
  - rewrite for_each_cons.
    destruct (run_epoch_corrupt_grows st epoch key m Hm)
      as (m1 & H1 & Hk1 & Hp1).
    destruct (IH _ m1 H1) as (m2 & H2 & Hk2 & Hp2).
    exists m2. split; [exact H2|]. split; [congruence|].
    etrans; eassumption.
Qed.

End MetricHistories.

Section FreshMetrics.
Import Cifar.

(** A dictionary whose metrics are all empty. *)
Definition all_reset (ms : gmap string metric) : Prop :=
  ms = reset_states <$> ms.

Lemma with_history_all_reset (ms ms' : gmap string metric) :
  all_reset ms -> with_history (history_of ms) ms' = ms'.
Proof.
  intros Hms. apply map_eq. intros i. rewrite with_history_lookup.
  assert (Hh : history_of ms i = []).
  { unfold history_of. rewrite Hms, lookup_fmap.
    destruct (ms !! i); reflexivity. }
  rewrite Hh. destruct (ms' !! i) as [[k us]|]; reflexivity.
Qed.

Lemma initial_metrics_all_reset (F : FLAGS) (num_classes : Z) :
  all_reset (initial_metrics F num_classes).
Proof.
  unfold all_reset, initial_metrics.
  rewrite !fmap_insert, fmap_empty. reflexivity.
Qed.

Lemma reset_all_reset (ms : gmap string metric) :
  all_reset (reset_states <$> ms).
Proof. unfold all_reset. now rewrite reset_states_idemp. Qed.

End FreshMetrics.

(** C10. In every epoch of the training loop the summaries are written
    from the metrics as they stand after the epoch's steps, and then every
    metric of [metrics] is reset: the dictionary entering the next epoch
    has the same keys and kinds and no updates, and what an epoch that
    starts from reset metrics reports are the updates of that epoch alone.
    No metric of [corrupt_metrics] is reset ([aggregate_corrupt_metrics]
    only reading them): after an epoch each holds what it held before
    followed by the epoch's updates, and over the whole run its updates
    only ever grow. *)
Theorem metrics_reset_corrupt_metrics_accumulate
    (fw : Cifar.framework) (F : Cifar.FLAGS) (env : Cifar.environment)
    (steps_per_epoch steps_per_eval : Z) :
  (forall corrupt_metrics corruption_types max_intensity,
      (Cifar.aggregate_corrupt_metrics fw corrupt_metrics corruption_types
         max_intensity).1 = corrupt_metrics) ->
  let run_epoch := Cifar.run_epoch fw F env steps_per_epoch steps_per_eval in
  let at_report := at_report fw F env steps_per_epoch steps_per_eval in
  (forall (st : Cifar.state) (epoch : Z),
      (forall key m,
          Cifar.metrics (at_report st epoch) !! key = Some m ->
          corrupt_results_of fw F env (at_report st epoch) epoch !! key
          = None ->
          (key, Cifar.metric_result fw m, epoch + 1)
          ∈ Cifar.summaries (run_epoch st epoch)) /\
      Cifar.metrics (run_epoch st epoch)
      = Cifar.reset_states <$> Cifar.metrics st /\
      Cifar.metrics (at_report st epoch)
      = with_history (history_of (Cifar.metrics st))
          (Cifar.metrics (at_report (forget st) epoch)) /\
      (all_reset (Cifar.metrics st) ->
       Cifar.metrics (at_report st epoch)
       = Cifar.metrics (at_report (forget st) epoch)) /\
      Cifar.corrupt_metrics (run_epoch st epoch)
      = with_history (history_of (Cifar.corrupt_metrics st))
          (Cifar.corrupt_metrics (at_report (forget st) epoch))) /\
  (forall num_classes variables optimizer,
      all_reset
        (Cifar.metrics
           (Cifar.initial_state F env num_classes variables optimizer))) /\
  (forall (st : Cifar.state) (epoch : Z),
      all_reset (Cifar.metrics (run_epoch st epoch))) /\
  (forall (initial_epoch : Z) (st : Cifar.state) (key : string)
          (m : Cifar.metric),
      Cifar.corrupt_metrics st !! key = Some m ->
      exists m',
        Cifar.corrupt_metrics
          (Cifar.main_loop fw F env steps_per_epoch steps_per_eval
             initial_epoch st) !! key = Some m' /\
        Cifar.kind m' = Cifar.kind m /\
        Cifar.updates m `prefix_of` Cifar.updates m').
Proof.
  intros Hagg run_epoch report.
  split; [|split; [|split]].
  - intros st epoch. split; [|split; [|split; [|split]]].
    + apply run_epoch_summaries.
    + apply run_epoch_metrics.
    + unfold report. rewrite at_report_decomposition at 1. reflexivity.
    + intros Hreset. unfold report.
      rewrite at_report_decomposition at 1.
      cbn [Cifar.metrics state_with_history].
      now apply with_history_all_reset.
    + apply run_epoch_corrupt_history, Hagg.
  - intros num_classes variables optimizer. apply initial_metrics_all_reset.
  - intros st epoch. unfold run_epoch. rewrite run_epoch_metrics.
    apply reset_all_reset.
  - intros initial_epoch st key m Hm. unfold Cifar.main_loop.
    now apply loop_corrupt_grows.
Qed.

(** Two epochs with the corrupted test sets evaluated in each: the clean
    metrics are empty again at the end, the corrupted ones hold both
    epochs' updates. *)
Definition every_epoch_flags : Cifar.FLAGS :=
  {| Cifar.per_core_batch_size := 64;
     Cifar.base_learning_rate := (1 # 10)%Q;
     Cifar.lr_warmup_epochs := 1;
     Cifar.lr_decay_ratio := (2 # 10)%Q;
     Cifar.lr_decay_epochs := [60; 120; 160];
     Cifar.kl_annealing_epochs := 200;
     Cifar.l2 := (4 # 10000)%Q;
     Cifar.prior_stddev := (1 # 10)%Q;
     Cifar.stddev_init := (1 # 1000)%Q;
     Cifar.corruptions_interval := 1;
     Cifar.checkpoint_interval := -1;
     Cifar.num_bins := 15;
     Cifar.num_eval_samples := 5;
     Cifar.train_epochs := 2;
     Cifar.use_bfloat16 := false;
     Cifar.num_cores := 8 |}.

Definition two_epochs : Cifar.state :=
  Cifar.main_loop reference_framework every_epoch_flags
    reference_environment 3 2 0
    (Cifar.initial_state every_epoch_flags reference_environment 10
       example_variables {| Cifar.iterations := 0; Cifar.slots := [] |}).

Example two_epochs_metrics :
  (length ∘ Cifar.updates) <$> Cifar.metrics two_epochs !! "train/loss"
  = Some 0%nat
  /\ (length ∘ Cifar.updates) <$> Cifar.metrics two_epochs !! "test/accuracy"
     = Some 0%nat
  /\ (length ∘ Cifar.updates)
       <$> Cifar.corrupt_metrics two_epochs !! "test/nll_fog_2"
     = Some 4%nat
  /\ Cifar.checkpoints two_epochs = []
  /\ ("train/loss", 3%Q, 1) ∈ Cifar.summaries two_epochs
  /\ ("train/loss", 3%Q, 2) ∈ Cifar.summaries two_epochs
  /\ ("test/accuracy", 2%Q, 2) ∈ Cifar.summaries two_epochs.
Proof.
  repeat split; try (vm_compute; reflexivity);
    apply list_elem_of_In; vm_compute; tauto.
Qed.

Lemma metrics_reset_corrupt_metrics_accumulate_witness :
  Cifar.metrics
    (Cifar.run_epoch reference_framework every_epoch_flags
       reference_environment 3 2 reference_state 0)
  = Cifar.reset_states <$> Cifar.metrics reference_state.
Proof.
  assert (Hagg : forall corrupt_metrics corruption_types max_intensity,
             (Cifar.aggregate_corrupt_metrics reference_framework
                corrupt_metrics corruption_types max_intensity).1
             = corrupt_metrics) by reflexivity.
  pose proof (metrics_reset_corrupt_metrics_accumulate reference_framework
                every_epoch_flags reference_environment 3 2 Hagg) as H.
  cbv zeta in H. destruct H as (Hepoch & _).
  destruct (Hepoch reference_state 0) as (_ & Hreset & _).
  exact Hreset.
Defined.

(** * Further properties of the CIFAR script *)

(** ** What the steps change and what they leave alone *)

Section StepEffects.
Import Cifar.

Variable fw : framework.
Variable F : FLAGS.
Variable env : environment.
Variable steps_per_epoch : Z.
Variable steps_per_eval : Z.

(** The part of the state that belongs to training proper. *)
Definition training_part (st : state)
    : list variable * optimizer_state * Z * nat
      * list (string * Q * Z) * list checkpoint :=
  (trainable_variables st, optimizer st, global_step st, train_position st,
   summaries st, checkpoints st).

Lemma test_step_training_part (dataset_name : string)
    (test_dataset : nat -> tensor * list Z) (st : state) (step : Z) :
  training_part (test_step fw F dataset_name test_dataset st step)
  = training_part st.
Proof.
  unfold test_step, test_step_fn.
  destruct (test_dataset _) as [images labels]. reflexivity.
Qed.

Lemma evaluate_training_part (epoch : Z) (st : state) :
  training_part (evaluate fw F env steps_per_eval epoch st)
  = training_part st.
Proof.
  unfold evaluate. apply (for_each_preserves training_part).
  intros s [dataset_name test_dataset].
  apply (for_each_preserves training_part).
  intros s' step. apply test_step_training_part.
Qed.

Lemma length_range (n : Z) : length (range n) = Z.to_nat n.
Proof. unfold range. apply length_seqZ. Qed.

(** A loop whose every iteration advances a counter by one advances it by
    the number of iterations. *)
Lemma for_each_counts {A St : Type} (count : St -> nat) (xs : list A)
    (body : St -> A -> St) (s : St) :
  (forall s a, count (body s a) = S (count s)) ->
  count (for_each xs body s) = (count s + length xs)%nat.
Proof.
  intros Hbody. revert s.
  induction xs as [|x xs IH]; intros s.
  - unfold for_each. simpl. lia.
  - rewrite for_each_cons, IH, Hbody. simpl length. lia.
Qed.

Lemma for_each_counts_Z {A St : Type} (count : St -> Z) (xs : list A)
    (body : St -> A -> St) (s : St) :
  (forall s a, count (body s a) = count s + 1) ->
  count (for_each xs body s) = count s + Z.of_nat (length xs).
Proof.
  intros Hbody. revert s.
  induction xs as [|x xs IH]; intros s.
  - unfold for_each. simpl. lia.
  - rewrite for_each_cons, IH, Hbody. simpl length. lia.
Qed.

Lemma train_step_fields (st : state) :
  let st' := train_step fw F env steps_per_epoch st in
  global_step st' = int64 (global_step st + 1) /\
  train_position st' = S (train_position st) /\
  forward_passes st' = S (forward_passes st) /\
  summaries st' = summaries st.
Proof.
  cbv zeta. unfold train_step, next_train, train_step_fn.
  destruct (train_dataset env _) as [images labels]. cbn [optimizer].
  destruct (apply_gradients fw _ _). repeat split.
Qed.

(** While the counter stays below the largest [tf.int64], a loop of
    training steps adds its length to the global step. *)
Lemma train_steps_global_step {A : Type} (xs : list A) (st : state) :
  - 2 ^ 63 <= global_step st ->
  global_step st + Z.of_nat (length xs) < 2 ^ 63 ->
  global_step
    (for_each xs (fun st _ => train_step fw F env steps_per_epoch st) st)
  = global_step st + Z.of_nat (length xs).
Proof.
  revert st. induction xs as [|x xs IH]; intros st Hlo Hhi.
  - unfold for_each. simpl. lia.
  - rewrite for_each_cons. simpl length in *.
    pose proof (train_step_fields st) as (Hg & _). cbv zeta in Hg.
    rewrite int64_small in Hg by lia.
    rewrite IH; rewrite Hg; lia.
Qed.

Lemma end_of_epoch_training_part (epoch : Z) (st : state) :
  let st' := end_of_epoch fw F env epoch st in
  trainable_variables st' = trainable_variables st /\
  optimizer st' = optimizer st /\
  global_step st' = global_step st /\
  train_position st' = train_position st.
Proof.
  cbv zeta. unfold end_of_epoch.
  destruct (if corruptions_due F epoch then _ else _). repeat split.
Qed.

Lemma run_epoch_global_step (st : state) (epoch : Z) :
  - 2 ^ 63 <= global_step st ->
  global_step st + Z.max 0 steps_per_epoch < 2 ^ 63 ->
  global_step (run_epoch fw F env steps_per_epoch steps_per_eval st epoch)
  = global_step st + Z.max 0 steps_per_epoch.
Proof.
  intros Hlo Hhi. unfold run_epoch.
  destruct (end_of_epoch_training_part epoch
              (evaluate fw F env steps_per_eval epoch
                 (train_epoch fw F env steps_per_epoch st)))
    as (_ & _ & -> & _).
  pose proof (evaluate_training_part epoch
                (train_epoch fw F env steps_per_epoch st)) as Hev.
  unfold training_part in Hev. injection Hev as _ _ -> _ _ _.
  unfold train_epoch.
  rewrite train_steps_global_step; rewrite ?length_range; lia.
Qed.

Lemma run_epochs_global_step (epochs : list Z) (st : state) :
  - 2 ^ 63 <= global_step st ->
  global_step st + Z.of_nat (length epochs) * Z.max 0 steps_per_epoch
  < 2 ^ 63 ->
  global_step
    (for_each epochs (run_epoch fw F env steps_per_epoch steps_per_eval) st)
  = global_step st + Z.of_nat (length epochs) * Z.max 0 steps_per_epoch.
Proof.
  revert st. induction epochs as [|epoch epochs IH]; intros st Hlo Hhi.
  - unfold for_each. simpl. lia.
  - rewrite for_each_cons. simpl length in *.
    assert (Hstep := run_epoch_global_step st epoch Hlo ltac:(nia)).
    rewrite IH; rewrite Hstep; nia.
Qed.

End StepEffects.

(** X1. Evaluation never trains: whatever datasets an epoch evaluates on,
    the evaluation leaves the trainable variables, the optimizer, the
    global step, the training iterator, the summaries and the checkpoints
    as they were. *)
Theorem evaluate_leaves_training_state
    (fw : Cifar.framework) (F : Cifar.FLAGS) (env : Cifar.environment)
    (steps_per_eval epoch : Z) (st : Cifar.state) :
  let st' := Cifar.evaluate fw F env steps_per_eval epoch st in
  Cifar.trainable_variables st' = Cifar.trainable_variables st /\
  Cifar.optimizer st' = Cifar.optimizer st /\
  Cifar.global_step st' = Cifar.global_step st /\
  Cifar.train_position st' = Cifar.train_position st /\
  Cifar.summaries st' = Cifar.summaries st /\
  Cifar.checkpoints st' = Cifar.checkpoints st.
Proof.
  cbv zeta.
  pose proof (evaluate_training_part fw F env steps_per_eval epoch st) as H.
  unfold training_part in H. injection H as -> -> -> -> -> ->.
  repeat split.
Qed.

(** X2. The global step counts the training steps: as long as it stays
    within [tf.int64], the loop of [main] adds [steps_per_epoch] to it for
    every epoch it runs, so a run from epoch [initial_epoch] ends with
    [(train_epochs - initial_epoch) * steps_per_epoch] more. *)
Theorem global_step_counts_training_steps
    (fw : Cifar.framework) (F : Cifar.FLAGS) (env : Cifar.environment)
    (steps_per_epoch steps_per_eval initial_epoch : Z) (st : Cifar.state) :
  let epochs := Z.max 0 (Cifar.train_epochs F - initial_epoch) in
  let steps := epochs * Z.max 0 steps_per_epoch in
  - 2 ^ 63 <= Cifar.global_step st ->
  Cifar.global_step st + steps < 2 ^ 63 ->
  Cifar.global_step
    (Cifar.main_loop fw F env steps_per_epoch steps_per_eval initial_epoch st)
  = Cifar.global_step st + steps.
Proof.
  intros epochs steps Hlo Hhi. unfold Cifar.main_loop.
  rewrite run_epochs_global_step; rewrite ?length_seqZ; unfold steps, epochs in *;
    try lia.
Qed.

Lemma global_step_counts_training_steps_witness :
  Cifar.global_step
    (Cifar.main_loop reference_framework every_epoch_flags
       reference_environment 3 2 0 reference_state)
  = 0 + Z.max 0 (2 - 0) * Z.max 0 3.
Proof.
  apply (global_step_counts_training_steps reference_framework
           every_epoch_flags reference_environment 3 2 0 reference_state).
  - vm_compute. discriminate.
  - vm_compute. reflexivity.
Defined.

(** ** Checkpoints and resuming *)

Section Resume.
Import Cifar.

Variable fw : framework.
Variable F : FLAGS.
Variable env : environment.
Variable steps_per_epoch : Z.
Variable steps_per_eval : Z.

(** What Keras optimizers do: each [apply_gradients] adds one to
    [optimizer.iterations]. *)
Hypothesis apply_gradients_counts :
  forall opt grads_and_vars,
    iterations (apply_gradients fw opt grads_and_vars).1 = iterations opt + 1.

Lemma train_step_iterations (st : state) :
  iterations (optimizer (train_step fw F env steps_per_epoch st))
  = iterations (optimizer st) + 1.
Proof.
  unfold train_step, next_train, train_step_fn.
  destruct (train_dataset env _) as [images labels]. cbn [optimizer].
  match goal with
  | |- context [apply_gradients fw ?opt ?grads_and_vars] =>
      pose proof (apply_gradients_counts opt grads_and_vars) as H
  end.
  destruct (apply_gradients fw _ _). exact H.
Qed.

Lemma at_end_of_training_iterations (st : state) (epoch : Z) :
  iterations
    (optimizer
       (evaluate fw F env steps_per_eval epoch
          (train_epoch fw F env steps_per_epoch st)))
  = iterations (optimizer st) + Z.max 0 steps_per_epoch.
Proof.
  pose proof (evaluate_training_part fw F env steps_per_eval epoch
                (train_epoch fw F env steps_per_epoch st)) as Hev.
  unfold training_part in Hev. injection Hev as _ -> _ _ _ _.
  unfold train_epoch.
  rewrite (for_each_counts_Z (fun s => iterations (optimizer s)))
    by (intros s _; apply train_step_iterations).
  rewrite length_range. lia.
Qed.

(** One epoch: the optimizer has made [steps_per_epoch] more iterations,
    and a checkpoint written at its end holds the optimizer as it then
    is. *)
Lemma run_epoch_iterations (st : state) (epoch : Z) :
  let st' := run_epoch fw F env steps_per_epoch steps_per_eval st epoch in
  iterations (optimizer st')
  = iterations (optimizer st) + Z.max 0 steps_per_epoch /\
  forall c, c ∈ checkpoints st' ->
    c ∈ checkpoints st \/
    (ck_epoch c = epoch /\
     iterations (ck_optimizer c)
     = iterations (optimizer st) + Z.max 0 steps_per_epoch).
Proof.
  cbv zeta. unfold run_epoch.
  set (trained := evaluate fw F env steps_per_eval epoch
                    (train_epoch fw F env steps_per_epoch st)).
  pose proof (at_end_of_training_iterations st epoch) as Hit.
  fold trained in Hit.
  pose proof (evaluate_training_part fw F env steps_per_eval epoch
                (train_epoch fw F env steps_per_epoch st)) as Hev.
  fold trained in Hev.
  assert (Hck : checkpoints trained = checkpoints st).
  { unfold training_part in Hev. injection Hev as _ _ _ _ _ Hck.
    rewrite Hck. apply train_epoch_checkpoints. }
  unfold end_of_epoch.
  destruct (if corruptions_due F epoch then _ else _)
    as [corrupt_metrics' corrupt_results].
  cbn [optimizer checkpoints]. split; [exact Hit|].
  intros c Hc. rewrite Hck in Hc.
  destruct (checkpoint_due F epoch); [|left; exact Hc].
  apply elem_of_app in Hc as [Hc|Hc]; [left; exact Hc|].
  apply list_elem_of_singleton in Hc. subst c. right. cbn. split;
    [reflexivity|exact Hit].
Qed.

Lemma run_epochs_iterations (n : nat) (first : Z) (st : state) :
  0 <= steps_per_epoch ->
  iterations (optimizer st) = first * steps_per_epoch ->
  forall c,
    c ∈ checkpoints
          (for_each (seqZ first (Z.of_nat n))
             (run_epoch fw F env steps_per_epoch steps_per_eval) st) ->
    c ∈ checkpoints st \/
    (first <= ck_epoch c < first + Z.of_nat n /\
     iterations (ck_optimizer c) = (ck_epoch c + 1) * steps_per_epoch).
Proof.
  intros Hspe. revert first st.
  induction n as [|n IH]; intros first st Hit c Hc.
  - left. exact Hc.
  - rewrite seqZ_cons in Hc by lia. rewrite for_each_cons in Hc.
    replace (Z.pred (Z.of_nat (S n))) with (Z.of_nat n) in Hc by lia.
    destruct (run_epoch_iterations st first) as (Hit1 & Hck1).
    cbv zeta in Hit1, Hck1.
    apply IH in Hc; [|rewrite Hit1, Hit; lia].
    destruct Hc as [Hc|(Hrange & Hc)].
    + apply Hck1 in Hc as [Hc|(He & Hc)]; [left; exact Hc|].
      right. split; [lia|]. rewrite Hc, He, Hit. lia.
    + right. split; [lia|exact Hc].
Qed.

End Resume.

(** X3. Resuming continues where the run stopped.  When every
    [apply_gradients] adds one to [optimizer.iterations] and the loop is
    entered with [iterations = initial_epoch * steps_per_epoch] (as after
    a fresh start or a restore), every checkpoint the loop writes is
    written at the end of an epoch [e] of the run with [iterations = (e +
    1) * steps_per_epoch]; restoring it therefore sets [initial_epoch] to
    [e + 1]. *)
Theorem resume_at_next_epoch
    (fw : Cifar.framework) (F : Cifar.FLAGS) (env : Cifar.environment)
    (steps_per_epoch steps_per_eval initial_epoch : Z) (st : Cifar.state) :
  (forall opt grads_and_vars,
      Cifar.iterations (Cifar.apply_gradients fw opt grads_and_vars).1
      = Cifar.iterations opt + 1) ->
  0 < steps_per_epoch ->
  Cifar.iterations (Cifar.optimizer st) = initial_epoch * steps_per_epoch ->
  forall c : Cifar.checkpoint,
    c ∈ Cifar.checkpoints
          (Cifar.main_loop fw F env steps_per_epoch steps_per_eval
             initial_epoch st) ->
    c ∈ Cifar.checkpoints st \/
    (initial_epoch <= Cifar.ck_epoch c < Cifar.train_epochs F /\
     Cifar.iterations (Cifar.ck_optimizer c)
     = (Cifar.ck_epoch c + 1) * steps_per_epoch /\
     forall st0,
       Cifar.restore_latest steps_per_epoch (Some c) st0
       = (Cifar.checkpoint_restore c st0, Cifar.ck_epoch c + 1)).
Proof.
  intros Hcount Hspe Hit c Hc. unfold Cifar.main_loop in Hc.
  destruct (Z_lt_le_dec (Cifar.train_epochs F - initial_epoch) 0) as [Hneg|Hn].
  - left. rewrite seqZ_nil in Hc by lia. exact Hc.
  - rewrite <- (Z2Nat.id (Cifar.train_epochs F - initial_epoch)) in Hc
      by exact Hn.
    apply (run_epochs_iterations fw F env steps_per_epoch steps_per_eval
             Hcount) in Hc; [|lia|exact Hit].
    destruct Hc as [Hc|(Hrange & Hc)]; [left; exact Hc|].
    right. split; [lia|]. split; [exact Hc|].
    intros st0. unfold Cifar.restore_latest.
    cbn [Cifar.checkpoint_restore Cifar.optimizer].
    rewrite Hc, Z.div_mul by lia. reflexivity.
Qed.

(** A state as restored from a checkpoint written at the end of epoch
    248, with one training step per epoch. *)
Definition restored_reference_state : Cifar.state :=
  Cifar.initial_state cifar_default_flags reference_environment 10
    example_variables {| Cifar.iterations := 249; Cifar.slots := [] |}.

Definition last_epoch_run : Cifar.state :=
  Cifar.main_loop reference_framework cifar_default_flags
    reference_environment 1 1 249 restored_reference_state.

(** The checkpoint that run writes at the end of epoch 249. *)
Definition last_epoch_checkpoint : Cifar.checkpoint :=
  {| Cifar.ck_epoch := 249;
     Cifar.ck_variables := example_variables;
     Cifar.ck_optimizer := {| Cifar.iterations := 250; Cifar.slots := [] |};
     Cifar.ck_global_step := 1 |}.

Lemma resume_at_next_epoch_witness :
  last_epoch_checkpoint ∈ Cifar.checkpoints last_epoch_run /\
  (Cifar.restore_latest 1 (Some last_epoch_checkpoint) reference_state).2
  = 250.
Proof.
  assert (Hin : last_epoch_checkpoint ∈ Cifar.checkpoints last_epoch_run).
  { apply list_elem_of_In. vm_compute. left. reflexivity. }
  split; [exact Hin|].
  destruct (resume_at_next_epoch reference_framework cifar_default_flags
              reference_environment 1 1 249 restored_reference_state
              ltac:(reflexivity) ltac:(lia) ltac:(reflexivity)
              last_epoch_checkpoint Hin)
    as [Hold|(_ & _ & Hres)].
  - apply elem_of_nil in Hold. destruct Hold.
  - rewrite Hres. reflexivity.
Defined.

(** ** KL annealing, continued *)

Section AnnealingProgress.
Import Cifar.

Variable fw : framework.
Variable F : FLAGS.
Variable env : environment.
Variable steps_per_epoch : Z.

Lemma ratio_strictly_mono (a b n : Z) :
  0 < n -> a < b -> (inject_Z a / inject_Z n < inject_Z b / inject_Z n)%Q.
Proof.
  intros Hn Hab. unfold Qdiv. apply Qmult_lt_compat_r.
  - apply Qinv_lt_0_compat, inject_Z_pos, Hn.
  - now rewrite <- Zlt_Qlt.
Qed.

Lemma ratio_lt_one (a n : Z) :
  0 < n -> a < n -> (inject_Z a / inject_Z n < 1)%Q.
Proof.
  intros Hn Han. apply Qlt_shift_div_r; [now apply inject_Z_pos|].
  rewrite Qmult_1_l. now rewrite <- Zlt_Qlt.
Qed.

(** Below the horizon [kl_scale] is the ratio itself. *)
Lemma kl_scale_below_horizon (g : Z) :
  0 < steps_per_epoch * kl_annealing_epochs F ->
  - 2 ^ 63 <= g < 2 ^ 63 - 1 ->
  g + 1 <= steps_per_epoch * kl_annealing_epochs F ->
  (kl_scale F steps_per_epoch g
   == inject_Z (g + 1)
      / inject_Z (steps_per_epoch * kl_annealing_epochs F))%Q.
Proof.
  intros Hpos Hg Hle. rewrite kl_scale_exact by exact Hg.
  apply Q.min_r. apply Qle_shift_div_r; [now apply inject_Z_pos|].
  rewrite Qmult_1_l. now rewrite <- Zle_Qle.
Qed.

Lemma train_step_kl_scale_metric (st : state) :
  metrics (train_step fw F env steps_per_epoch st) !! "train/kl_scale"
  = metric_update_state (Scalar (kl_scale F steps_per_epoch (global_step st)))
      <$> metrics st !! "train/kl_scale".
Proof.
  unfold train_step, next_train, train_step_fn.
  destruct (train_dataset env _) as [images labels].
  cbn [optimizer trainable_variables forward_passes global_step metrics].
  destruct (apply_gradients fw _ _) as [optimizer' variables'].
  cbn [metrics]. rewrite !update_state_lookup.
  repeat (destruct (decide _) as [Heq|_]; [discriminate Heq|]).
  destruct (decide _) as [_|Hne]; [|contradiction].
  repeat (destruct (decide _) as [Heq|_]; [discriminate Heq|]).
  reflexivity.
Qed.

Lemma train_steps_kl_scale_metric {A : Type} (xs : list A) (st : state)
    (m : metric) :
  metrics st !! "train/kl_scale" = Some m ->
  - 2 ^ 63 <= global_step st ->
  global_step st + Z.of_nat (length xs) < 2 ^ 63 ->
  metrics
    (for_each xs (fun st _ => train_step fw F env steps_per_epoch st) st)
    !! "train/kl_scale"
  = Some {| kind := kind m;
            updates :=
              updates m ++
              map (fun i : nat =>
                     Scalar (kl_scale F steps_per_epoch
                               (global_step st + Z.of_nat i)))
                  (seq 0 (length xs)) |}.
Proof.
  revert st m. induction xs as [|x xs IH]; intros st m Hm Hlo Hhi.
  - unfold for_each. simpl. rewrite app_nil_r, Hm. now destruct m.
  - rewrite for_each_cons. simpl length in *.
    pose proof (train_step_fields fw F env steps_per_epoch st) as (Hg & _).
    cbv zeta in Hg. rewrite int64_small in Hg by lia.
    pose proof (train_step_kl_scale_metric st) as Hm1. rewrite Hm in Hm1.
    simpl in Hm1.
    rewrite (IH _ _ Hm1) by (rewrite Hg; lia).
    f_equal. unfold metric_update_state. cbn [kind updates]. f_equal.
    rewrite <- app_assoc. f_equal. cbn [seq map app].
    rewrite Z.add_0_r. f_equal.
    rewrite <- seq_shift, map_map. apply map_ext. intros i.
    rewrite Hg. do 2 f_equal. lia.
Qed.

End AnnealingProgress.

(** X4. The annealing takes exactly the horizon: with a positive horizon
    [steps_per_epoch * kl_annealing_epochs] (and global steps within
    [tf.int64]) [kl_scale] is 1 if and only if [global_step >= horizon -
    1], and up to there it grows strictly with every step. *)
Theorem kl_scale_one_exactly_from_horizon
    (F : Cifar.FLAGS) (steps_per_epoch : Z) :
  0 < steps_per_epoch * Cifar.kl_annealing_epochs F ->
  let horizon := steps_per_epoch * Cifar.kl_annealing_epochs F in
  (forall g, - 2 ^ 63 <= g < 2 ^ 63 - 1 ->
     (Cifar.kl_scale F steps_per_epoch g == 1)%Q <-> horizon - 1 <= g) /\
  (forall g1 g2, - 2 ^ 63 <= g1 -> g1 < g2 -> g2 <= horizon - 1 ->
     g2 < 2 ^ 63 - 1 ->
     (Cifar.kl_scale F steps_per_epoch g1
      < Cifar.kl_scale F steps_per_epoch g2)%Q).
Proof.
  intros Hpos horizon. split.
  - intros g Hg. split.
    + intros H1. destruct (Z_lt_le_dec g (horizon - 1)) as [Hlt|]; [|assumption].
      exfalso. rewrite kl_scale_below_horizon in H1 by (fold horizon; lia).
      pose proof (ratio_lt_one (g + 1) horizon Hpos ltac:(lia)) as Hr.
      fold horizon in H1. rewrite H1 in Hr. exact (Qlt_irrefl 1 Hr).
    + intros Hge. rewrite kl_scale_exact by exact Hg.
      apply Q.min_l. apply ratio_ge_one; [exact Hpos|]. fold horizon. lia.
  - intros g1 g2 Hlo H12 Hhor Hhi.
    rewrite !kl_scale_below_horizon by (fold horizon; lia).
    apply ratio_strictly_mono; [exact Hpos|lia].
Qed.

Lemma kl_scale_one_exactly_from_horizon_witness :
  ((Cifar.kl_scale cifar_default_flags 97 19398 == 1)%Q <-> 19400 - 1 <= 19398)
  /\ (Cifar.kl_scale cifar_default_flags 97 19397
      < Cifar.kl_scale cifar_default_flags 97 19398)%Q.
Proof.
  assert (Hpos : 0 < 97 * Cifar.kl_annealing_epochs cifar_default_flags)
    by (simpl; lia).
  pose proof (kl_scale_one_exactly_from_horizon cifar_default_flags 97 Hpos)
    as H.
  cbv zeta in H. destruct H as (Hiff & Hstrict). split.
  - apply Hiff. lia.
  - apply Hstrict; simpl; lia.
Defined.

(** X5. The ['train/kl_scale'] metric follows the global step: in an epoch
    entered at global step [g] it receives, in this order, [kl_scale] at
    [g], [g + 1], ..., [g + steps_per_epoch - 1] (the global step staying
    within [tf.int64]). *)
Theorem kl_scale_metric_follows_global_step
    (fw : Cifar.framework) (F : Cifar.FLAGS) (env : Cifar.environment)
    (steps_per_epoch : Z) (st : Cifar.state) (m : Cifar.metric) :
  Cifar.metrics st !! "train/kl_scale" = Some m ->
  - 2 ^ 63 <= Cifar.global_step st ->
  Cifar.global_step st + Z.max 0 steps_per_epoch < 2 ^ 63 ->
  Cifar.metrics (Cifar.train_epoch fw F env steps_per_epoch st)
    !! "train/kl_scale"
  = Some {| Cifar.kind := Cifar.kind m;
            Cifar.updates :=
              Cifar.updates m ++
              map (fun i =>
                     Cifar.Scalar
                       (Cifar.kl_scale F steps_per_epoch
                          (Cifar.global_step st + i)))
                  (Cifar.range steps_per_epoch) |}.
Proof.
  intros Hm Hlo Hhi. unfold Cifar.train_epoch.
  rewrite (train_steps_kl_scale_metric fw F env steps_per_epoch _ st m Hm Hlo)
    by (rewrite length_range; lia).
  rewrite length_range. unfold Cifar.range, seqZ.
  rewrite <- list_fmap_compose. do 3 f_equal.
  change (map ?f ?l) with (f <$> l). apply list_fmap_ext.
  intros i x _. simpl. do 3 f_equal. lia.
Qed.

Lemma kl_scale_metric_follows_global_step_witness :
  Cifar.metrics
    (Cifar.train_epoch reference_framework cifar_default_flags
       reference_environment 2 reference_state)
    !! "train/kl_scale"
  = Some {| Cifar.kind := Cifar.Mean;
            Cifar.updates :=
              [] ++
              map (fun i =>
                     Cifar.Scalar (Cifar.kl_scale cifar_default_flags 2 (0 + i)))
                  (Cifar.range 2) |}.
Proof.
  apply (kl_scale_metric_follows_global_step reference_framework
           cifar_default_flags reference_environment 2 reference_state
           (Cifar.new_metric Cifar.Mean)).
  - reflexivity.
  - vm_compute. discriminate.
  - vm_compute. reflexivity.
Defined.

(** ** Which metrics an evaluation touches *)

Section Routing.
Import Cifar.

Variable fw : framework.
Variable F : FLAGS.
Variable env : environment.
Variable steps_per_epoch : Z.
Variable steps_per_eval : Z.

(** A loop keeps what its iterations over the elements of the list keep. *)
Lemma for_each_preserves_in {A St B : Type} (proj : St -> B) (xs : list A)
    (body : St -> A -> St) (s : St) :
  (forall s a, a ∈ xs -> proj (body s a) = proj s) ->
  proj (for_each xs body s) = proj s.
Proof.
  revert s. induction xs as [|x xs IH]; intros s Hbody; [reflexivity|].
  rewrite for_each_cons, IH.
  - apply Hbody. apply list_elem_of_here.
  - intros s' a Ha. apply Hbody. now apply list_elem_of_further.
Qed.

(** The name of a corrupted dataset has an underscore in it; ['clean'] has
    none. *)
Lemma corrupted_name_not_clean (corruption : string) (intensity : Z) :
  corrupted_name corruption intensity <> "clean".
Proof.
  intros Heq.
  assert (H : str_contains "_" (corrupted_name corruption intensity) = true).
  { apply str_contains_spec. exists corruption, (pretty intensity).
    reflexivity. }
  rewrite Heq in H. discriminate H.
Qed.

Lemma corrupted_name_eqb (corruption : string) (intensity : Z) :
  String.eqb (corrupted_name corruption intensity) "clean" = false.
Proof.
  apply String.eqb_neq, corrupted_name_not_clean.
Qed.

(** The datasets of [test_datasets]: ['clean'] first, then one per
    corruption type and intensity. *)
Lemma elem_of_test_datasets (dataset_name : string)
    (test_dataset : nat -> tensor * list Z) :
  (dataset_name, test_dataset) ∈ test_datasets F env ->
  (dataset_name = "clean" /\ test_dataset = clean_test_dataset env) \/
  (0 < corruptions_interval F /\
   exists corruption intensity,
     corruption ∈ corruption_types env /\
     1 <= intensity <= max_intensity env /\
     dataset_name = corrupted_name corruption intensity /\
     test_dataset = load_c_input_fn env corruption intensity).
Proof.
  unfold test_datasets. intros Hin.
  apply elem_of_cons in Hin as [Heq|Hin].
  - left. now injection Heq.
  - right. destruct (bool_decide (0 < corruptions_interval F)) eqn:Hci;
      [|apply elem_of_nil in Hin; destruct Hin].
    apply bool_decide_eq_true in Hci. split; [exact Hci|].
    apply list_elem_of_bind in Hin as (corruption & Hin & Hc).
    apply list_elem_of_bind in Hin as (intensity & Hin & Hi).
    apply list_elem_of_singleton in Hin. injection Hin as -> ->.
    apply elem_of_seqZ in Hi.
    exists corruption, intensity. repeat split; try assumption; lia.
Qed.

Lemma elem_of_datasets_to_evaluate (epoch : Z) (dataset_name : string)
    (test_dataset : nat -> tensor * list Z) :
  (dataset_name, test_dataset) ∈ datasets_to_evaluate F env epoch ->
  (dataset_name, test_dataset) ∈ test_datasets F env.
Proof.
  unfold datasets_to_evaluate. destruct (corruptions_due F epoch);
    [trivial|].
  intros Hin. apply list_elem_of_singleton in Hin. rewrite Hin.
  unfold test_datasets. apply list_elem_of_here.
Qed.

Lemma test_step_clean (test_dataset : nat -> tensor * list Z) (st : state)
    (step : Z) :
  corrupt_metrics (test_step fw F "clean" test_dataset st step)
  = corrupt_metrics st.
Proof.
  unfold test_step, test_step_fn.
  destruct (test_dataset _) as [images labels]. reflexivity.
Qed.

Lemma test_step_corrupted (dataset_name : string)
    (test_dataset : nat -> tensor * list Z) (st : state) (step : Z) :
  dataset_name <> "clean" ->
  metrics (test_step fw F dataset_name test_dataset st step) = metrics st.
Proof.
  intros Hne. apply String.eqb_neq in Hne.
  unfold test_step, test_step_fn.
  destruct (test_dataset _) as [images labels]. cbn [metrics].
  now rewrite Hne.
Qed.

Lemma corruptions_due_iff (epoch : Z) :
  corruptions_due F epoch = true <->
  0 < corruptions_interval F /\ (epoch + 1) mod corruptions_interval F = 0.
Proof.
  unfold corruptions_due.
  rewrite andb_true_iff, bool_decide_eq_true, Z.eqb_eq. reflexivity.
Qed.

Lemma run_epoch_not_due (st : state) (epoch : Z) :
  corruptions_due F epoch = false ->
  corrupt_metrics
    (run_epoch fw F env steps_per_epoch steps_per_eval st epoch)
  = corrupt_metrics st.
Proof.
  intros Hdue. unfold run_epoch, end_of_epoch. rewrite Hdue.
  cbn [corrupt_metrics]. unfold evaluate, datasets_to_evaluate.
  rewrite Hdue. rewrite for_each_cons. unfold for_each at 1. simpl foldl.
  rewrite (for_each_preserves corrupt_metrics)
    by (intros s step; apply test_step_clean).
  unfold train_epoch. apply (for_each_preserves corrupt_metrics).
  intros s _. apply train_step_keys.
Qed.

End Routing.

(** X6. The corrupted-test metrics change only in the epochs that
    evaluate on the corrupted test sets: an epoch for which
    [corruptions_interval > 0 and (epoch + 1) % corruptions_interval == 0]
    does not hold leaves [corrupt_metrics] as it was, and with
    [corruptions_interval <= 0] the whole loop does. *)
Theorem corrupt_metrics_change_only_when_due
    (fw : Cifar.framework) (F : Cifar.FLAGS) (env : Cifar.environment)
    (steps_per_epoch steps_per_eval : Z) :
  (forall (st : Cifar.state) (epoch : Z),
      ~ (0 < Cifar.corruptions_interval F /\
         (epoch + 1) mod Cifar.corruptions_interval F = 0) ->
      Cifar.corrupt_metrics
        (Cifar.run_epoch fw F env steps_per_epoch steps_per_eval st epoch)
      = Cifar.corrupt_metrics st) /\
  (Cifar.corruptions_interval F <= 0 ->
   forall (initial_epoch : Z) (st : Cifar.state),
     Cifar.corrupt_metrics
       (Cifar.main_loop fw F env steps_per_epoch steps_per_eval
          initial_epoch st)
     = Cifar.corrupt_metrics st).
Proof.
  split.
  - intros st epoch Hnot. apply run_epoch_not_due.
    apply not_true_is_false. now rewrite corruptions_due_iff.
  - intros Hci initial_epoch st. unfold Cifar.main_loop.
    apply (for_each_preserves Cifar.corrupt_metrics).
    intros s epoch. apply run_epoch_not_due.
    apply not_true_is_false. rewrite corruptions_due_iff. lia.
Qed.

(** X7. Evaluation keeps the two dictionaries apart.  Every dataset the
    loop evaluates on is either ['clean'], or named
    ['<corruption>_<intensity>'] for a listed corruption and an intensity
    between 1 and [max_intensity], and such a name is never ['clean']; a
    test step on ['clean'] leaves [corrupt_metrics] unchanged, a test step
    on any other dataset leaves [metrics] unchanged. *)
Theorem evaluation_routes_metrics
    (fw : Cifar.framework) (F : Cifar.FLAGS) (env : Cifar.environment)
    (epoch : Z) (dataset_name : string)
    (test_dataset : nat -> Cifar.tensor * list Z) :
  (dataset_name, test_dataset) ∈ Cifar.datasets_to_evaluate F env epoch ->
  (dataset_name = "clean" /\
   test_dataset = Cifar.clean_test_dataset env /\
   forall st step,
     Cifar.corrupt_metrics
       (Cifar.test_step fw F dataset_name test_dataset st step)
     = Cifar.corrupt_metrics st) \/
  (dataset_name <> "clean" /\
   (exists corruption intensity,
       corruption ∈ Cifar.corruption_types env /\
       1 <= intensity <= Cifar.max_intensity env /\
       dataset_name = Cifar.corrupted_name corruption intensity) /\
   forall st step,
     Cifar.metrics (Cifar.test_step fw F dataset_name test_dataset st step)
     = Cifar.metrics st).
Proof.
  intros Hin. apply elem_of_datasets_to_evaluate in Hin.
  apply elem_of_test_datasets in Hin
    as [(-> & ->)|(_ & corruption & intensity & Hc & Hi & -> & ->)].
  - left. repeat split. intros st step. apply test_step_clean.
  - right. split; [apply corrupted_name_not_clean|]. split.
    + exists corruption, intensity. repeat split; assumption || lia.
    + intros st step. apply test_step_corrupted, corrupted_name_not_clean.
Qed.

Lemma evaluation_routes_metrics_witness :
  ("fog_2" <> "clean" /\
   (exists corruption intensity,
       corruption ∈ Cifar.corruption_types reference_environment /\
       1 <= intensity <= Cifar.max_intensity reference_environment /\
       "fog_2" = Cifar.corrupted_name corruption intensity) /\
   forall st step,
     Cifar.metrics
       (Cifar.test_step reference_framework every_epoch_flags "fog_2"
          reference_dataset st step)
     = Cifar.metrics st).
Proof.
  destruct (evaluation_routes_metrics reference_framework every_epoch_flags
              reference_environment 0 "fog_2" reference_dataset)
    as [(Hclean & _)|H].
  - apply list_elem_of_In. vm_compute. tauto.
  - discriminate Hclean.
  - exact H.
Defined.

(** ** The keys of the corrupted-test metrics *)

Section CorruptKeys.
Import Cifar.

Lemma for_each_invariant {A St : Type} (P : St -> Prop) (xs : list A)
    (body : St -> A -> St) (s : St) :
  (forall s a, P s -> P (body s a)) -> P s -> P (for_each xs body s).
Proof.
  intros Hbody. revert s.
  induction xs as [|x xs IH]; intros s Hs; [exact Hs|].
  rewrite for_each_cons. apply IH, Hbody, Hs.
Qed.

(** A loop of insertions has a key once some iteration inserts it, if no
    iteration removes keys. *)
Lemma for_each_inserts {A V : Type} (xs : list A)
    (body : gmap string V -> A -> gmap string V) (s : gmap string V)
    (key : string) (a : A) :
  (forall s a, is_Some (s !! key) -> is_Some (body s a !! key)) ->
  a ∈ xs ->
  (forall s, is_Some (body s a !! key)) ->
  is_Some (for_each xs body s !! key).
Proof.
  intros Hkeep Ha Hins. revert s.
  induction xs as [|x xs IH]; intros s; [apply elem_of_nil in Ha; destruct Ha|].
  rewrite for_each_cons. apply elem_of_cons in Ha as [<-|Ha].
  - apply (for_each_invariant (fun s => is_Some (s !! key))); [exact Hkeep|].
    apply Hins.
  - now apply IH.
Qed.

Variable F : FLAGS.
Variable env : environment.
Variable num_classes : Z.

Lemma initial_corrupt_metrics_has (prefix corruption : string)
    (intensity : Z) :
  0 < corruptions_interval F ->
  corruption ∈ corruption_types env ->
  1 <= intensity <= max_intensity env ->
  prefix ∈ ["test/nll_"; "test/accuracy_"; "test/ece_"] ->
  is_Some (initial_corrupt_metrics F env num_classes
             !! (prefix +:+ corrupted_name corruption intensity)).
Proof.
  intros Hci Hc Hi Hp. unfold initial_corrupt_metrics.
  rewrite bool_decide_eq_true_2 by exact Hci.
  apply for_each_inserts with (a := intensity).
  - intros s i Hs.
    apply (for_each_invariant (fun s => is_Some (s !! _))); [|exact Hs].
    intros s' c Hs'. rewrite !lookup_insert_is_Some'. auto.
  - apply elem_of_seqZ. lia.
  - intros s. apply for_each_inserts with (a := corruption).
    + intros s' c Hs'. rewrite !lookup_insert_is_Some'. auto.
    + exact Hc.
    + intros s'. rewrite !lookup_insert_is_Some'.
      repeat (apply elem_of_cons in Hp as [->|Hp]; [auto|]).
      apply elem_of_nil in Hp. destruct Hp.
Qed.

Lemma initial_corrupt_metrics_empty_logs (key : string) (m : metric) :
  initial_corrupt_metrics F env num_classes !! key = Some m ->
  updates m = [].
Proof.
  unfold initial_corrupt_metrics.
  destruct (bool_decide (0 < corruptions_interval F));
    [|rewrite lookup_empty; discriminate].
  revert key m.
  apply (for_each_invariant
           (fun s : gmap string metric =>
              forall key m, s !! key = Some m -> updates m = [])).
  - intros s i Hs.
    apply (for_each_invariant
             (fun s : gmap string metric =>
                forall key m, s !! key = Some m -> updates m = []));
      [|exact Hs].
    intros s' c Hs' key m.
    rewrite !lookup_insert.
    repeat (destruct (decide _); [intros [= <-]; reflexivity|]).
    apply Hs'.
  - intros key m. rewrite lookup_empty. discriminate.
Qed.

End CorruptKeys.

(** X8. No test step looks up a missing metric: for every dataset of
    [test_datasets] other than ['clean'], the three keys
    ['test/nll_<name>'], ['test/accuracy_<name>'] and ['test/ece_<name>']
    are in the [corrupt_metrics] dictionary [main] builds (the dictionary
    loops over intensities first, [test_datasets] over corruptions first),
    each with an empty metric; and a test step leaves the keys of both
    dictionaries as they are. *)
Theorem corrupted_dataset_metrics_exist
    (fw : Cifar.framework) (F : Cifar.FLAGS) (env : Cifar.environment)
    (num_classes : Z) (dataset_name : string)
    (test_dataset : nat -> Cifar.tensor * list Z) :
  (dataset_name, test_dataset) ∈ Cifar.test_datasets F env ->
  dataset_name <> "clean" ->
  (forall prefix,
      prefix ∈ ["test/nll_"; "test/accuracy_"; "test/ece_"] ->
      exists m,
        Cifar.initial_corrupt_metrics F env num_classes
          !! (prefix +:+ dataset_name) = Some m /\
        Cifar.updates m = []) /\
  (forall (st : Cifar.state) (step : Z),
      let st' := Cifar.test_step fw F dataset_name test_dataset st step in
      dom (Cifar.metrics st') = dom (Cifar.metrics st) /\
      dom (Cifar.corrupt_metrics st') = dom (Cifar.corrupt_metrics st)).
Proof.
  intros Hin Hne. split.
  - intros prefix Hp.
    apply elem_of_test_datasets in Hin
      as [(Hclean & _)|(Hci & corruption & intensity & Hc & Hi & -> & _)];
      [contradiction|].
    destruct (initial_corrupt_metrics_has F env num_classes prefix
                corruption intensity Hci Hc Hi Hp) as [m Hm].
    exists m. split; [exact Hm|].
    eapply initial_corrupt_metrics_empty_logs, Hm.
  - intros st step.
    pose proof (test_step_keys fw F dataset_name test_dataset st step)
      as (Hm & Hc).
    cbv zeta in *. split.
    + apply (f_equal dom) in Hm. now rewrite !dom_fmap_L in Hm.
    + apply (f_equal dom) in Hc. now rewrite !dom_fmap_L in Hc.
Qed.

Lemma corrupted_dataset_metrics_exist_witness :
  exists m,
    Cifar.initial_corrupt_metrics every_epoch_flags reference_environment 10
      !! ("test/accuracy_" +:+ "fog_2") = Some m /\
    Cifar.updates m = [].
Proof.
  apply (proj1 (corrupted_dataset_metrics_exist reference_framework
                  every_epoch_flags reference_environment 10 "fog_2"
                  reference_dataset
                  ltac:(apply list_elem_of_In; vm_compute; tauto)
                  ltac:(discriminate))).
  apply list_elem_of_In. simpl. tauto.
Defined.

(** ** How many updates an epoch makes *)

Section UpdateCounts.
Import Cifar.

Variable fw : framework.
Variable F : FLAGS.
Variable env : environment.
Variable steps_per_epoch : Z.
Variable steps_per_eval : Z.

(** The keys [train_step] updates, and the keys [test_step] updates for
    the clean test set. *)
Definition train_keys : list string :=
  ["train/ece"; "train/loss"; "train/negative_log_likelihood"; "train/kl";
   "train/kl_scale"; "train/accuracy"].

Definition clean_test_keys : list string :=
  ["test/negative_log_likelihood"; "test/accuracy"; "test/ece"].

(** The number of updates the metric under a key holds. *)
Definition update_count (ms : gmap string metric) (key : string) : nat :=
  length (history_of ms key).

Lemma update_count_update_state (key key' : string) (u : update)
    (ms : gmap string metric) :
  update_count (update_state key u ms) key'
  = if decide (key = key' /\ is_Some (ms !! key'))
    then S (update_count ms key')
    else update_count ms key'.
Proof.
  unfold update_count, history_of. rewrite update_state_lookup.
  destruct (decide (key = key')) as [->|Hne].
  - destruct (ms !! key') as [m|] eqn:Hm; simpl.
    + rewrite decide_True by (split; [reflexivity|eauto]).
      rewrite length_app. simpl. lia.
    + rewrite decide_False by (intros [_ [? [=]]]). reflexivity.
  - rewrite decide_False by (intros [? _]; contradiction). reflexivity.
Qed.

Lemma update_state_is_Some (key key' : string) (u : update)
    (ms : gmap string metric) :
  is_Some (update_state key u ms !! key') <-> is_Some (ms !! key').
Proof.
  rewrite update_state_lookup. destruct (decide (key = key')); [|reflexivity].
  apply fmap_is_Some.
Qed.

(** A sequence of [update_state] calls on different keys. *)
Definition update_all (updates : list (string * update))
    (ms : gmap string metric) : gmap string metric :=
  foldl (fun ms ku => update_state ku.1 ku.2 ms) ms updates.

Lemma update_all_count (kus : list (string * update))
    (ms : gmap string metric) (key : string) :
  NoDup kus.*1 ->
  is_Some (ms !! key) ->
  update_count (update_all kus ms) key
  = (update_count ms key + if bool_decide (key ∈ kus.*1) then 1 else 0)%nat
  /\ is_Some (update_all kus ms !! key).
Proof.
  revert ms. induction kus as [|[k u] kus IH]; intros ms Hnodup Hkey.
  - simpl. split; [lia|exact Hkey].
  - rewrite fmap_cons in Hnodup. apply NoDup_cons in Hnodup as [Hk Hnodup].
    unfold update_all. simpl foldl. fold (update_all kus (update_state k u ms)).
    destruct (IH (update_state k u ms) Hnodup) as (Hc & Hs);
      [now apply update_state_is_Some|].
    split; [|exact Hs]. rewrite Hc, update_count_update_state.
    rewrite fmap_cons. simpl fst.
    destruct (decide (k = key /\ is_Some (ms !! key))) as [[<- _]|Hn].
    + rewrite (bool_decide_eq_false_2 (k ∈ kus.*1)) by exact Hk.
      rewrite bool_decide_eq_true_2 by apply list_elem_of_here. lia.
    + assert (Hne : k <> key) by (intros Heq; apply Hn; now split).
      destruct (bool_decide (key ∈ kus.*1)) eqn:Hin.
      * apply bool_decide_eq_true in Hin.
        rewrite bool_decide_eq_true_2 by now apply list_elem_of_further.
        lia.
      * apply bool_decide_eq_false in Hin.
        rewrite bool_decide_eq_false_2; [lia|].
        intros Hin'. apply elem_of_cons in Hin' as [Heq|Hin'];
          [congruence|contradiction].
Qed.

Lemma train_step_fn_metrics (st : state) (inputs : tensor * list Z) :
  exists u1 u2 u3 u4 u5 u6,
    metrics (train_step_fn fw F steps_per_epoch st inputs)
    = update_all
        [("train/ece", u1); ("train/loss", u2);
         ("train/negative_log_likelihood", u3); ("train/kl", u4);
         ("train/kl_scale", u5); ("train/accuracy", u6)]
        (metrics st).
Proof.
  unfold train_step_fn. destruct inputs as [images labels].
  destruct (apply_gradients fw _ _). cbn [metrics].
  do 6 eexists. reflexivity.
Qed.

Lemma train_step_update_count (st : state) (key : string) :
  is_Some (metrics st !! key) ->
  update_count (metrics (train_step fw F env steps_per_epoch st)) key
  = (update_count (metrics st) key
     + if bool_decide (key ∈ train_keys) then 1 else 0)%nat
  /\ is_Some (metrics (train_step fw F env steps_per_epoch st) !! key).
Proof.
  intros Hkey. unfold train_step, next_train.
  destruct (train_step_fn_metrics
              {| trainable_variables := trainable_variables st;
                 optimizer := optimizer st;
                 global_step := global_step st;
                 forward_passes := forward_passes st;
                 train_position := S (train_position st);
                 metrics := metrics st;
                 corrupt_metrics := corrupt_metrics st;
                 summaries := summaries st;
                 checkpoints := checkpoints st |}
              (train_dataset env (train_position st)))
    as (u1 & u2 & u3 & u4 & u5 & u6 & ->).
  cbn [metrics]. apply update_all_count; [|exact Hkey].
  apply (bool_decide_unpack _). vm_compute. exact I.
Qed.

Lemma test_step_clean_metrics (test_dataset : nat -> tensor * list Z)
    (st : state) (step : Z) :
  exists u1 u2 u3,
    metrics (test_step fw F "clean" test_dataset st step)
    = update_all
        [("test/negative_log_likelihood", u1); ("test/accuracy", u2);
         ("test/ece", u3)]
        (metrics st).
Proof.
  unfold test_step, test_step_fn.
  destruct (test_dataset _) as [images labels]. cbn [metrics].
  do 3 eexists. reflexivity.
Qed.

Lemma test_step_clean_update_count (test_dataset : nat -> tensor * list Z)
    (st : state) (step : Z) (key : string) :
  is_Some (metrics st !! key) ->
  update_count (metrics (test_step fw F "clean" test_dataset st step)) key
  = (update_count (metrics st) key
     + if bool_decide (key ∈ clean_test_keys) then 1 else 0)%nat
  /\ is_Some (metrics (test_step fw F "clean" test_dataset st step) !! key).
Proof.
  intros Hkey.
  destruct (test_step_clean_metrics test_dataset st step)
    as (u1 & u2 & u3 & ->).
  apply update_all_count; [|exact Hkey].
  apply (bool_decide_unpack _). vm_compute. exact I.
Qed.

(** A loop whose every iteration adds [d] updates adds [d] times its
    length. *)
Lemma for_each_update_count {A : Type} (xs : list A)
    (body : state -> A -> state) (key : string) (d : nat) (st : state) :
  (forall s a,
      is_Some (metrics s !! key) ->
      update_count (metrics (body s a)) key
      = (update_count (metrics s) key + d)%nat
      /\ is_Some (metrics (body s a) !! key)) ->
  is_Some (metrics st !! key) ->
  update_count (metrics (for_each xs body st)) key
  = (update_count (metrics st) key + length xs * d)%nat
  /\ is_Some (metrics (for_each xs body st) !! key).
Proof.
  intros Hbody. revert st.
  induction xs as [|x xs IH]; intros st Hkey.
  - unfold for_each. simpl. split; [lia|exact Hkey].
  - rewrite for_each_cons.
    destruct (Hbody st x Hkey) as (Hc & Hs).
    destruct (IH _ Hs) as (Hc' & Hs').
    split; [|exact Hs']. rewrite Hc', Hc. simpl length. lia.
Qed.

Lemma evaluate_metrics (epoch : Z) (st : state) :
  metrics (evaluate fw F env steps_per_eval epoch st)
  = metrics
      (for_each (range steps_per_eval)
         (test_step fw F "clean" (clean_test_dataset env)) st).
Proof.
  unfold evaluate, datasets_to_evaluate, test_datasets.
  destruct (corruptions_due F epoch).
  - rewrite for_each_cons.
    apply (for_each_preserves_in metrics).
    intros s [dataset_name test_dataset] Hin.
    apply (for_each_preserves metrics). intros s' step.
    apply test_step_corrupted.
    destruct (bool_decide (0 < corruptions_interval F));
      [|apply elem_of_nil in Hin; destruct Hin].
    apply list_elem_of_bind in Hin as (corruption & Hin & _).
    apply list_elem_of_bind in Hin as (intensity & Hin & _).
    apply list_elem_of_singleton in Hin. injection Hin as -> _.
    apply corrupted_name_not_clean.
  - reflexivity.
Qed.

End UpdateCounts.

(** X9. An epoch updates every training metric once per training step and
    every clean-test metric once per evaluation step, whether or not the
    corrupted test sets are evaluated too: when the summaries are written,
    each key of [metrics] holds [steps_per_epoch] more updates if it is one
    of the six ['train/...'] keys, [steps_per_eval] more if it is one of
    the three ['test/...'] keys, and no key is added or lost. *)
Theorem epoch_update_counts
    (fw : Cifar.framework) (F : Cifar.FLAGS) (env : Cifar.environment)
    (steps_per_epoch steps_per_eval epoch : Z) (st : Cifar.state)
    (key : string) (m : Cifar.metric) :
  Cifar.metrics st !! key = Some m ->
  exists m',
    Cifar.metrics (at_report fw F env steps_per_epoch steps_per_eval st epoch)
      !! key = Some m' /\
    Cifar.kind m' = Cifar.kind m /\
    length (Cifar.updates m')
    = (length (Cifar.updates m)
       + (if bool_decide (key ∈ train_keys)
          then Z.to_nat steps_per_epoch else 0)
       + (if bool_decide (key ∈ clean_test_keys)
          then Z.to_nat steps_per_eval else 0))%nat.
Proof.
  intros Hm.
  assert (Hkey : is_Some (Cifar.metrics st !! key)) by eauto.
  unfold at_report.
  pose proof (for_each_update_count (Cifar.range steps_per_epoch)
                (fun st _ => Cifar.train_step fw F env steps_per_epoch st)
                key (if bool_decide (key ∈ train_keys) then 1 else 0)%nat st
                (fun s _ => train_step_update_count fw F env steps_per_epoch
                              s key) Hkey) as (Hc1 & Hs1).
  fold (Cifar.train_epoch fw F env steps_per_epoch st) in Hc1, Hs1.
  pose proof (for_each_update_count (Cifar.range steps_per_eval)
                (Cifar.test_step fw F "clean" (Cifar.clean_test_dataset env))
                key (if bool_decide (key ∈ clean_test_keys) then 1 else 0)%nat
                (Cifar.train_epoch fw F env steps_per_epoch st)
                (fun s step => test_step_clean_update_count fw F
                                 (Cifar.clean_test_dataset env) s step key)
                Hs1) as (Hc2 & Hs2).
  rewrite <- (evaluate_metrics fw F env steps_per_eval epoch) in Hc2, Hs2.
  destruct Hs2 as [m' Hm']. exists m'. split; [exact Hm'|].
  pose proof (proj1 (at_report_keys fw F env steps_per_epoch steps_per_eval
                       st epoch)) as Hkeys.
  unfold at_report in Hkeys.
  apply (f_equal (fun ms => ms !! key)) in Hkeys.
  rewrite !lookup_fmap, Hm', Hm in Hkeys. simpl in Hkeys.
  injection Hkeys as Hk. split; [exact Hk|].
  unfold update_count, history_of in Hc1, Hc2. rewrite Hm' in Hc2.
  rewrite Hm in Hc1. rewrite Hc2, Hc1, !length_range.
  destruct (bool_decide (key ∈ train_keys));
    destruct (bool_decide (key ∈ clean_test_keys)); lia.
Qed.

Lemma epoch_update_counts_witness :
  exists m',
    Cifar.metrics
      (at_report reference_framework every_epoch_flags reference_environment
         3 2 reference_state 0) !! "test/accuracy" = Some m' /\
    Cifar.kind m' = Cifar.SparseCategoricalAccuracy /\
    length (Cifar.updates m')
    = (0 + (if bool_decide ("test/accuracy" ∈ train_keys)
            then Z.to_nat 3 else 0)
       + (if bool_decide ("test/accuracy" ∈ clean_test_keys)
          then Z.to_nat 2 else 0))%nat.
Proof.
  apply (epoch_update_counts reference_framework every_epoch_flags
           reference_environment 3 2 0 reference_state "test/accuracy"
           (Cifar.new_metric Cifar.SparseCategoricalAccuracy)).
  reflexivity.
Defined.

(** ** The summaries of a run *)

Section Summaries.
Import Cifar.

Variable fw : framework.
Variable F : FLAGS.
Variable env : environment.
Variable steps_per_epoch : Z.
Variable steps_per_eval : Z.

Lemma at_report_summaries (st : state) (epoch : Z) :
  summaries (at_report fw F env steps_per_epoch steps_per_eval st epoch)
  = summaries st.
Proof.
  unfold at_report.
  pose proof (evaluate_training_part fw F env steps_per_eval epoch
                (train_epoch fw F env steps_per_epoch st)) as Hev.
  unfold training_part in Hev. injection Hev as _ _ _ _ -> _.
  unfold train_epoch. apply (for_each_preserves summaries).
  intros s _. apply train_step_fields.
Qed.

(** The summaries an epoch writes: one for every key of the results, all
    with step [epoch + 1], after those written before. *)
Lemma run_epoch_summaries_written (st : state) (epoch : Z) :
  exists total_results : gmap string Q,
    summaries (run_epoch fw F env steps_per_epoch steps_per_eval st epoch)
    = summaries st ++
      map (fun '(name, result) => (name, result, epoch + 1))
          (map_to_list total_results) /\
    forall key, is_Some (metrics st !! key) ->
                is_Some (total_results !! key).
Proof.
  unfold run_epoch. fold (at_report fw F env steps_per_epoch steps_per_eval
                            st epoch).
  unfold end_of_epoch.
  destruct (if corruptions_due F epoch then _ else _)
    as [corrupt_metrics' corrupt_results].
  cbn [summaries]. rewrite at_report_summaries.
  eexists. split; [reflexivity|].
  intros key Hkey. apply lookup_union_is_Some. right.
  rewrite lookup_fmap. apply fmap_is_Some.
  pose proof (proj1 (at_report_keys fw F env steps_per_epoch steps_per_eval
                       st epoch)) as Hkeys.
  apply (f_equal (fun ms => ms !! key)) in Hkeys.
  rewrite !lookup_fmap in Hkeys.
  apply fmap_is_Some with (f := reset_states). rewrite Hkeys.
  now apply fmap_is_Some.
Qed.

Lemma run_epoch_writes_key (st : state) (epoch : Z) (key : string) :
  is_Some (metrics st !! key) ->
  exists result,
    (key, result, epoch + 1)
    ∈ summaries (run_epoch fw F env steps_per_epoch steps_per_eval st epoch).
Proof.
  intros Hkey.
  destruct (run_epoch_summaries_written st epoch) as (total & -> & Hall).
  destruct (Hall key Hkey) as [result Hr]. exists result.
  apply elem_of_app. right.
  apply (list_elem_of_fmap_2'
           (fun '(name, result) => (name, result, epoch + 1))
           _ (key, result)); [|reflexivity].
  now apply elem_of_map_to_list.
Qed.

Lemma run_epoch_keeps_summaries (st : state) (epoch : Z)
    (entry : string * Q * Z) :
  entry ∈ summaries st ->
  entry ∈ summaries (run_epoch fw F env steps_per_epoch steps_per_eval
                       st epoch).
Proof.
  intros Hin.
  destruct (run_epoch_summaries_written st epoch) as (total & -> & _).
  apply elem_of_app. now left.
Qed.

Lemma run_epoch_summary_steps (st : state) (epoch : Z)
    (entry : string * Q * Z) :
  entry ∈ summaries (run_epoch fw F env steps_per_epoch steps_per_eval
                       st epoch) ->
  entry ∈ summaries st \/ entry.2 = epoch + 1.
Proof.
  destruct (run_epoch_summaries_written st epoch) as (total & -> & _).
  intros Hin. apply elem_of_app in Hin as [Hin|Hin]; [now left|]. right.
  apply list_elem_of_fmap in Hin as ([name result] & -> & _). reflexivity.
Qed.

Lemma run_epochs_write_key (epochs : list Z) (st : state) (key : string)
    (epoch : Z) :
  is_Some (metrics st !! key) ->
  epoch ∈ epochs ->
  exists result,
    (key, result, epoch + 1)
    ∈ summaries
        (for_each epochs (run_epoch fw F env steps_per_epoch steps_per_eval)
           st).
Proof.
  revert st. induction epochs as [|e epochs IH]; intros st Hkey Hin.
  - apply elem_of_nil in Hin. destruct Hin.
  - rewrite for_each_cons. apply elem_of_cons in Hin as [->|Hin].
    + destruct (run_epoch_writes_key st e key Hkey) as [result Hr].
      exists result.
      apply (for_each_invariant
               (fun s => (key, result, e + 1) ∈ summaries s));
        [|exact Hr].
      intros s a. apply run_epoch_keeps_summaries.
    + apply IH; [|exact Hin].
      rewrite run_epoch_metrics, lookup_fmap. now apply fmap_is_Some.
Qed.

Lemma run_epochs_summary_steps (epochs : list Z) (st : state)
    (entry : string * Q * Z) :
  entry ∈ summaries
            (for_each epochs
               (run_epoch fw F env steps_per_epoch steps_per_eval) st) ->
  entry ∈ summaries st \/ exists epoch, epoch ∈ epochs /\ entry.2 = epoch + 1.
Proof.
  revert st. induction epochs as [|e epochs IH]; intros st Hin.
  - now left.
  - rewrite for_each_cons in Hin. apply IH in Hin as [Hin|(epoch & He & Hs)].
    + apply run_epoch_summary_steps in Hin as [Hin|Hs]; [now left|].
      right. exists e. split; [apply list_elem_of_here|exact Hs].
    + right. exists epoch. split; [now apply list_elem_of_further|exact Hs].
Qed.

End Summaries.

(** X10. Every epoch of the run writes a summary for every metric: for
    each key of [metrics] and each epoch of [range(initial_epoch,
    train_epochs)] the summaries of the run hold a value under that key
    with step [epoch + 1]; and the loop writes no summary with any other
    step. *)
Theorem every_epoch_writes_every_metric
    (fw : Cifar.framework) (F : Cifar.FLAGS) (env : Cifar.environment)
    (steps_per_epoch steps_per_eval initial_epoch : Z) (st : Cifar.state) :
  let final :=
    Cifar.main_loop fw F env steps_per_epoch steps_per_eval initial_epoch st
  in
  (forall key epoch,
      is_Some (Cifar.metrics st !! key) ->
      initial_epoch <= epoch < Cifar.train_epochs F ->
      exists result, (key, result, epoch + 1) ∈ Cifar.summaries final) /\
  (forall name result step,
      (name, result, step) ∈ Cifar.summaries final ->
      (name, result, step) ∈ Cifar.summaries st \/
      initial_epoch + 1 <= step <= Cifar.train_epochs F).
Proof.
  cbv zeta. unfold Cifar.main_loop. split.
  - intros key epoch Hkey Hrange. apply run_epochs_write_key; [exact Hkey|].
    apply elem_of_seqZ. lia.
  - intros name result step Hin.
    apply run_epochs_summary_steps in Hin as [Hin|(epoch & He & Hs)];
      [now left|].
    right. apply elem_of_seqZ in He. simpl in Hs. lia.
Qed.

(** ** The network and the set-up of [main] *)

Section NetworkShape.
Import Cifar.

Lemma stride_one (a : Z) : (a + 1 - 1) / 1 = a.
Proof. rewrite Z.div_1_r. lia. Qed.

(** A block maps a feature map of height [h] and width [w] to one of
    height and width [ceil(h / strides)] and [ceil(w / strides)] with
    [filters] channels. *)
Lemma basic_block_shape (inputs x : keras_tensor) (filters strides : Z)
    (prior_stddev : Q) (dataset_size : Z) (stddev_init : Q) (h w c : Z) :
  basic_block inputs filters strides prior_stddev dataset_size stddev_init
  = Returns x ->
  static_shape inputs = [h; w; c] ->
  static_shape x
  = [(h + strides - 1) / strides; (w + strides - 1) / strides; filters].
Proof.
  unfold basic_block. intros Hx Hs.
  destruct (truediv_one dataset_size) as [sf|e]; [|discriminate Hx].
  simpl in Hx.
  destruct (negb (is_compatible_with _ _)) eqn:Hcompat; simpl in Hx;
    injection Hx as <-; simpl; rewrite Hs.
  - reflexivity.
  - apply negb_false_iff in Hcompat. unfold is_compatible_with in Hcompat.
    apply bool_decide_eq_true in Hcompat. simpl in Hcompat.
    rewrite Hs in Hcompat. rewrite !stride_one in Hcompat. exact Hcompat.
Qed.

Lemma repeat_result_shape (n : nat) (body : keras_tensor -> result keras_tensor)
    (shape : list Z) :
  (forall x y, body x = Returns y -> static_shape x = shape ->
               static_shape y = shape) ->
  forall x y, repeat_result n body x = Returns y ->
              static_shape x = shape -> static_shape y = shape.
Proof.
  intros Hbody. induction n as [|n IH]; intros x y Hy Hx; simpl in Hy.
  - injection Hy as <-. exact Hx.
  - destruct (body x) as [x'|e] eqn:Hb; [|discriminate Hy]. simpl in Hy.
    eapply IH; [exact Hy|]. eapply Hbody; eassumption.
Qed.

Lemma group_shape (inputs x : keras_tensor) (filters strides num_blocks : Z)
    (prior_stddev : Q) (dataset_size : Z) (stddev_init : Q) (h w c : Z) :
  group inputs filters strides num_blocks prior_stddev dataset_size
    stddev_init = Returns x ->
  static_shape inputs = [h; w; c] ->
  static_shape x
  = [(h + strides - 1) / strides; (w + strides - 1) / strides; filters].
Proof.
  unfold group. intros Hx Hs.
  destruct (basic_block inputs _ _ _ _ _) as [x1|e] eqn:Hb;
    [|discriminate Hx].
  simpl in Hx.
  pose proof (basic_block_shape _ _ _ _ _ _ _ _ _ _ Hb Hs) as Hs1.
  eapply repeat_result_shape; [|exact Hx|exact Hs1].
  intros y z Hz Hy.
  rewrite (basic_block_shape _ _ _ _ _ _ _ _ _ _ Hz Hy).
  now rewrite !stride_one.
Qed.

End NetworkShape.

(** X11. The network [wide_resnet] builds halves the feature map twice:
    for an input of height [h] and width [w], the tensor handed to the
    final pooling has height and width [ceil(ceil(h / 2) / 2)] and
    [ceil(ceil(w / 2) / 2)] and [64 * width_multiplier] channels, the
    output has [num_classes] units; for a 32x32 input the pooled map is
    8x8, as the docstring says. *)
Theorem wide_resnet_feature_maps
    (h w c depth width_multiplier num_classes : Z)
    (prior_stddev : Q) (dataset_size : Z) (stddev_init : Q)
    (net : Cifar.keras_tensor) :
  Cifar.wide_resnet [h; w; c] depth width_multiplier num_classes
    prior_stddev dataset_size stddev_init = Returns net ->
  exists x initializer regularizer,
    net = Cifar.DenseFlipout num_classes initializer regularizer
            (Cifar.Flatten
               (Cifar.AveragePooling2D 8
                  (Cifar.Activation "relu" (Cifar.BatchNormalization x)))) /\
    Cifar.static_shape x
    = [((h + 2 - 1) / 2 + 2 - 1) / 2; ((w + 2 - 1) / 2 + 2 - 1) / 2;
       64 * width_multiplier] /\
    Cifar.static_shape net = [num_classes] /\
    (h = 32 -> w = 32 ->
     Cifar.static_shape x = [8; 8; 64 * width_multiplier]).
Proof.
  unfold Cifar.wide_resnet. intros Hnet.
  destruct (negb _); [discriminate Hnet|].
  destruct (Cifar.truediv_one dataset_size) as [sf|e]; [|discriminate Hnet].
  simpl in Hnet.
  destruct (Cifar.group _ (16 * width_multiplier) 1 _ _ _ _)
    as [x1|e] eqn:H1; [|discriminate Hnet].
  simpl in Hnet.
  destruct (Cifar.group x1 (32 * width_multiplier) 2 _ _ _ _)
    as [x2|e] eqn:H2; [|discriminate Hnet].
  simpl in Hnet.
  destruct (Cifar.group x2 (64 * width_multiplier) 2 _ _ _ _)
    as [x3|e] eqn:H3; [|discriminate Hnet].
  simpl in Hnet. injection Hnet as <-.
  pose proof (group_shape _ _ _ _ _ _ _ _ _ _ _ H1 eq_refl) as S1.
  rewrite !stride_one in S1.
  pose proof (group_shape _ _ _ _ _ _ _ _ _ _ _ H2 S1) as S2.
  pose proof (group_shape _ _ _ _ _ _ _ _ _ _ _ H3 S2) as S3.
  exists x3. do 2 eexists. split; [reflexivity|]. split; [exact S3|].
  split; [reflexivity|].
  intros -> ->. rewrite S3. reflexivity.
Qed.

Lemma wide_resnet_feature_maps_witness :
  exists x initializer regularizer net,
    Cifar.wide_resnet [32; 32; 3] 16 2 10 (1 # 10) 50000 (1 # 1000)
    = Returns net /\
    net = Cifar.DenseFlipout 10 initializer regularizer
            (Cifar.Flatten
               (Cifar.AveragePooling2D 8
                  (Cifar.Activation "relu" (Cifar.BatchNormalization x)))) /\
    Cifar.static_shape x = [8; 8; 64 * 2].
Proof.
  pose (net :=
          match
            Cifar.wide_resnet [32; 32; 3] 16 2 10 (1 # 10) 50000 (1 # 1000)
          with
          | Returns net => net
          | Raises _ => Cifar.Input []
          end).
  assert (Hnet : Cifar.wide_resnet [32; 32; 3] 16 2 10 (1 # 10) 50000
                   (1 # 1000) = Returns net)
    by (vm_compute; reflexivity).
  destruct (wide_resnet_feature_maps 32 32 3 16 2 10 (1 # 10) 50000
              (1 # 1000) net Hnet)
    as (x & initializer & regularizer & Heq & _ & _ & H32).
  exists x, initializer, regularizer, net.
  split; [reflexivity|]. split; [exact Heq|]. now apply H32.
Defined.


(** X13. The decay epochs handed to the learning-rate schedule are the
    flag's epochs rescaled from a 200-epoch run to [train_epochs]: in
    order, unchanged when [train_epochs] is 200, never after an epoch the
    flag puts later (for non-negative [train_epochs]), and within the run
    when the flag's epoch is within 200. *)
Theorem cifar_decay_epochs_rescaled
    (F : Cifar.FLAGS) (ds_info : Cifar.dataset_info) (s : Cifar.setup) :
  Cifar.main_setup F ds_info = Returns s ->
  let scaled := Cifar.lrs_decay_epochs (Cifar.lr_schedule s) in
  length scaled = length (Cifar.lr_decay_epochs F) /\
  (forall i e,
      Cifar.lr_decay_epochs F !! i = Some e ->
      scaled !! i = Some ((e * Cifar.train_epochs F) / 200)) /\
  (Cifar.train_epochs F = 200 -> scaled = Cifar.lr_decay_epochs F) /\
  (forall e1 e2,
      0 <= Cifar.train_epochs F -> e1 <= e2 ->
      (e1 * Cifar.train_epochs F) / 200 <= (e2 * Cifar.train_epochs F) / 200)
  /\
  (forall e,
      0 < Cifar.train_epochs F -> 0 <= e < 200 ->
      0 <= (e * Cifar.train_epochs F) / 200 < Cifar.train_epochs F).
Proof.
  intros Hs.
  assert (Hscaled : Cifar.lrs_decay_epochs (Cifar.lr_schedule s)
                    = map (fun e => (e * Cifar.train_epochs F) / 200)
                          (Cifar.lr_decay_epochs F)).
  { unfold Cifar.main_setup in Hs.
    destruct (floordiv (Cifar.train_num_examples ds_info) _);
      [|discriminate Hs].
    simpl in Hs.
    destruct (floordiv (Cifar.test_num_examples ds_info) _);
      [|discriminate Hs].
    simpl in Hs.
    destruct (Cifar.wide_resnet _ _ _ _ _ _ _); [|discriminate Hs].
    simpl in Hs. injection Hs as <-. reflexivity. }
  cbv zeta. rewrite Hscaled. split; [apply length_map|]. split; [|split; [|split]].
  - intros i e He. change (map ?f ?l) with (f <$> l).
    now rewrite list_lookup_fmap, He.
  - intros ->. rewrite <- (map_id (Cifar.lr_decay_epochs F)) at 2.
    apply map_ext. intros e. apply Z.div_mul. lia.
  - intros e1 e2 HT H12. apply Z.div_le_mono; nia.
  - intros e HT He. split.
    + apply Z.div_pos; nia.
    + apply Z.div_lt_upper_bound; nia.
Qed.

Lemma cifar_decay_epochs_rescaled_witness :
  exists s,
    Cifar.main_setup cifar_default_flags cifar10_info = Returns s /\
    Cifar.lrs_decay_epochs (Cifar.lr_schedule s) !! 1%nat
    = Some ((120 * 250) / 200).
Proof.
  destruct main_setup_defaults as (s & Hs & _).
  exists s. split; [exact Hs|].
  destruct (cifar_decay_epochs_rescaled cifar_default_flags cifar10_info s Hs)
    as (_ & Hlookup & _).
  apply (Hlookup 1%nat 120). reflexivity.
Defined.

(** ** [main] in a directory that already holds checkpoints *)

(** X14. Restarting a finished run does nothing.  When the latest
    checkpoint of the output directory was written after at least
    [train_epochs * steps_per_epoch] optimizer iterations, [main] restores
    it and its loop runs no epoch: the model, the optimizer and the global
    step are the checkpoint's, no batch is read, no forward pass is made,
    and neither a summary nor a checkpoint is written. *)
Theorem finished_run_restarts_idle
    (fw : Cifar.framework) (F : Cifar.FLAGS) (env : Cifar.environment)
    (ds_info : Cifar.dataset_info) (variables : list Cifar.variable)
    (optimizer : Cifar.optimizer_state) (saved : list Cifar.checkpoint)
    (s : Cifar.setup) (ck : Cifar.checkpoint) :
  Cifar.main_setup F ds_info = Returns s ->
  Cifar.latest_checkpoint saved = Some ck ->
  0 < Cifar.steps_per_epoch s ->
  Cifar.train_epochs F * Cifar.steps_per_epoch s
  <= Cifar.iterations (Cifar.ck_optimizer ck) ->
  exists st,
    Cifar.main fw F env ds_info variables optimizer saved = Returns st /\
    Cifar.trainable_variables st = Cifar.ck_variables ck /\
    Cifar.optimizer st = Cifar.ck_optimizer ck /\
    Cifar.global_step st = Cifar.ck_global_step ck /\
    Cifar.train_position st = 0%nat /\
    Cifar.forward_passes st = 0%nat /\
    Cifar.summaries st = [] /\
    Cifar.checkpoints st = [].
Proof.
  intros Hs Hlast Hspe Hdone. unfold Cifar.main. rewrite Hs, Hlast.
  cbn [mbind Cifar.restore_latest]. simpl.
  unfold Cifar.main_loop. rewrite seqZ_nil.
  - eexists. split; [reflexivity|]. repeat split.
  - assert (Cifar.train_epochs F
            <= Cifar.iterations (Cifar.ck_optimizer ck)
               / Cifar.steps_per_epoch s)
      by (apply Z.div_le_lower_bound; lia).
    lia.
Qed.

(** A checkpoint as the last epoch of a complete default run writes it:
    250 epochs of 97 steps. *)
Definition final_checkpoint : Cifar.checkpoint :=
  {| Cifar.ck_epoch := 249;
     Cifar.ck_variables := example_variables;
     Cifar.ck_optimizer := {| Cifar.iterations := 24250; Cifar.slots := [] |};
     Cifar.ck_global_step := 24250 |}.

Lemma finished_run_restarts_idle_witness :
  exists st,
    Cifar.main reference_framework cifar_default_flags reference_environment
      cifar10_info [] {| Cifar.iterations := 0; Cifar.slots := [] |}
      [final_checkpoint] = Returns st /\
    Cifar.global_step st = 24250 /\
    Cifar.summaries st = [] /\
    Cifar.checkpoints st = [].
Proof.
  destruct main_setup_defaults as (s & Hs & _ & Hspe & _).
  destruct (finished_run_restarts_idle reference_framework
              cifar_default_flags reference_environment cifar10_info []
              {| Cifar.iterations := 0; Cifar.slots := [] |}
              [final_checkpoint] s final_checkpoint Hs eq_refl)
    as (st & Hmain & _ & _ & Hstep & _ & _ & Hsum & Hck).
  - rewrite Hspe. lia.
  - rewrite Hspe. simpl. lia.
  - exists st. repeat split; assumption.
Defined.

(** * Further properties of the ImageNet script *)

(** ** The learning rate *)

Section ImagenetSetup.
Import Imagenet.

(** What a successful set-up has computed. *)
Lemma main_setup_inv (F : FLAGS) (s : setup) :
  main_setup F = Returns s ->
  batch_size s = imagenet_batch_size F /\
  batch_size s <> 0 /\
  su_steps_per_epoch s
  = match steps_per_epoch F with
    | Some k => if decide (k = 0) then 1281167 / batch_size s else k
    | None => 1281167 / batch_size s
    end /\
  steps_per_eval s = 50000 / batch_size s /\
  base_lr s = (base_learning_rate F * inject_Z (batch_size s) / 256)%Q /\
  learning_rate s
  = {| lrs_steps_per_epoch := su_steps_per_epoch s;
       lrs_initial_learning_rate := base_lr s;
       lrs_num_epochs := num_epochs F |}.
Proof.
  intros H.
  destruct (decide (version2 F = true /\ num_models F = 0)) as [Hnm|Hnm].
  { rewrite main_setup_zero_division in H by (left; exact Hnm).
    discriminate H. }
  destruct (decide (imagenet_batch_size F = 0)) as [Hbs|Hbs].
  { rewrite main_setup_zero_division in H by (right; exact Hbs).
    discriminate H. }
  unfold main_setup, imagenet_batch_size in *.
  destruct (version2 F).
  - assert (Hm : num_models F <> 0) by (intros E; apply Hnm; now split).
    rewrite (floordiv_returns _ _ Hm) in H. simpl in H.
    rewrite !(floordiv_returns _ _ Hbs) in H.
    destruct (steps_per_epoch F) as [k|];
      [destruct (decide (k = 0))|]; simpl in H;
      rewrite ?(floordiv_returns _ _ Hbs) in H; simpl in H;
      injection H as <-; simpl; repeat split; assumption.
  - simpl in H. rewrite !(floordiv_returns _ _ Hbs) in H.
    destruct (steps_per_epoch F) as [k|];
      [destruct (decide (k = 0))|]; simpl in H;
      rewrite ?(floordiv_returns _ _ Hbs) in H; simpl in H;
      injection H as <-; simpl; repeat split; assumption.
Qed.

Lemma lr_epoch_exact (e spe : Z) :
  spe <> 0 -> (inject_Z (e * spe) / inject_Z spe == inject_Z e)%Q.
Proof.
  intros Hspe. rewrite inject_Z_mult. field.
  intros E. apply Hspe. apply inject_Z_injective. exact E.
Qed.

(** During the warmup the rate grows linearly with the epoch. *)
Lemma call_in_warmup (self : ResnetLearningRateSchedule) (e : Z) :
  lrs_steps_per_epoch self <> 0 ->
  0 <= e < scaled_start (lrs_num_epochs self) 5 ->
  (call self (e * lrs_steps_per_epoch self)
   == lrs_initial_learning_rate self * inject_Z e
      / inject_Z (scaled_start (lrs_num_epochs self) 5))%Q.
Proof.
  intros Hspe He.
  pose proof (call_unfold self (e * lrs_steps_per_epoch self)) as Hc.
  cbv zeta in Hc. rewrite Hc.
  pose proof (lr_epoch_exact e _ Hspe) as Hlr.
  rewrite before_first_none_started.
  - rewrite Hlr. field.
    intros E. change 0%Q with (inject_Z 0) in E.
    apply (proj1 (inject_Z_injective _ _)) in E.
    unfold scaled_start in *. lia.
  - rewrite Hlr. change 0%Q with (inject_Z 0). rewrite <- Zle_Qle. lia.
  - rewrite Hlr. rewrite <- Zlt_Qlt. lia.
Qed.

(** At the end of the warmup the first entry of the table applies. *)
Lemma call_at_warmup_end (self : ResnetLearningRateSchedule) :
  lrs_steps_per_epoch self <> 0 ->
  18 <= lrs_num_epochs self ->
  (call self (scaled_start (lrs_num_epochs self) 5 * lrs_steps_per_epoch self)
   == lrs_initial_learning_rate self)%Q.
Proof.
  intros Hspe Hn.
  pose proof (call_unfold self
                (scaled_start (lrs_num_epochs self) 5
                 * lrs_steps_per_epoch self)) as Hc.
  cbv zeta in Hc. rewrite Hc. clear Hc.
  pose proof (lr_epoch_exact (scaled_start (lrs_num_epochs self) 5) _ Hspe)
    as Hlr.
  set (lr_epoch := (inject_Z _ / inject_Z _)%Q) in *.
  assert (Hfirst : started (lrs_num_epochs self) lr_epoch (1%Q, 5) = true).
  { unfold started. simpl snd. apply Qle_bool_iff. rewrite Hlr.
    apply Qle_refl. }
  assert (Hlater : forall m e, 30 <= e ->
             started (lrs_num_epochs self) lr_epoch (m, e) = false).
  { intros m e He. unfold started. simpl snd.
    apply not_true_is_false. rewrite Qle_bool_iff, Hlr, <- Zle_Qle.
    pose proof (scaled_start_mono (lrs_num_epochs self) 30 e
                  ltac:(lia) He) as Hm.
    unfold scaled_start in *.
    assert (5 * lrs_num_epochs self / 90 < 30 * lrs_num_epochs self / 90).
    { apply Z.div_lt_upper_bound; [lia|].
      assert (90 * (30 * lrs_num_epochs self / 90)
              > 30 * lrs_num_epochs self - 90).
      { pose proof (Z.mul_div_le (30 * lrs_num_epochs self) 90 ltac:(lia)).
        pose proof (Z.mod_pos_bound (30 * lrs_num_epochs self) 90
                      ltac:(lia)).
        pose proof (Z.div_mod (30 * lrs_num_epochs self) 90 ltac:(lia)).
        lia. }
      lia. }
    lia. }
  unfold last_started, _LR_SCHEDULE.
  rewrite !filter_cons, filter_nil. rewrite Hfirst, !Hlater by lia.
  repeat (destruct (decide _) as [?|?]; try discriminate; try contradiction).
  simpl. ring.
Qed.

End ImagenetSetup.

(** X15. The ImageNet learning rate scales linearly with the batch size,
    from a reference batch size of 256: the schedule is built from
    [steps_per_epoch], [num_epochs] and
    [base_lr = base_learning_rate * batch_size / 256], so [base_lr] is the
    flag's value exactly when the batch size is 256; a non-zero
    [steps_per_epoch] flag is used as it is, a zero one is replaced like an
    unset one. *)
Theorem imagenet_learning_rate_scaling
    (F : Imagenet.FLAGS) (s : Imagenet.setup) :
  Imagenet.main_setup F = Returns s ->
  Imagenet.learning_rate s
  = {| Imagenet.lrs_steps_per_epoch := Imagenet.su_steps_per_epoch s;
       Imagenet.lrs_initial_learning_rate := Imagenet.base_lr s;
       Imagenet.lrs_num_epochs := Imagenet.num_epochs F |} /\
  (Imagenet.base_lr s
   == Imagenet.base_learning_rate F
      * (inject_Z (Imagenet.batch_size s) / 256))%Q /\
  (~ (Imagenet.base_learning_rate F == 0)%Q ->
   ((Imagenet.base_lr s == Imagenet.base_learning_rate F)%Q <->
    Imagenet.batch_size s = 256)) /\
  (forall k, Imagenet.steps_per_epoch F = Some k -> k <> 0 ->
             Imagenet.su_steps_per_epoch s = k) /\
  (Imagenet.steps_per_epoch F = Some 0 ->
   Imagenet.su_steps_per_epoch s = 1281167 / Imagenet.batch_size s).
Proof.
  intros Hs.
  destruct (main_setup_inv F s Hs) as (_ & _ & Hspe & _ & Hlr & Hsched).
  split; [exact Hsched|]. split; [rewrite Hlr; unfold Qdiv; ring|].
  split; [|split].
  - intros Hb. rewrite Hlr. split.
    + intros H.
      assert (Hx : (inject_Z (Imagenet.batch_size s)
                    == (Imagenet.base_learning_rate F
                        * inject_Z (Imagenet.batch_size s) / 256)
                       * 256 / Imagenet.base_learning_rate F)%Q)
        by (field; exact Hb).
      rewrite H in Hx.
      assert (Hy : (Imagenet.base_learning_rate F * 256
                    / Imagenet.base_learning_rate F == 256)%Q)
        by (field; exact Hb).
      rewrite Hy in Hx. change 256%Q with (inject_Z 256) in Hx.
      exact (proj1 (inject_Z_injective _ _) Hx).
    + intros ->. change (inject_Z 256) with 256%Q. field.
  - intros k Hk Hk0. rewrite Hspe, Hk.
    destruct (decide (k = 0)); [contradiction|reflexivity].
  - intros Hk. rewrite Hspe, Hk. reflexivity.
Qed.

Lemma imagenet_learning_rate_scaling_witness :
  exists s,
    Imagenet.main_setup imagenet_default_flags = Returns s /\
    (Imagenet.base_lr s == (1 # 10) * (inject_Z (Imagenet.batch_size s) / 256))%Q.
Proof.
  destruct main_setup_version2 as (s & Hs & _).
  exists s. split; [exact Hs|].
  exact (proj1 (proj2 (imagenet_learning_rate_scaling imagenet_default_flags
                         s Hs))).
Defined.

(** X16. The learning rate stays within its bounds: for a non-negative
    initial learning rate, [ResnetLearningRateSchedule.__call__] returns a
    rate between 0 and [initial_learning_rate] at every step of a run. *)
Theorem resnet_schedule_bounded
    (self : Imagenet.ResnetLearningRateSchedule) (step : Z) :
  0 < Imagenet.lrs_steps_per_epoch self ->
  0 <= step ->
  (0 <= Imagenet.lrs_initial_learning_rate self)%Q ->
  (0 <= Imagenet.call self step)%Q /\
  (Imagenet.call self step <= Imagenet.lrs_initial_learning_rate self)%Q.
Proof.
  intros Hspe Hstep Hinit.
  pose proof (call_unfold self step) as Hc. cbv zeta in Hc. rewrite Hc.
  clear Hc.
  pose proof (lr_epoch_nonneg step _ Hspe Hstep) as H0.
  set (lr_epoch := (inject_Z step / inject_Z _)%Q) in *.
  set (init := Imagenet.lrs_initial_learning_rate self) in *.
  destruct (Imagenet.last_started _ lr_epoch) as [[mult start]|] eqn:Hlast.
  - apply last_Some_elem_of in Hlast.
    apply list_elem_of_filter in Hlast as [_ Hin].
    unfold Imagenet._LR_SCHEDULE in Hin. simpl fst.
    repeat (apply elem_of_cons in Hin as [Hin|Hin];
            [injection Hin as -> ->; split; lra|]).
    apply elem_of_nil in Hin. destruct Hin.
  - apply none_started_before_first in Hlast.
    set (W := inject_Z (Imagenet.scaled_start _ 5)) in *.
    assert (HW : (0 < W)%Q) by exact (Qle_lt_trans _ _ _ H0 Hlast).
    split.
    + apply Qle_shift_div_l; [exact HW|]. rewrite Qmult_0_l.
      apply Qmult_le_0_compat; [lra|exact H0].
    + apply Qle_shift_div_r; [exact HW|].
      rewrite Qmult_1_r, (Qmult_comm init lr_epoch), (Qmult_comm init W).
      apply Qmult_le_compat_r; [now apply Qlt_le_weak|exact Hinit].
Qed.

Lemma resnet_schedule_bounded_witness :
  (0 <= Imagenet.call imagenet_default_schedule 2502)%Q /\
  (Imagenet.call imagenet_default_schedule 2502 <= 4 # 10)%Q.
Proof.
  apply (resnet_schedule_bounded imagenet_default_schedule 2502).
  - simpl. lia.
  - lia.
  - simpl. lra.
Defined.

(** ** Serialisation *)

(** X17. What [get_config] keeps.  The config of the CIFAR regularizer
    determines it.  The config of the ImageNet schedule holds
    [steps_per_epoch] and [initial_learning_rate] but not [num_epochs], so
    it does not determine the schedule: every schedule with a non-zero
    initial rate, positive [steps_per_epoch] and [num_epochs >= 18] has the
    config of a schedule that returns another rate at some step. *)
Theorem get_config_contents :
  (forall a b : Cifar.NormalKLDivergenceWithTiedMean,
      Cifar.regularizer_get_config a = Cifar.regularizer_get_config b ->
      a = b) /\
  (forall a b : Imagenet.ResnetLearningRateSchedule,
      ImagenetTraining.get_config a = ImagenetTraining.get_config b <->
      Imagenet.lrs_steps_per_epoch a = Imagenet.lrs_steps_per_epoch b /\
      Imagenet.lrs_initial_learning_rate a
      = Imagenet.lrs_initial_learning_rate b) /\
  (forall a : Imagenet.ResnetLearningRateSchedule,
      0 < Imagenet.lrs_steps_per_epoch a ->
      ~ (Imagenet.lrs_initial_learning_rate a == 0)%Q ->
      18 <= Imagenet.lrs_num_epochs a ->
      exists (b : Imagenet.ResnetLearningRateSchedule) (step : Z),
        0 <= step /\
        ImagenetTraining.get_config b = ImagenetTraining.get_config a /\
        ~ (Imagenet.call b step == Imagenet.call a step)%Q).
Proof.
  split; [|split].
  - intros [sa fa] [sb fb] H. unfold Cifar.regularizer_get_config in H.
    simpl in H.
    assert (H1 := f_equal (fun m => m !! "stddev") H).
    assert (H2 := f_equal (fun m => m !! "scale_factor") H).
    cbv beta in H1, H2.
    do 2 (rewrite lookup_insert_ne in H1 by discriminate;
          rewrite lookup_insert_eq in H1).
    rewrite !lookup_insert_eq in H2.
    congruence.
  - intros [sa ia na] [sb ib nb]. unfold ImagenetTraining.get_config.
    simpl. split.
    + intros H.
      assert (H1 := f_equal (fun m => m !! "steps_per_epoch") H).
      assert (H2 := f_equal (fun m => m !! "initial_learning_rate") H).
      cbv beta in H1, H2.
      do 2 (rewrite lookup_insert_ne in H1 by discriminate;
          rewrite lookup_insert_eq in H1).
      rewrite !lookup_insert_eq in H2.
      split; congruence.
    + intros [-> ->]. reflexivity.
  - intros [spe init n] Hspe Hinit Hn. simpl in Hspe, Hinit, Hn.
    set (a := {| Imagenet.lrs_steps_per_epoch := spe;
                 Imagenet.lrs_initial_learning_rate := init;
                 Imagenet.lrs_num_epochs := n |}).
    set (b := {| Imagenet.lrs_steps_per_epoch := spe;
                 Imagenet.lrs_initial_learning_rate := init;
                 Imagenet.lrs_num_epochs := n + 18 |}).
    assert (Hw : Imagenet.scaled_start (n + 18) 5
                 = Imagenet.scaled_start n 5 + 1).
    { unfold Imagenet.scaled_start.
      replace (5 * (n + 18)) with (5 * n + 1 * 90) by lia.
      apply Z.div_add. lia. }
    assert (Hw0 : 0 <= Imagenet.scaled_start n 5).
    { unfold Imagenet.scaled_start. apply Z.div_pos; lia. }
    exists b, (Imagenet.scaled_start n 5 * spe).
    split; [nia|]. split; [reflexivity|].
    pose proof (call_at_warmup_end a ltac:(simpl; lia) Hn) as Ha.
    pose proof (call_in_warmup b (Imagenet.scaled_start n 5)
                  ltac:(simpl; lia) ltac:(simpl; lia)) as Hb.
    simpl in Ha, Hb. rewrite Ha, Hb, Hw. clear Ha Hb.
    rewrite inject_Z_plus.
    set (w := inject_Z (Imagenet.scaled_start n 5)).
    assert (Hwq : (0 <= w)%Q).
    { unfold w. change 0%Q with (inject_Z 0). now rewrite <- Zle_Qle. }
    intros H. apply Hinit.
    assert (E : (init * w == (init * w / (w + inject_Z 1)) * (w + inject_Z 1))%Q).
    { field. change (inject_Z 1) with 1%Q. lra. }
    rewrite H in E. change (inject_Z 1) with 1%Q in E. lra.
Qed.

(** ** The ImageNet training step *)

Section ImagenetStep.
Import ImagenetTraining.

(** Concatenating the variables a test selects and summing the squares is
    summing, over all variables, the squares of the selected ones. *)
Lemma sum_of_squares_filter (p : Cifar.variable -> bool)
    (variables : list Cifar.variable) :
  (sum_of_squares
     (Cifar.tf_concat (map Cifar.reshape_flat (List.filter p variables)))
   == reduce_sum
        (map (fun var =>
                if p var
                then sum_of_squares (Cifar.values (Cifar.value var))
                else 0)
             variables))%Q.
Proof.
  unfold Cifar.tf_concat.
  induction variables as [|var variables IH]; [reflexivity|].
  simpl List.filter. simpl map. destruct (p var).
  - simpl. rewrite sum_of_squares_app, IH. reflexivity.
  - rewrite IH. simpl. ring.
Qed.

(** A loop that appends one element per iteration builds a [map]. *)
Lemma for_each_append {A B : Type} (f : A -> B) (xs : list A)
    (body : list B -> A -> list B) (acc : list B) :
  (forall acc x, body acc x = acc ++ [f x]) ->
  Cifar.for_each xs body acc = acc ++ map f xs.
Proof.
  intros Hbody. revert acc.
  induction xs as [|x xs IH]; intros acc.
  - unfold Cifar.for_each. simpl. now rewrite app_nil_r.
  - rewrite for_each_cons, IH, Hbody, <- app_assoc. reflexivity.
Qed.

(** The gradient a variable is updated with when
    [fast_weight_lr_multiplier] is not 1. *)
Definition scaled_gradient (F : FLAGS) (pair : Cifar.tensor * Cifar.variable)
    : Cifar.tensor * Cifar.variable :=
  (if not_bn_and_batch_norm pair.2 && fast_weight pair.2
   then scale pair.1 (fast_weight_lr_multiplier F)
   else pair.1,
   pair.2).

Lemma grads_to_apply_map (F : FLAGS) (grads : list Cifar.tensor)
    (variables : list Cifar.variable) :
  Qeq_bool (fast_weight_lr_multiplier F) 1 = false ->
  grads_to_apply F grads variables
  = map (scaled_gradient F) (zip grads variables).
Proof.
  intros Hm. unfold grads_to_apply. rewrite Hm. simpl negb. cbv iota zeta.
  rewrite (for_each_append (scaled_gradient F)); [reflexivity|].
  intros acc [vec var]. unfold scaled_gradient. simpl.
  destruct (not_bn_and_batch_norm var), (fast_weight var); reflexivity.
Qed.

End ImagenetStep.

(** The factor [train_step] multiplies a variable's gradient with. *)
Definition lr_factor (F : ImagenetTraining.FLAGS) (var : Cifar.variable)
    : Q :=
  if ImagenetTraining.not_bn_and_batch_norm var
     && ImagenetTraining.fast_weight var
  then ImagenetTraining.fast_weight_lr_multiplier F
  else 1%Q.

(** What a variable adds to the sum of squares of the weight decay. *)
Definition weight_decay_contribution (var : Cifar.variable) : Q :=
  if ImagenetTraining.l2_selected var
  then sum_of_squares (Cifar.values (Cifar.value var))
  else 0%Q.

(** X18. The ImageNet weight decay.  A variable is left out of the decay
    exactly when its name contains ['alpha'], or contains ['gamma'], or
    contains both ['bn'] and ['batch_norm']; so a variable whose name has
    ['batch_norm'] but not ['bn'] in it is decayed unless it is a gamma.
    When some variable is selected, [l2_loss] is [weight_decay] times the
    sum of the squares of the selected variables' elements, [loss] adds it
    to the prediction loss, and [scaled_loss] is [loss] divided by the
    number of replicas. *)
Theorem imagenet_weight_decay_selection
    (F : ImagenetTraining.FLAGS) (loss1 : Q)
    (variables : list Cifar.variable) (num_replicas_in_sync : Z) :
  (forall var : Cifar.variable,
      ImagenetTraining.l2_selected var = false <->
      (exists before after,
          Cifar.name var = before +:+ "alpha" +:+ after) \/
      (exists before after,
          Cifar.name var = before +:+ "gamma" +:+ after) \/
      ((exists before after, Cifar.name var = before +:+ "bn" +:+ after) /\
       (exists before after,
           Cifar.name var = before +:+ "batch_norm" +:+ after))) /\
  ((exists var, var ∈ variables /\ ImagenetTraining.l2_selected var = true) ->
   (ImagenetTraining.l2_loss F variables
    == ImagenetTraining.weight_decay F
       * reduce_sum (map weight_decay_contribution variables))%Q /\
   (ImagenetTraining.loss F loss1 variables
    == loss1
       + ImagenetTraining.weight_decay F
         * reduce_sum (map weight_decay_contribution variables))%Q /\
   (num_replicas_in_sync <> 0 ->
    (ImagenetTraining.scaled_loss F loss1 variables num_replicas_in_sync
     * inject_Z num_replicas_in_sync
     == ImagenetTraining.loss F loss1 variables)%Q)).
Proof.
  split.
  - intros var. rewrite <- !str_contains_spec.
    unfold ImagenetTraining.l2_selected,
      ImagenetTraining.not_bn_and_batch_norm.
    destruct (str_contains "alpha" _), (str_contains "gamma" _),
      (str_contains "bn" _), (str_contains "batch_norm" _); simpl;
      intuition discriminate.
  - intros _.
    assert (Hl2 : (ImagenetTraining.l2_loss F variables
                   == ImagenetTraining.weight_decay F
                      * reduce_sum
                          (map weight_decay_contribution variables))%Q).
    { unfold ImagenetTraining.l2_loss, ImagenetTraining.filtered_variables,
        Cifar.tf_nn_l2_loss.
      pose proof (sum_of_squares_filter ImagenetTraining.l2_selected
                    variables) as H.
      unfold sum_of_squares in H at 1. rewrite H.
      unfold weight_decay_contribution. field. }
    split; [exact Hl2|]. split.
    + unfold ImagenetTraining.loss. rewrite Hl2. reflexivity.
    + intros Hn. unfold ImagenetTraining.scaled_loss. field.
      intros E. apply Hn. change 0%Q with (inject_Z 0) in E.
      exact (proj1 (inject_Z_injective _ _) E).
Qed.

(** X19. The separate learning rate of the fast weights.  Whatever the
    multiplier, the list handed to [optimizer.apply_gradients] pairs every
    variable, in order, with a gradient of its own shape: the gradient
    computed for it, multiplied element by element by
    [fast_weight_lr_multiplier] when the variable's name contains
    ['alpha'], ['gamma'] or ['bias'] and does not contain both ['bn'] and
    ['batch_norm'], and unchanged otherwise. *)
Theorem fast_weight_gradients_scaled
    (F : ImagenetTraining.FLAGS) (grads : list Cifar.tensor)
    (variables : list Cifar.variable) :
  length (ImagenetTraining.grads_to_apply F grads variables)
  = Nat.min (length grads) (length variables) /\
  map snd (ImagenetTraining.grads_to_apply F grads variables)
  = map snd (zip grads variables) /\
  forall (i : nat) (vec : Cifar.tensor) (var : Cifar.variable),
    grads !! i = Some vec ->
    variables !! i = Some var ->
    exists grad,
      ImagenetTraining.grads_to_apply F grads variables !! i
      = Some (grad, var) /\
      Cifar.shape grad = Cifar.shape vec /\
      Forall2 Qeq (Cifar.values grad)
              (map (fun x => x * lr_factor F var)%Q (Cifar.values vec)) /\
      ((lr_factor F var == 1)%Q -> grad = vec).
Proof.
  destruct (Qeq_bool (ImagenetTraining.fast_weight_lr_multiplier F) 1)
    eqn:Hm.
  - assert (Heq : ImagenetTraining.grads_to_apply F grads variables
                  = zip grads variables).
    { unfold ImagenetTraining.grads_to_apply. now rewrite Hm. }
    rewrite Heq. split; [apply length_zip|]. split; [reflexivity|].
    intros i vec var Hvec Hvar. exists vec.
    split; [now apply lookup_zip_Some|]. split; [reflexivity|].
    split; [|reflexivity].
    apply Qeq_bool_eq in Hm.
    assert (Hf : (lr_factor F var == 1)%Q).
    { unfold lr_factor. destruct (_ && _); [exact Hm|reflexivity]. }
    induction (Cifar.values vec) as [|x xs IH]; constructor; [|exact IH].
    rewrite Hf. ring.
  - rewrite (grads_to_apply_map F grads variables Hm).
    split; [rewrite length_map; apply length_zip|]. split.
    { rewrite map_map. apply map_ext. intros [vec var]. reflexivity. }
    intros i vec var Hvec Hvar.
    assert (Hzip : zip grads variables !! i = Some (vec, var))
      by now apply lookup_zip_Some.
    exists (fst (scaled_gradient F (vec, var))). split.
    { change (map ?f ?l) with (f <$> l).
      rewrite list_lookup_fmap, Hzip. reflexivity. }
    unfold scaled_gradient, lr_factor. simpl.
    destruct (_ && _); simpl.
    + split; [reflexivity|]. split.
      * induction (Cifar.values vec) as [|x xs IH]; constructor;
          [reflexivity|exact IH].
      * intros H1. apply Qeq_bool_neq in Hm. contradiction.
    + split; [reflexivity|]. split; [|reflexivity].
      induction (Cifar.values vec) as [|x xs IH]; constructor; [|exact IH].
      ring.
Qed.

(** ** The ImageNet test step *)

Section Ensemble.
Import ImagenetEvaluation.

(** A tensor of [r] rows and [c] columns. *)
Definition rect (r c : nat) (t : list (list Q)) : Prop :=
  length t = r /\ Forall (fun row => length row = c) t.

Lemma entry_take (b : nat) (t : list (list Q)) (j k : nat) :
  (j < b)%nat -> entry (take b t) j k = entry t j k.
Proof. intros Hj. unfold entry. now rewrite lookup_take_lt. Qed.

Lemma entry_drop (b : nat) (t : list (list Q)) (j k : nat) :
  entry (drop b t) j k = entry t (b + j) k.
Proof. unfold entry. now rewrite lookup_drop. Qed.

Lemma rect_lookup (r c : nat) (t : list (list Q)) (j k : nat) :
  rect r c t -> (j < r)%nat -> (k < c)%nat ->
  exists row x, t !! j = Some row /\ row !! k = Some x /\ entry t j k = x.
Proof.
  intros [Hr Hc] Hj Hk.
  destruct (lookup_lt_is_Some_2 t j ltac:(lia)) as [row Hrow].
  pose proof (Forall_lookup_1 _ _ _ _ Hc Hrow) as Hlen. simpl in Hlen.
  destruct (lookup_lt_is_Some_2 row k ltac:(lia)) as [x Hx].
  exists row, x. split; [exact Hrow|]. split; [exact Hx|].
  unfold entry. rewrite Hrow. simpl. now rewrite Hx.
Qed.

Lemma rect_add (r c : nat) (a b : list (list Q)) :
  rect r c a -> rect r c b -> rect r c (tensor2_add a b).
Proof.
  intros [Ha Fa] [Hb Fb]. unfold tensor2_add. split.
  - rewrite length_zip_with. lia.
  - apply Forall_lookup. intros i row Hrow.
    apply lookup_zip_with_Some in Hrow as (ra & rb & -> & Hra & Hrb).
    pose proof (Forall_lookup_1 _ _ _ _ Fa Hra) as Hla.
    pose proof (Forall_lookup_1 _ _ _ _ Fb Hrb) as Hlb.
    simpl in Hla, Hlb. rewrite length_zip_with. lia.
Qed.

Lemma entry_add (r c : nat) (a b : list (list Q)) (j k : nat) :
  rect r c a -> rect r c b -> (j < r)%nat -> (k < c)%nat ->
  entry (tensor2_add a b) j k = (entry a j k + entry b j k)%Q.
Proof.
  intros Ha Hb Hj Hk.
  destruct (rect_lookup r c a j k Ha Hj Hk) as (ra & x & Hra & Hx & ->).
  destruct (rect_lookup r c b j k Hb Hj Hk) as (rb & y & Hrb & Hy & ->).
  unfold entry, tensor2_add. rewrite lookup_zip_with, Hra, Hrb. simpl.
  rewrite lookup_zip_with, Hx, Hy. reflexivity.
Qed.

Lemma add_n_rect (r c : nat) (ts : list (list (list Q)))
    (t : list (list Q)) :
  rect r c t -> Forall (rect r c) ts -> rect r c (foldl tensor2_add t ts).
Proof.
  intros Ht Hts. revert t Ht.
  induction Hts as [|m ts Hm Hts IH]; intros t Ht; [exact Ht|].
  simpl foldl. apply IH. now apply rect_add.
Qed.

(** Adding up tensors of one shape adds up their elements. *)
Lemma add_n_entries (r c : nat) (ts : list (list (list Q)))
    (t : list (list Q)) (j k : nat) :
  rect r c t -> Forall (rect r c) ts -> (j < r)%nat -> (k < c)%nat ->
  (entry (foldl tensor2_add t ts) j k
   == entry t j k + reduce_sum (map (fun m => entry m j k) ts))%Q.
Proof.
  intros Ht Hts Hj Hk. revert t Ht.
  induction Hts as [|m ts Hm Hts IH]; intros t Ht.
  - simpl. ring.
  - simpl foldl. rewrite (IH (tensor2_add t m) (rect_add _ _ _ _ Ht Hm)).
    rewrite (entry_add r c t m j k Ht Hm Hj Hk). simpl. ring.
Qed.

Lemma chunks_rect (b c n : nat) (t : list (list Q)) :
  length t = (n * b)%nat ->
  Forall (fun row => length row = c) t ->
  Forall (rect b c) (chunks b n t).
Proof.
  revert t. induction n as [|n IH]; intros t Hlen Hrows; [constructor|].
  simpl chunks. constructor.
  - split; [rewrite length_take; lia|now apply Forall_take].
  - apply IH; [rewrite length_drop; lia|now apply Forall_drop].
Qed.

(** The [i]-th piece holds the rows [i * b], ..., [i * b + b - 1]. *)
Lemma chunks_entries (b n : nat) (t : list (list Q)) (j k : nat) :
  (j < b)%nat ->
  map (fun m => entry m j k) (chunks b n t)
  = map (fun i => entry t (i * b + j) k) (seq 0 n).
Proof.
  intros Hj. revert t. induction n as [|n IH]; intros t; [reflexivity|].
  simpl chunks. rewrite <- cons_seq, <- seq_shift. cbn [map].
  rewrite map_map, IH, (entry_take b t j k Hj). f_equal.
  apply map_ext. intros i. rewrite entry_drop. f_equal. lia.
Qed.

Lemma entry_map (f : Q -> Q) (r c : nat) (t : list (list Q)) (j k : nat) :
  rect r c t -> (j < r)%nat -> (k < c)%nat ->
  entry (map (map f) t) j k = f (entry t j k).
Proof.
  intros Ht Hj Hk.
  destruct (rect_lookup r c t j k Ht Hj Hk) as (row & x & Hrow & Hx & ->).
  unfold entry. change (map (map f) t) with (map f <$> t).
  rewrite list_lookup_fmap, Hrow. simpl.
  change (map f row) with (f <$> row).
  now rewrite list_lookup_fmap, Hx.
Qed.

End Ensemble.

(** X20. The ensemble's prediction is the mean of its members'.  In the
    test step of an ensemble ([num_models > 1]), when the predictions for
    the tiled batch have [num_models * batch] rows of [classes] columns,
    [ensemble_prediction] has [batch] rows of [classes] columns, and its
    row [j] is the mean over the members [i] of row [i * batch + j] of the
    predictions: member [i]'s prediction for example [j] of the batch. *)
Theorem ensemble_prediction_is_member_mean
    (num_models : Z) (classes : nat)
    (predictions : list (list Q)) :
  1 < num_models ->
  Z.of_nat (length predictions) mod num_models = 0 ->
  Forall (fun row => length row = classes) predictions ->
  let batch := Z.to_nat (Z.of_nat (length predictions) / num_models) in
  exists e,
    ImagenetEvaluation.ensemble_prediction predictions num_models = Some e /\
    length e = batch /\
    Forall (fun row => length row = classes) e /\
    forall j k, (j < batch)%nat -> (k < classes)%nat ->
      (ImagenetEvaluation.entry e j k
       == reduce_sum
            (map (fun i =>
                    ImagenetEvaluation.entry predictions (i * batch + j) k)
                 (seq 0 (Z.to_nat num_models)))
          / inject_Z num_models)%Q.
Proof.
  intros Hn Hmod Hrows batch.
  unfold ImagenetEvaluation.ensemble_prediction, ImagenetEvaluation.tf_split.
  rewrite bool_decide_eq_true_2 by lia.
  rewrite (proj2 (Z.eqb_eq _ _) Hmod). simpl andb. cbv iota.
  fold batch.
  assert (Hlen : length predictions = (Z.to_nat num_models * batch)%nat).
  { unfold batch.
    pose proof (Z.div_mod (Z.of_nat (length predictions)) num_models
                  ltac:(lia)) as Hdm.
    rewrite Hmod in Hdm.
    assert (0 <= Z.of_nat (length predictions) / num_models)
      by (apply Z.div_pos; lia).
    nia. }
  pose proof (chunks_rect batch classes (Z.to_nat num_models) predictions
                Hlen Hrows) as Hrect.
  assert (Hentries := fun j k (Hj : (j < batch)%nat) =>
            chunks_entries batch (Z.to_nat num_models) predictions j k Hj).
  destruct (ImagenetEvaluation.chunks batch (Z.to_nat num_models) predictions)
    as [|t ts] eqn:Hchunks.
  { destruct (Z.to_nat num_models) eqn:E; [lia|discriminate Hchunks]. }
  simpl. eexists. split; [reflexivity|].
  apply Forall_cons in Hrect as [Ht Hts].
  pose proof (add_n_rect batch classes ts t Ht Hts) as Htotal.
  split; [|split].
  - rewrite length_map. exact (proj1 Htotal).
  - apply Forall_lookup. intros i row Hrow.
    change (map ?f ?l) with (f <$> l) in Hrow.
    rewrite list_lookup_fmap in Hrow.
    destruct (foldl _ t ts !! i) as [row'|] eqn:Hrow'; [|discriminate Hrow].
    simpl in Hrow. injection Hrow as <-. rewrite length_map.
    exact (Forall_lookup_1 _ _ _ _ (proj2 Htotal) Hrow').
  - intros j k Hj Hk.
    rewrite (entry_map _ batch classes _ j k Htotal Hj Hk).
    rewrite (add_n_entries batch classes ts t j k Ht Hts Hj Hk).
    rewrite <- (Hentries j k Hj). simpl. reflexivity.
Qed.

(** Two members, a batch of two examples, three classes. *)
Definition two_member_predictions : list (list Q) :=
  [ [1 # 2; 1 # 4; 1 # 4]; [1; 0; 0];
    [1 # 4; 1 # 2; 1 # 4]; [0; 1; 0] ]%Q.

Lemma ensemble_prediction_is_member_mean_witness :
  exists e,
    ImagenetEvaluation.ensemble_prediction two_member_predictions 2 = Some e /\
    (ImagenetEvaluation.entry e 1 0 == (1 + (0 + 0)) / 2)%Q.
Proof.
  destruct (ensemble_prediction_is_member_mean 2 3 two_member_predictions)
    as (e & He & _ & _ & Hmean).
  - lia.
  - reflexivity.
  - repeat constructor.
  - exists e. split; [exact He|].
    apply (Hmean 1%nat 0%nat); [vm_compute; lia|lia].
Defined.
